(** * Verified model of the ZFS-to-Borg backup tooling

    Shallow embedding of [zfs_manager.py], [borg_backup_manager.py],
    [docker_manager.py] and [backup_manager.py], of the maintenance routine
    of [system_manager.py], the existence checks of [storage_manager.py] and
    the operations of [orchestrator.py] that are built from them.

    The Python code drives external command-line tools through the [sh]
    library.  The tools, the clock and the file system form the _host_; it is
    kept abstract (type class [Host]) so that the theorems hold for every
    behaviour of the tools, including faulty ones.  Python exceptions are
    values of type [exn]; a method is a function from a state to an outcome and
    a new state.  A concrete host, [Sim], on which the tools behave as
    documented, and a wrapper that injects process failures, [Faulty], are
    used to run the definitions on explicit inputs. *)

From Stdlib Require Import ZArith Ascii String List Lia.
From stdpp Require Import base option list gmap strings pretty.

Local Open Scope Z_scope.
Local Open Scope stdpp_scope.

(** ** Python string operations used by the managers *)

Module Py.

(** [not s] for [Optional[str]]: [None] and the empty string are falsy. *)
Definition truthy (o : option string) : bool :=
  match o with
  | Some s => negb (String.eqb s "")
  | None => false
  end.

(** Text is kept as its UTF-8 encoding: a [string] is the sequence of bytes
    of a Python [str].  The tests and replacements below that involve ASCII
    characters only (tab, ["/"], ["_"], ["-"], ["ssh "]) are the same on code
    points and on bytes; white space is the one place where characters of
    more than one byte matter. *)

(** The one-byte characters for which [str.isspace] holds. *)
Definition isspace (c : ascii) : bool :=
  match c with
  | "009" | "010" | "011" | "012" | "013"
  | "028" | "029" | "030" | "031" | " " => true
  | _ => false
  end%char.

(** The two-byte ones: U+0085 and U+00A0. *)
Definition isspace2 (c1 c2 : ascii) : bool :=
  match c1, c2 with
  | "194", "133" | "194", "160" => true
  | _, _ => false
  end%char.

(** The three-byte ones: U+1680, U+2000 to U+200A, U+2028, U+2029, U+202F,
    U+205F and U+3000. *)
Definition isspace3 (c1 c2 c3 : ascii) : bool :=
  match c1, c2, c3 with
  | "225", "154", "128"
  | "226", "128", "128" | "226", "128", "129" | "226", "128", "130"
  | "226", "128", "131" | "226", "128", "132" | "226", "128", "133"
  | "226", "128", "134" | "226", "128", "135" | "226", "128", "136"
  | "226", "128", "137" | "226", "128", "138"
  | "226", "128", "168" | "226", "128", "169" | "226", "128", "175"
  | "226", "129", "159"
  | "227", "128", "128" => true
  | _, _, _ => false
  end%char.

(** The rest of [s] after the white-space character it starts with, if it
    starts with one. *)
Definition space_at (s : string) : option string :=
  match s with
  | String c1 r1 =>
      if isspace c1 then Some r1
      else match r1 with
           | String c2 r2 =>
               if isspace2 c1 c2 then Some r2
               else match r2 with
                    | String c3 r3 => if isspace3 c1 c2 c3 then Some r3 else None
                    | EmptyString => None
                    end
           | EmptyString => None
           end
  | EmptyString => None
  end.

(** [s.lstrip()] without arguments. *)
Fixpoint lstrip (s : string) : string :=
  match s with
  | String c1 r1 =>
      if isspace c1 then lstrip r1
      else match r1 with
           | String c2 r2 =>
               if isspace2 c1 c2 then lstrip r2
               else match r2 with
                    | String c3 r3 => if isspace3 c1 c2 c3 then lstrip r3 else s
                    | EmptyString => s
                    end
           | EmptyString => s
           end
  | EmptyString => EmptyString
  end.

(** The same on a reversed string, where the bytes of a character come last
    byte first. *)
Fixpoint lstrip_rev (s : string) : string :=
  match s with
  | String c1 r1 =>
      if isspace c1 then lstrip_rev r1
      else match r1 with
           | String c2 r2 =>
               if isspace2 c2 c1 then lstrip_rev r2
               else match r2 with
                    | String c3 r3 => if isspace3 c3 c2 c1 then lstrip_rev r3 else s
                    | EmptyString => s
                    end
           | EmptyString => s
           end
  | EmptyString => EmptyString
  end.

(** [s.strip()] without arguments. *)
Definition strip (s : string) : string :=
  String.rev (lstrip_rev (String.rev (lstrip s))).

Fixpoint split_go (sep : ascii) (cur : string) (s : string) : list string :=
  match s with
  | EmptyString => [String.rev cur]
  | String c s' =>
      if Ascii.eqb c sep
      then String.rev cur :: split_go sep EmptyString s'
      else split_go sep (String c cur) s'
  end.

(** [s.split(sep)] for a one-character separator: the empty string gives
    one empty field, adjacent separators give empty fields. *)
Definition split (sep : ascii) (s : string) : list string :=
  split_go sep EmptyString s.

(** [sub in s]. *)
Fixpoint contains (sub s : string) : bool :=
  String.prefix sub s ||
  match s with
  | String _ s' => contains sub s'
  | EmptyString => false
  end.

(** Worker of [replace]: [skip] characters of a match that has just been
    replaced are still to be dropped; [count] is the number of
    replacements left ([None]: unbounded). *)
Fixpoint replace_go (old new : string) (count : option nat) (skip : nat)
    (s : string) : string :=
  match s with
  | EmptyString => EmptyString
  | String c s' =>
      match skip with
      | S k => replace_go old new count k s'
      | O =>
          match count with
          | Some O => s
          | _ =>
              if String.prefix old s
              then new +:+ replace_go old new (Nat.pred <$> count)
                             (Nat.pred (String.length old)) s'
              else String c (replace_go old new count O s')
          end
      end
  end.

(** [s.replace(old, new)] and [s.replace(old, new, count)], for a
    non-empty [old] (the only use in the managers). *)
Definition replace (old new : string) (count : option nat) (s : string) : string :=
  replace_go old new count O s.

(** [", ".join(l)] and friends. *)
Fixpoint join (sep : string) (l : list string) : string :=
  match l with
  | [] => ""
  | [x] => x
  | x :: l' => x +:+ sep +:+ join sep l'
  end.

(** [s.lstrip(chars)] for a one-character [chars]. *)
Fixpoint lstrip_char (ch : ascii) (s : string) : string :=
  match s with
  | String c s' => if Ascii.eqb c ch then lstrip_char ch s' else s
  | EmptyString => EmptyString
  end.

(** [s[n:]]. *)
Fixpoint drop (n : nat) (s : string) : string :=
  match n, s with
  | S n', String _ s' => drop n' s'
  | _, _ => s
  end.

(** [c in s] for a character [c]. *)
Fixpoint has_char (c : ascii) (s : string) : bool :=
  match s with
  | String x s' => Ascii.eqb x c || has_char c s'
  | EmptyString => false
  end.

(** Some character of [s] is white space. *)
Fixpoint has_space (s : string) : bool :=
  match s with
  | String _ s' => bool_decide (is_Some (space_at s)) || has_space s'
  | EmptyString => false
  end.

Definition flush (cur : option string) : list string :=
  match cur with
  | Some w => [String.rev w]
  | None => []
  end.

Fixpoint split_ws_go (cur : option string) (s : string) : list string :=
  match s with
  | EmptyString => flush cur
  | String c1 r1 =>
      if isspace c1 then flush cur ++ split_ws_go None r1
      else match r1 with
           | String c2 r2 =>
               if isspace2 c1 c2 then flush cur ++ split_ws_go None r2
               else match r2 with
                    | String c3 r3 =>
                        if isspace3 c1 c2 c3 then flush cur ++ split_ws_go None r3
                        else split_ws_go (Some (String c1 (default EmptyString cur))) r1
                    | EmptyString =>
                        split_ws_go (Some (String c1 (default EmptyString cur))) r1
                    end
           | EmptyString => split_ws_go (Some (String c1 (default EmptyString cur))) r1
           end
  end.

(** [s.split()] without arguments: the maximal runs of characters that are
    not white space. *)
Definition split_ws (s : string) : list string := split_ws_go None s.

End Py.

(** ** Exceptions, commands and the host *)

(** The exception classes the managers raise or catch.  [ErrorReturnCode] is
    [sh.ErrorReturnCode]: a wrapped process ended with an exit code outside
    its accepted codes (signals give negative codes).  [UnicodeDecodeError]
    is what [bytes.decode()] raises on output that is not valid UTF-8, and
    [AttributeError] what reading a missing attribute raises; no handler of
    the managers catches these two but [except Exception]. *)
Inductive exn : Type :=
| ErrorReturnCode (exit_code : Z) (full_cmd : list string)
| RuntimeError (msg : string)
| FileExistsError (msg : string)
| ValueError (msg : string)
| OSError (msg : string)
| UnicodeDecodeError
| AttributeError (msg : string).

Inductive Res (A : Type) : Type :=
| Ok (a : A)
| Raise (e : exn).
Arguments Ok {A} a.
Arguments Raise {A} e.

Definition is_ok {A} (r : Res A) : bool :=
  match r with Ok _ => true | Raise _ => false end.

(** A Python [dict] of environment variables. *)
Abbreviation dict := (gmap string string).

(** A process as [sh] launches it: the argument vector, the environment
    ([None]: inherited from the Python process, otherwise the [_env] dict as
    it is at launch time) and the working directory ([_cwd]). *)
Record Command : Type := mkCommand {
  argv : list string;
  cmd_env : option dict;
  cmd_cwd : option string
}.

#[global] Instance Command_eq_dec : EqDecision Command.
Proof. solve_decision. Defined.

#[global] Instance exn_eq_dec : EqDecision exn.
Proof. solve_decision. Defined.

Inductive level : Type := INFO | WARNING | ERROR | CRITICAL.

#[global] Instance level_eq_dec : EqDecision level.
Proof. solve_decision. Defined.

(** What a run leaves behind: processes that ran to completion with their
    exit code, entries into methods of the managers (ghost events, no
    counterpart in the Python code), log records, and file deletions with
    their success.  Of the [logging] calls only the report of a snapshot left
    behind and the two counts of the key export summary are kept; the others
    format a message and change neither the control flow nor the host. *)
Inductive event : Type :=
| EvExec (c : Command) (code : Z)
| EvCall (method : string) (args : list string)
| EvLog (lvl : level) (msg : string)
| EvUnlink (path : string) (ok : bool).

#[global] Instance event_eq_dec : EqDecision event.
Proof. solve_decision. Defined.

(** The host: everything outside the Python process.  [exec] runs a process
    to completion and gives its output lines and exit code; the other fields
    are the clock ([datetime.now().strftime("%Y-%m-%d_%H-%M-%S")]), [pathlib]
    and the file-system calls of [export_recovery_key] ([mkdir] and [unlink]
    give the message of the [OSError] they raise, if any), the directory scan
    of [DockerComposeManager._find_compose_files] (the sorted list of compose
    files, each with its parent directory) and [os.environ].
    [stdout_decodes c w] and [stderr_decodes c w] say of the output that
    [sh] captured from the process [c] that has just ended, leaving the host in
    [w] (the [e.stdout] and [e.stderr] of its [ErrorReturnCode]), that it is
    empty or valid UTF-8, which is when the handlers that log it get past
    [.decode()]. *)
Class Host (W : Type) : Type := {
  exec : Command → W → (list string * Z) * W;
  stdout_decodes : Command → W → bool;
  stderr_decodes : Command → W → bool;
  strftime_now : W → string;
  path_join : string → string → string;
  path_parent : string → string;
  path_exists : string → W → bool;
  mkdir_parents : string → W → option string * W;
  unlink : string → W → option string * W;
  find_compose_files : W → list (string * string);
  os_environ : W → dict
}.

(** The state of a run: the host, the heap of Python dicts (the only mutable
    objects that are shared between the methods modelled here) and the trace,
    most recent event first. *)
Record State (W : Type) : Type := mkState {
  world : W;
  heap : gmap nat dict;
  trace : list event
}.
Arguments mkState {W} _ _ _.
Arguments world {W} _.
Arguments heap {W} _.
Arguments trace {W} _.

Definition M (W A : Type) : Type := State W → Res A * State W.

Section Monad.
Context {W : Type}.

Definition ret {A} (a : A) : M W A := fun s => (Ok a, s).

Definition raise {A} (e : exn) : M W A := fun s => (Raise e, s).

Definition bind {A B} (m : M W A) (k : A → M W B) : M W B :=
  fun s =>
    match m s with
    | (Ok a, s') => k a s'
    | (Raise e, s') => (Raise e, s')
    end.

(** [try: body / except <matching>: handler]; [handler e] is [None] when no
    [except] clause matches [e]. *)
Definition try_except {A} (body : M W A) (handler : exn → option (M W A)) : M W A :=
  fun s =>
    match body s with
    | (Ok a, s') => (Ok a, s')
    | (Raise e, s') =>
        match handler e with
        | Some h => h s'
        | None => (Raise e, s')
        end
    end.

(** [try: body / finally: fin]: [fin] always runs; an exception of [fin]
    replaces the outcome of [body]. *)
Definition try_finally {A} (body : M W A) (fin : M W unit) : M W A :=
  fun s =>
    match body s with
    | (r, s1) =>
        match fin s1 with
        | (Ok _, s2) => (r, s2)
        | (Raise e, s2) => (Raise e, s2)
        end
    end.

Definition emit (ev : event) : M W unit :=
  fun s => (Ok tt, mkState (world s) (heap s) (ev :: trace s)).

Definition log (lvl : level) (msg : string) : M W unit := emit (EvLog lvl msg).

Definition call_marker (method : string) (args : list string) : M W unit :=
  emit (EvCall method args).

End Monad.

Notation "x <~ m ;; k" := (bind m (fun x => k))
  (at level 100, m at next level, right associativity).
Notation "m ;;; k" := (bind m (fun _ => k))
  (at level 100, right associativity).

Section Sh.
Context {W : Type} `{Host W}.

(** Calling a baked [sh] command: the process runs to completion; an exit
    code outside [ok_code] raises [sh.ErrorReturnCode]. *)
Definition sh_run (c : Command) (ok_code : list Z) : M W (list string) :=
  fun s =>
    match exec c (world s) with
    | (out, code, w') =>
        let s' := mkState w' (heap s) (EvExec c code :: trace s) in
        if bool_decide (code ∈ ok_code)
        then (Ok out, s')
        else (Raise (ErrorReturnCode code (argv c)), s')
    end.

(** [if e.stdout: ... e.stdout.decode() ...] and the same for [e.stderr], in
    the handler of the failure of [c]: nothing happens when the captured
    output is empty or decodes, [UnicodeDecodeError] is raised otherwise.  A
    process run with [_fg=True] has no captured output, so that its handlers
    skip the decoding. *)
Definition decode_stdout (c : Command) : M W unit :=
  fun s => if stdout_decodes c (world s) then (Ok tt, s)
           else (Raise UnicodeDecodeError, s).

Definition decode_stderr (c : Command) : M W unit :=
  fun s => if stderr_decodes c (world s) then (Ok tt, s)
           else (Raise UnicodeDecodeError, s).

(** ** Heap of dicts *)

Definition fresh_loc (h : gmap nat dict) : nat := fresh (dom h).

(** [d.copy()]: a new dict object with the same items. *)
Definition dict_copy (l : nat) : M W nat :=
  fun s =>
    let d := default ∅ (heap s !! l) in
    let l' := fresh_loc (heap s) in
    (Ok l', mkState (world s) (<[l' := d]> (heap s)) (trace s)).

(** [d[k] = v]. *)
Definition dict_set (l : nat) (k v : string) : M W unit :=
  fun s =>
    let d := default ∅ (heap s !! l) in
    (Ok tt, mkState (world s) (<[l := <[k := v]> d]> (heap s)) (trace s)).

(** [d.get(k, dflt)]. *)
Definition dict_get (l : nat) (k dflt : string) : M W string :=
  fun s => (Ok (default dflt (default ∅ (heap s !! l) !! k)), s).

(** The items of the dict object at [l], read when a process is launched
    with [_env] bound to that object. *)
Definition deref (l : nat) : M W dict :=
  fun s => (Ok (default ∅ (heap s !! l)), s).

End Sh.

(** ** zfs_manager.py *)

Record ZFSDataset : Type := mkZFSDataset {
  name : string;
  mount_point : string
}.

#[global] Instance ZFSDataset_eq_dec : EqDecision ZFSDataset.
Proof. solve_decision. Defined.

Record ZFSSnapshot : Type := mkZFSSnapshot {
  snapshot_name : string;
  used : string;
  creation_date : string
}.

Module ZFSManager.

Record t : Type := mk { parent_dataset : string }.

Section Methods.
Context {W : Type} `{Host W}.

Definition __init__ (parent : string) : M W t :=
  if String.eqb parent ""
  then raise (ValueError "parent_dataset cannot be empty.")
  else ret (mk parent).

(** [self.zfs = sh.sudo.bake("zfs")], applied to arguments. *)
Definition zfs (args : list string) : Command :=
  mkCommand ("sudo" :: "zfs" :: args) None None.

(** [_execute_command]: runs the command; a failure is logged, with the
    captured output decoded, and re-raised. *)
Definition _execute_command (args : list string) : M W (list string) :=
  try_except (sh_run (zfs args) [0])
    (fun e => match e with
              | ErrorReturnCode _ _ =>
                  Some (decode_stdout (zfs args) ;;;
                        decode_stderr (zfs args) ;;;
                        raise e)
              | _ => None
              end).

Definition target_dataset (self : t) (dataset_name : option string) : string :=
  if Py.truthy dataset_name
  then parent_dataset self +:+ "/" +:+ default "" dataset_name
  else parent_dataset self.

Definition dataset_exists (self : t) (dataset_name : option string) : M W bool :=
  let target_dataset := target_dataset self dataset_name in
  try_except
    (sh_run (zfs ["list"; "-H"; "-t"; "filesystem"; target_dataset]) [0] ;;;
     ret true)
    (fun e => match e with
              | ErrorReturnCode exit_code _ =>
                  Some (if bool_decide (exit_code = 1)
                        then ret false
                        else decode_stderr
                               (zfs ["list"; "-H"; "-t"; "filesystem"; target_dataset]) ;;;
                             raise e)
              | _ => None
              end).

Definition _snapshot_exists (full_snapshot_name : string) : M W bool :=
  try_except
    (sh_run (zfs ["list"; "-H"; "-t"; "snapshot"; full_snapshot_name]) [0] ;;;
     ret true)
    (fun e => match e with
              | ErrorReturnCode exit_code _ =>
                  Some (if bool_decide (exit_code = 1)
                        then ret false
                        else decode_stderr
                               (zfs ["list"; "-H"; "-t"; "snapshot"; full_snapshot_name]) ;;;
                             raise e)
              | _ => None
              end).

Definition create_dataset (self : t) (dataset_name : string)
    (create_parents : bool) : M W unit :=
  let full_dataset_name := parent_dataset self +:+ "/" +:+ dataset_name in
  present <~ dataset_exists self (Some dataset_name) ;;
  if present then ret tt
  else
    _execute_command
      (["create"] ++ (if create_parents then ["-p"] else []) ++ [full_dataset_name]) ;;;
    present' <~ dataset_exists self (Some dataset_name) ;;
    if negb present'
    then raise (RuntimeError ("Verification failed! Dataset '" +:+ full_dataset_name
                              +:+ "' was not found after creation."))
    else ret tt.

(** [datetime.datetime.now().strftime("%Y-%m-%d_%H-%M-%S")]. *)
Definition now : M W string :=
  fun s => (Ok (strftime_now (world s)), s).

Definition full_snapshot_name (self : t) (tag : string)
    (dataset_name : option string) : string :=
  target_dataset self dataset_name +:+ "@" +:+ tag.

Definition already_exists_msg (full : string) : string :=
  "Snapshot '" +:+ full +:+ "' already exists.".

Definition not_found_after_creation_msg (full : string) : string :=
  "Verification failed! Snapshot '" +:+ full +:+ "' was not found after creation.".

Definition still_exists_msg (full : string) : string :=
  "Verification failed! Snapshot '" +:+ full +:+ "' still exists after destruction.".

Definition create_snapshot (self : t) (tag : option string)
    (dataset_name : option string) (recursive : bool) : M W string :=
  tag <~ (if negb (Py.truthy tag)
          then timestamp <~ now ;; ret ("auto-" +:+ timestamp)
          else ret (default "" tag)) ;;
  let full_snapshot_name := full_snapshot_name self tag dataset_name in
  present <~ _snapshot_exists full_snapshot_name ;;
  if present
  then raise (FileExistsError (already_exists_msg full_snapshot_name))
  else
    _execute_command
      (["snapshot"] ++ (if recursive then ["-r"] else []) ++ [full_snapshot_name]) ;;;
    present' <~ _snapshot_exists full_snapshot_name ;;
    if negb present'
    then raise (RuntimeError (not_found_after_creation_msg full_snapshot_name))
    else ret full_snapshot_name.

Definition destroy_snapshot (self : t) (tag : string)
    (dataset_name : option string) (recursive : bool) : M W unit :=
  let full_snapshot_name := full_snapshot_name self tag dataset_name in
  present <~ _snapshot_exists full_snapshot_name ;;
  if negb present then ret tt
  else
    _execute_command
      (["destroy"] ++ (if recursive then ["-r"] else []) ++ [full_snapshot_name]) ;;;
    present' <~ _snapshot_exists full_snapshot_name ;;
    if present'
    then raise (RuntimeError (still_exists_msg full_snapshot_name))
    else ret tt.

(** One line of [zfs list -o name,mountpoint -H]: [None] when the line is
    skipped (not exactly two tab-separated fields, or mount point ["-"]). *)
Definition parse_dataset_line (line : string) : option ZFSDataset :=
  match Py.split "009" (Py.strip line) with
  | [name; mount_point] =>
      if String.eqb mount_point "-" then None
      else Some (mkZFSDataset name mount_point)
  | _ => None
  end.

(** [get_datasets], as its callers in the backup pipeline use it: the
    generator is consumed to the end by [list(...)], so a failure of the
    listing process (reported by [sh] when the output ends) loses the
    datasets read so far. *)
Definition get_datasets (self : t) : M W (list ZFSDataset) :=
  let command := zfs ["list"; "-r"; "-t"; "filesystem"; "-o";
                      "name,mountpoint"; "-H"; parent_dataset self] in
  try_except
    (lines <~ sh_run command [0] ;;
     ret (omap parse_dataset_line lines))
    (fun e => match e with
              | ErrorReturnCode _ _ => Some (decode_stderr command ;;; raise e)
              | _ => None
              end).

(** One line of [zfs list -t snapshot -o name,used,creation -H]: the first
    two white-space separated fields and the rest joined by single spaces;
    [None] when the line has fewer than two fields and is skipped. *)
Definition parse_snapshot_line (line : string) : option ZFSSnapshot :=
  match Py.split_ws (Py.strip line) with
  | name :: used :: creation_parts =>
      Some (mkZFSSnapshot name used (Py.join " " creation_parts))
  | _ => None
  end.

(** [list_snapshots], consumed to the end by the loops that print it. *)
Definition list_snapshots (self : t) (dataset_name : option string)
    : M W (list ZFSSnapshot) :=
  let target := target_dataset self dataset_name in
  let command := zfs ["list"; "-t"; "snapshot"; "-r"; "-o";
                      "name,used,creation"; "-s"; "creation"; "-H"; target] in
  try_except
    (lines <~ sh_run command [0] ;;
     ret (omap parse_snapshot_line lines))
    (fun e => match e with
              | ErrorReturnCode _ _ => Some (decode_stderr command ;;; raise e)
              | _ => None
              end).

End Methods.
End ZFSManager.

(** [for x in l: body(x)]: stops at the first exception. *)
Fixpoint for_each {W A : Type} (l : list A) (body : A → M W unit) : M W unit :=
  match l with
  | [] => ret tt
  | x :: l' => body x ;;; for_each l' body
  end.

(** ** docker_manager.py *)

Module DockerComposeManager.
Section Methods.
Context {W : Type} `{Host W}.

(** The directory scan is a query of the host. *)
Definition _find_compose_files : M W (list (string * string)) :=
  fun s => (Ok (find_compose_files (world s)), s).

(** [self.sudo_compose.bake("-f", str(compose_file), command, *args,
    _cwd=project_dir)]. *)
Definition compose (compose_file project_dir command : string)
    (args : list string) : Command :=
  mkCommand (["sudo"; "docker"; "compose"; "-f"; compose_file; command] ++ args)
            None (Some project_dir).

Definition _run_command_on_all (command : string) (args : list string)
    (ok_codes : list Z) : M W unit :=
  compose_files <~ _find_compose_files ;;
  match compose_files with
  | [] => ret tt
  | _ =>
      for_each compose_files
        (fun '(compose_file, project_dir) =>
           try_except
             (sh_run (compose compose_file project_dir command args) ok_codes ;;;
              ret tt)
             (fun e => match e with
                       | ErrorReturnCode _ _ => Some (raise e)
                       | _ => None
                       end))
  end.

Definition up_all : M W unit :=
  call_marker "up_all" [] ;;;
  _run_command_on_all "up" ["-d"; "--build"] [0].

Definition stop_all : M W unit :=
  call_marker "stop_all" [] ;;;
  _run_command_on_all "stop" [] [0].

Definition down_all : M W unit :=
  call_marker "down_all" [] ;;;
  _run_command_on_all "down" [] [0].

(** [start] and [restart] accept exit code 1 (nothing to start). *)
Definition start_all : M W unit :=
  call_marker "start_all" [] ;;;
  _run_command_on_all "start" [] [0; 1].

Definition pull_all : M W unit :=
  call_marker "pull_all" [] ;;;
  _run_command_on_all "pull" [] [0].

Definition restart_all : M W unit :=
  call_marker "restart_all" [] ;;;
  _run_command_on_all "restart" [] [0; 1].

End Methods.
End DockerComposeManager.

(** ** borg_backup_manager.py *)

Module BorgBackupRepoManager.

(** [borg_env] is a reference to the dict object owned by the manager. *)
Record t : Type := mk {
  repo_path : string;
  borg_env : nat
}.

Section Methods.
Context {W : Type} `{Host W}.

Definition missing_config_msg (missing_vars : list string) : string :=
  "BorgBackupRepoManager is missing required environment configuration: "
  +:+ Py.join ", " missing_vars.

Definition __init__ (repo_path : string) (base_env : nat) : M W t :=
  base <~ deref base_env ;;
  let required_vars := ["BORG_PASSPHRASE"; "BORG_RSH"] in
  let missing_vars :=
    List.filter (fun var => negb (Py.truthy (base !! var))) required_vars in
  match missing_vars with
  | _ :: _ => raise (ValueError (missing_config_msg missing_vars))
  | [] =>
      borg_env <~ dict_copy base_env ;;
      dict_set borg_env "BORG_REPO" repo_path ;;;
      ret (mk repo_path borg_env)
  end.

(** [sh.sudo.bake("-E").borg.bake(_env=env)] applied to arguments, [env]
    being the items of the baked dict when the process starts. *)
Definition borg_with (env : dict) (args : list string) : Command :=
  mkCommand ("sudo" :: "-E" :: "borg" :: args) (Some env) None.

(** Calling [self.borg(...)]: baked with the manager's own dict. *)
Definition borg (self : t) (args : list string) : M W (list string) :=
  env <~ deref (borg_env self) ;;
  sh_run (borg_with env args) [0].

(** [_execute_command] called without [_fg]: the output of the process is captured; a
    failure is logged, with that output decoded, and re-raised. *)
Definition _execute_command (self : t) (args : list string) : M W (list string) :=
  env <~ deref (borg_env self) ;;
  try_except (sh_run (borg_with env args) [0])
    (fun e => match e with
              | ErrorReturnCode _ _ =>
                  Some (decode_stdout (borg_with env args) ;;;
                        decode_stderr (borg_with env args) ;;;
                        raise e)
              | _ => None
              end).

(** [_execute_command] called with [_fg=True]: the process runs in the foreground
    and nothing is captured, so that the handler has nothing to decode. *)
Definition _execute_command_fg (self : t) (args : list string) : M W (list string) :=
  try_except (borg self args)
    (fun e => match e with
              | ErrorReturnCode _ _ => Some (raise e)
              | _ => None
              end).

Definition _repository_exists (self : t) : M W bool :=
  try_except
    (borg self ["info"] ;;; ret true)
    (fun e => match e with
              | ErrorReturnCode exit_code _ =>
                  Some (if bool_decide (exit_code = 2)
                        then ret false
                        else raise e)
              | _ => None
              end).

Definition _initialize_repository (self : t) : M W unit :=
  _execute_command self ["init"; "--encryption=repokey-blake2"] ;;; ret tt.

Definition init_failed_msg (self : t) : string :=
  "FATAL: Repository initialization failed for " +:+ repo_path self +:+ ". "
  +:+ "The repository was not found after the 'init' command.".

Definition initialize_if_needed (self : t) : M W unit :=
  present <~ try_except (_repository_exists self)
               (fun e => match e with
                         | ErrorReturnCode _ _ => Some (raise e)
                         | _ => None
                         end) ;;
  if present then ret tt
  else
    _initialize_repository self ;;;
    present' <~ _repository_exists self ;;
    if negb present'
    then raise (RuntimeError (init_failed_msg self))
    else ret tt.

Definition fs_exists (path : string) : M W bool :=
  fun s => (Ok (path_exists path (world s)), s).

(** [Path.mkdir(parents=True, exist_ok=True)]. *)
Definition fs_mkdir (path : string) : M W unit :=
  fun s =>
    match mkdir_parents path (world s) with
    | (None, w') => (Ok tt, mkState w' (heap s) (trace s))
    | (Some msg, w') => (Raise (OSError msg), mkState w' (heap s) (trace s))
    end.

(** [Path.unlink()]. *)
Definition fs_unlink (path : string) : M W unit :=
  fun s =>
    match unlink path (world s) with
    | (None, w') => (Ok tt, mkState w' (heap s) (EvUnlink path true :: trace s))
    | (Some msg, w') =>
        (Raise (OSError msg), mkState w' (heap s) (EvUnlink path false :: trace s))
    end.

(** [try: key_file_path.unlink() / except OSError: <log>]. *)
Definition unlink_logged (path : string) : M W unit :=
  try_except (fs_unlink path)
    (fun e => match e with
              | OSError _ | FileExistsError _ => Some (ret tt)
              | _ => None
              end).

Definition export_recovery_key (self : t) (key_file_path : string) : M W unit :=
  fs_mkdir (path_parent key_file_path) ;;;
  try_except
    (_execute_command self
       ["key"; "export"; "--paper"; repo_path self; key_file_path] ;;; ret tt)
    (fun e => match e with
              | ErrorReturnCode _ _ =>
                  Some (present <~ fs_exists key_file_path ;;
                        (if present then unlink_logged key_file_path else ret tt) ;;;
                        raise e)
              | _ => None
              end) ;;;
  verify_env <~ dict_copy (borg_env self) ;;
  dict_set verify_env "BORG_KEY_FILE" key_file_path ;;;
  env <~ deref verify_env ;;
  try_except
    (sh_run (borg_with env ["list"]) [0] ;;; ret tt)
    (fun e => match e with
              | ErrorReturnCode _ _ =>
                  Some (decode_stderr (borg_with env ["list"]) ;;;
                        unlink_logged key_file_path ;;;
                        raise e)
              | _ => None
              end).

Definition create_archive (self : t) (archive_name source_path compression
    excludes_file : string) : M W unit :=
  _execute_command_fg self
    ["create"; "--verbose"; "--stats"; "--progress";
     "--compression=" +:+ compression;
     "--exclude-from=" +:+ excludes_file;
     "::" +:+ archive_name;
     source_path] ;;; ret tt.

Definition prune_archives (self : t) (prune_policy : list string) : M W unit :=
  _execute_command_fg self
    (["prune"; "--verbose"; "--list"; "--show-rc"; "--progress"] ++ prune_policy) ;;;
  ret tt.

Definition check_repository (self : t) (verify_data : bool) : M W unit :=
  let args := ["check"; "--verbose"; "--progress"]
              ++ (if verify_data then ["--verify-data"] else []) in
  local_env <~ dict_copy (borg_env self) ;;
  original_rsh <~ dict_get local_env "BORG_RSH" "" ;;
  (if Py.contains "ssh " original_rsh
   then dict_set local_env "BORG_RSH"
          (Py.replace "ssh " "ssh -o ServerAliveInterval=60 " (Some 1%nat) original_rsh)
   else ret tt) ;;;
  try_except
    (env <~ deref local_env ;;
     sh_run (borg_with env args) [0] ;;; ret tt)
    (fun e => match e with
              | ErrorReturnCode _ _ => Some (raise e)
              | _ => None
              end).

Definition _clean_remote_path (path : string) : string :=
  if String.prefix "/./" path then Py.drop 3 path
  else if String.prefix "/~/" path then Py.drop 3 path
  else if String.prefix "~/" path then Py.drop 2 path
  else Py.lstrip_char "/" path.

(** [display_repository_info]: a failure of [borg info] is logged and ends
    the method; a failure of [borg list] is logged. *)
Definition display_repository_info (self : t) : M W unit :=
  info_ok <~ try_except
               (_execute_command_fg self ["info"] ;;; ret true)
               (fun e => match e with
                         | ErrorReturnCode _ _ => Some (ret false)
                         | _ => None
                         end) ;;
  if info_ok : bool
  then try_except
         (_execute_command_fg self ["list"] ;;; ret tt)
         (fun e => match e with
                   | ErrorReturnCode _ _ => Some (ret tt)
                   | _ => None
                   end)
  else ret tt.

(** [delete_archive]; [fg] says whether the keyword
    arguments have [_fg=True]. *)
Definition delete_archive (self : t) (args : list string) (fg : bool)
    : M W (list string) :=
  if fg then _execute_command_fg self ("delete" :: args)
  else _execute_command self ("delete" :: args).

End Methods.
End BorgBackupRepoManager.

(** ** backup_manager.py *)

Module Config.

Record t : Type := mk {
  repo_base_path : string;
  passphrase : string;
  rsh : string;
  archive_prefix : string;
  prune_policy : list string;
  zfs_parent_dataset : string;
  compression : string;
  excludes_file : string;
  base_borg_env : nat
}.

Section Methods.
Context {W : Type} `{Host W}.

(** The dataclass constructor with its [__post_init__]: the base environment
    is a new dict, a copy of [os.environ] updated with the two Borg
    variables. *)
Definition make (repo_base_path passphrase rsh archive_prefix : string)
    (prune_policy : list string)
    (zfs_parent_dataset compression excludes_file : string) : M W t :=
  fun s =>
    let d := <["BORG_RSH" := rsh]>
               (<["BORG_PASSPHRASE" := passphrase]> (os_environ (world s))) in
    let l := fresh_loc (heap s) in
    (Ok (mk repo_base_path passphrase rsh archive_prefix prune_policy
            zfs_parent_dataset compression excludes_file l),
     mkState (world s) (<[l := d]> (heap s)) (trace s)).

End Methods.
End Config.

Module BackupOrchestrator.

Record t : Type := mk {
  config : Config.t;
  zfs_manager : ZFSManager.t;
  snapshot_tag : string
}.

Section Methods.
Context {W : Type} `{Host W}.

Definition _generate_snapshot_tag : M W string :=
  timestamp <~ ZFSManager.now ;;
  ret ("auto-backup_" +:+ timestamp).

(** The constructor; [DockerComposeManager()] has no state of its own here
    (its services directory is part of the host). *)
Definition __init__ (config : Config.t) : M W t :=
  zfs_manager <~ ZFSManager.__init__ (Config.zfs_parent_dataset config) ;;
  snapshot_tag <~ _generate_snapshot_tag ;;
  ret (mk config zfs_manager snapshot_tag).

Definition _get_repo_path (self : t) (dataset : ZFSDataset) : string :=
  let sanitized_name := Py.replace "/" "_" None (name dataset) in
  Config.repo_base_path (config self) +:+ "/" +:+ sanitized_name.

(** [Path(dataset.mount_point) / ".zfs" / "snapshot" / self.snapshot_tag]. *)
Definition _get_snapshot_path (self : t) (dataset : ZFSDataset) : string :=
  path_join (path_join (path_join (mount_point dataset) ".zfs") "snapshot")
            (snapshot_tag self).

Definition _build_archive_name (archive_prefix snapshot_tag : string) : M W string :=
  timestamp <~ ZFSManager.now ;;
  ret (archive_prefix +:+ "_" +:+ snapshot_tag +:+ "_" +:+ timestamp).

Definition _backup_single_snapshot (self : t) (repo_path archive_name
    snapshot_data_path : string) : M W unit :=
  borg_manager <~ BorgBackupRepoManager.__init__ repo_path
                    (Config.base_borg_env (config self)) ;;
  BorgBackupRepoManager.initialize_if_needed borg_manager ;;;
  BorgBackupRepoManager.create_archive borg_manager archive_name
    snapshot_data_path (Config.compression (config self))
    (Config.excludes_file (config self)) ;;;
  BorgBackupRepoManager.prune_archives borg_manager
    (Config.prune_policy (config self)).

Definition _backup_single_dataset (self : t) (dataset : ZFSDataset) : M W unit :=
  call_marker "_backup_single_dataset" [name dataset] ;;;
  let repo_path := _get_repo_path self dataset in
  let snapshot_data_path := _get_snapshot_path self dataset in
  archive_name <~ _build_archive_name (Config.archive_prefix (config self))
                    (snapshot_tag self) ;;
  try_except
    (_backup_single_snapshot self repo_path archive_name snapshot_data_path)
    (fun e => Some (raise e)).

Definition _check_single_repository (self : t) (repo_path : string) : M W unit :=
  call_marker "_check_single_repository" [repo_path] ;;;
  borg_manager <~ BorgBackupRepoManager.__init__ repo_path
                    (Config.base_borg_env (config self)) ;;
  BorgBackupRepoManager.check_repository borg_manager false.

Definition no_datasets_msg (self : t) : string :=
  "Found 0 mounted datasets to back up under '"
  +:+ Config.zfs_parent_dataset (config self) +:+ "'.".

(** The two loops of [_orchestrate_dataset_backups]. *)
Definition archive_loop (self : t) (datasets : list ZFSDataset) : M W unit :=
  for_each datasets (_backup_single_dataset self).

Definition check_loop (self : t) (datasets : list ZFSDataset) : M W unit :=
  for_each datasets
    (fun dataset => _check_single_repository self (_get_repo_path self dataset)).

Definition _orchestrate_dataset_backups (self : t) : M W unit :=
  datasets <~ ZFSManager.get_datasets (zfs_manager self) ;;
  match datasets with
  | [] => raise (RuntimeError (no_datasets_msg self))
  | _ =>
      archive_loop self datasets ;;;
      check_loop self datasets
  end.

Definition snapshot_left_msg (self : t) : string :=
  "The temporary snapshot '" +:+ snapshot_tag self +:+ "' has been LEFT "
  +:+ "for manual inspection due to the failure.".

(** The [try] block of [backup_all], with the local variable
    [snapshot_created] as it is when the block is left. *)
Definition backup_all_try (self : t) : State W → (Res unit * bool) * State W :=
  fun s0 =>
    let snapshot_created := false in
    match DockerComposeManager.stop_all s0 with
    | (Raise e, s1) => (Raise e, snapshot_created, s1)
    | (Ok _, s1) =>
        (* try: create_snapshot; snapshot_created = True / finally: up_all *)
        let '(r, snapshot_created, s2) :=
          match ZFSManager.create_snapshot (zfs_manager self)
                  (Some (snapshot_tag self)) None true s1 with
          | (Ok _, s2) => (Ok tt, true, s2)
          | (Raise e, s2) => (Raise e, snapshot_created, s2)
          end in
        match DockerComposeManager.up_all s2 with
        | (Raise e, s3) => (Raise e, snapshot_created, s3)
        | (Ok _, s3) =>
            match r with
            | Raise e => (Raise e, snapshot_created, s3)
            | Ok _ =>
                match _orchestrate_dataset_backups self s3 with
                | (Raise e, s4) => (Raise e, snapshot_created, s4)
                | (Ok _, s4) =>
                    match ZFSManager.destroy_snapshot (zfs_manager self)
                            (snapshot_tag self) None true s4 with
                    | (Raise e, s5) => (Raise e, snapshot_created, s5)
                    | (Ok _, s5) => (Ok tt, false, s5)
                    end
                end
            end
        end
    end.

(** [backup_all]: the [try] block, then the [except Exception] handler, which
    reports a snapshot left behind and re-raises. *)
Definition backup_all (self : t) : M W unit :=
  fun s0 =>
    match backup_all_try self s0 with
    | (Ok _, _, s') => (Ok tt, s')
    | (Raise e, snapshot_created, s') =>
        ((if snapshot_created : bool
          then log ERROR (snapshot_left_msg self)
          else ret tt) ;;;
         raise e) s'
    end.

End Methods.
End BackupOrchestrator.

(** ** system_manager.py *)

Module SystemManager.
Section Methods.
Context {W : Type} `{Host W}.

Definition maintenance_steps : list string :=
  ["update"; "upgrade"; "autoremove"; "autoclean"].

(** [self.sudo.bake("apt-get", command)], with [-y] for the two commands that
    would ask. *)
Definition apt_command (command : string) : Command :=
  mkCommand (["sudo"; "apt-get"; command]
             ++ (if bool_decide (command ∈ ["upgrade"; "autoremove"])
                 then ["-y"] else []))
            None None.

(** With [foreground] the commands run with [_fg=True].  Without it the
    output is captured: a finished command called that way is a [str] (since
    version 2 of [sh]), so that reading [result.stdout] after a command that
    succeeded raises [AttributeError], and the handler of a command that failed
    decodes its captured error output. *)
Definition perform_maintenance (foreground : bool) : M W unit :=
  try_except
    (for_each maintenance_steps
       (fun command =>
          sh_run (apt_command command) [0] ;;;
          if foreground then ret tt
          else raise (AttributeError "'str' object has no attribute 'stdout'")))
    (fun e => match e with
              | ErrorReturnCode _ full_cmd =>
                  Some ((if foreground then ret tt
                         else decode_stderr (mkCommand full_cmd None None)) ;;;
                        raise e)
              | _ => None
              end).

End Methods.
End SystemManager.

(** ** storage_manager.py (the existence checks) *)

Module StorageManager.
Section Methods.
Context {W : Type} `{Host W}.

Definition getent (database key : string) : Command :=
  mkCommand ["getent"; database; key] None None.

Definition _user_exists (username : string) : M W bool :=
  try_except
    (sh_run (getent "passwd" username) [0; 2] ;;; ret true)
    (fun e => match e with
              | ErrorReturnCode _ _ => Some (ret false)
              | _ => None
              end).

Definition _group_exists (groupname : string) : M W bool :=
  try_except
    (sh_run (getent "group" groupname) [0; 2] ;;; ret true)
    (fun e => match e with
              | ErrorReturnCode _ _ => Some (ret false)
              | _ => None
              end).

End Methods.
End StorageManager.

(** ** orchestrator.py *)

Module MasterOrchestrator.

(** The attributes of the orchestrator's [Config] that the methods below
    read; [base_borg_env] refers to the dict built by [_setup_derived_vars]. *)
Record Config : Type := mkConfig {
  zfs_parent_dataset : string;
  borg_repo_base_path : string;
  borg_keys_dir : string;
  admin_user : string;
  base_borg_env : nat
}.

Record t : Type := mk {
  config : Config;
  zfs : ZFSManager.t
}.

Section Methods.
Context {W : Type} `{Host W}.

Definition system_maintenance (self : t) : M W unit :=
  DockerComposeManager.down_all ;;;
  SystemManager.perform_maintenance true ;;;
  DockerComposeManager.up_all.

Definition snapshot_all (self : t) (snapshot_name : option string) : M W unit :=
  DockerComposeManager.down_all ;;;
  ZFSManager.create_snapshot (zfs self) snapshot_name None true ;;;
  ret tt.

Definition snapshot_one (self : t) (service_name : string)
    (snapshot_name : option string) : M W unit :=
  DockerComposeManager.down_all ;;;
  ZFSManager.create_snapshot (zfs self) snapshot_name (Some service_name) false ;;;
  ret tt.

Definition create_service_dataset (self : t) (service_name : string) : M W unit :=
  DockerComposeManager.down_all ;;;
  ZFSManager.create_dataset (zfs self) service_name true.

Definition snapshot_destroy_all (self : t) (snapshot_name : string) : M W unit :=
  DockerComposeManager.down_all ;;;
  ZFSManager.destroy_snapshot (zfs self) snapshot_name None true.

Definition repo_path_of (self : t) (dataset_name : string) : string :=
  let sanitized_name := Py.replace "/" "_" None dataset_name in
  borg_repo_base_path (config self) +:+ "/" +:+ sanitized_name.

Definition _get_borg_manager_for_service (self : t) (service_name : string)
    : M W BorgBackupRepoManager.t :=
  let dataset_name := zfs_parent_dataset (config self) +:+ "/" +:+ service_name in
  BorgBackupRepoManager.__init__ (repo_path_of self dataset_name)
    (base_borg_env (config self)).

Definition _get_borg_manager_for_dataset (self : t) (dataset_name : string)
    : M W BorgBackupRepoManager.t :=
  BorgBackupRepoManager.__init__ (repo_path_of self dataset_name)
    (base_borg_env (config self)).

Definition check_repo (self : t) (service_name : string) (verify : bool) : M W unit :=
  borg <~ _get_borg_manager_for_service self service_name ;;
  BorgBackupRepoManager.check_repository borg verify.

Definition delete_archive (self : t) (service_name archive_name : string) : M W unit :=
  borg <~ _get_borg_manager_for_service self service_name ;;
  BorgBackupRepoManager.delete_archive borg
    ["::" +:+ archive_name; "--verbose"; "--progress"; "--stats"] true ;;;
  ret tt.

Definition owner (self : t) : string :=
  admin_user (config self) +:+ ":" +:+ admin_user (config self).

Definition sudo (args : list string) : Command :=
  mkCommand ("sudo" :: args) None None.

(** The key file of a dataset: [keys_dir / f"{repo_id}.key"]. *)
Definition key_export_path (self : t) (dataset : ZFSDataset) : string :=
  path_join (borg_keys_dir (config self))
            (Py.replace "/" "_" None (name dataset) +:+ ".key").

(** The body of the loop of [export_all_keys] for one dataset: [true] when
    the key was exported, verified and handed to the admin user, [false]
    when any of that raised ([except Exception]). *)
Definition export_one_key (self : t) (dataset : ZFSDataset) : M W bool :=
  try_except
    (repo_manager <~ _get_borg_manager_for_dataset self (name dataset) ;;
     BorgBackupRepoManager.export_recovery_key repo_manager
       (key_export_path self dataset) ;;;
     sh_run (sudo ["chown"; owner self; key_export_path self dataset]) [0] ;;;
     sh_run (sudo ["chmod"; "600"; key_export_path self dataset]) [0] ;;;
     ret true)
    (fun _ => Some (ret false)).

(** The loop, with its two counters. *)
Fixpoint export_keys_loop (self : t) (datasets : list ZFSDataset)
    (success_count fail_count : nat) : M W (nat * nat) :=
  match datasets with
  | [] => ret (success_count, fail_count)
  | dataset :: datasets' =>
      exported <~ export_one_key self dataset ;;
      if exported : bool
      then export_keys_loop self datasets' (S success_count) fail_count
      else export_keys_loop self datasets' success_count (S fail_count)
  end.

(** [export_all_keys]; the result is what the summary reports: [None] when
    the method returned before the loop, otherwise the two counters. *)
Definition export_all_keys (self : t) : M W (option (nat * nat)) :=
  prepared <~ try_except
                (sh_run (sudo ["mkdir"; "-p"; borg_keys_dir (config self)]) [0] ;;;
                 sh_run (sudo ["chown"; owner self; borg_keys_dir (config self)]) [0] ;;;
                 ret true)
                (fun _ => Some (ret false)) ;;
  if negb prepared then ret None
  else
    datasets <~ ZFSManager.get_datasets (zfs self) ;;
    match datasets with
    | [] => ret None
    | _ =>
        counts <~ export_keys_loop self datasets 0 0 ;;
        log INFO ("  Successfully exported: " +:+ pretty counts.1) ;;;
        log INFO ("  Failed to export:      " +:+ pretty counts.2) ;;;
        ret (Some counts)
    end.

End Methods.
End MasterOrchestrator.

(** The body of [main] in [backup_manager.py], from the values that
    [Config.from_env] read and validated: build the configuration and the
    orchestrator, run the backup. *)
Definition main {W : Type} `{Host W}
    (repo_base_path passphrase rsh archive_prefix : string)
    (prune_policy : list string)
    (zfs_parent_dataset compression excludes_file : string) : M W unit :=
  config <~ Config.make repo_base_path passphrase rsh archive_prefix prune_policy
              zfs_parent_dataset compression excludes_file ;;
  orchestrator <~ BackupOrchestrator.__init__ config ;;
  BackupOrchestrator.backup_all orchestrator.

(** ** Reading traces *)

Definition count (p : event → bool) (t : list event) : nat :=
  length (List.filter p t).

(** A process whose argument vector starts with [pre]. *)
Fixpoint starts_with (pre l : list string) : bool :=
  match pre, l with
  | [], _ => true
  | x :: pre', y :: l' => String.eqb x y && starts_with pre' l'
  | _ :: _, [] => false
  end.

Definition is_exec (pre : list string) (ev : event) : bool :=
  match ev with
  | EvExec c _ => starts_with pre (argv c)
  | _ => false
  end.

Definition is_call (method : string) (ev : event) : bool :=
  match ev with
  | EvCall m _ => String.eqb m method
  | _ => false
  end.

Definition is_failed_unlink (ev : event) : bool :=
  match ev with
  | EvUnlink _ false => true
  | _ => false
  end.

(** The events the properties count. *)
Definition is_restart : event → bool := is_call "up_all".
Definition is_zfs_destroy : event → bool := is_exec ["sudo"; "zfs"; "destroy"].
Definition is_borg_init : event → bool := is_exec ["sudo"; "-E"; "borg"; "init"].
Definition is_archive_attempt : event → bool := is_call "_backup_single_dataset".
Definition is_check_attempt : event → bool := is_call "_check_single_repository".

(** A compose process that brings a service group up
    ([sudo docker compose -f <file> up ...]). *)
Definition is_compose_up (ev : event) : bool :=
  match ev with
  | EvExec c _ =>
      match argv c with
      | _ :: tool :: rest =>
          String.eqb tool "docker" &&
          match rest with
          | _ :: _ :: _ :: command :: _ => String.eqb command "up"
          | _ => false
          end
      | _ => false
      end
  | _ => false
  end.

(** A computation that adds no event satisfying [p] to the trace. *)
Definition quiet {W A : Type} (p : event → bool) (m : M W A) : Prop :=
  ∀ s, count p (trace (m s).2) = count p (trace s).

Definition is_down : event → bool := is_call "down_all".
Definition is_borg_prune : event → bool := is_exec ["sudo"; "-E"; "borg"; "prune"].
Definition is_borg : event → bool := is_exec ["sudo"; "-E"; "borg"].
(** A computation that leaves every dict that exists as it is (it may
    create new ones). *)
Definition keeps_heap {W A : Type} (m : M W A) : Prop :=
  ∀ s, heap s ⊆ heap (m s).2.

(** The outcome of an existence probe as the specification words it: found on
    a zero exit, not found on the distinguished code, a failure otherwise. *)
Definition probe_outcome (not_found : Z) (code : Z) (cmd : Command) : Res bool :=
  if bool_decide (code = 0) then Ok true
  else if bool_decide (code = not_found) then Ok false
  else Raise (ErrorReturnCode code (argv cmd)).

(** The outcome of an existence probe of the storage tool as the code
    computes it: the same, except that the failure of a query whose captured
    error output does not decode is replaced by the [UnicodeDecodeError] of
    the call that logs it. *)
Definition storage_probe_outcome (decodes : bool) (code : Z) (cmd : Command)
    : Res bool :=
  if bool_decide (code = 0) then Ok true
  else if bool_decide (code = 1) then Ok false
  else if decodes then Raise (ErrorReturnCode code (argv cmd))
  else Raise UnicodeDecodeError.

(** The outcome of a process run through [_execute_command] as the code
    computes it: the output on a zero exit, the failure otherwise, replaced by
    the [UnicodeDecodeError] of the calls that log the captured output when
    that does not decode. *)
Definition command_outcome (out : list string) (decodes : bool) (code : Z)
    (cmd : Command) : Res (list string) :=
  if bool_decide (code = 0) then Ok out
  else if decodes then Raise (ErrorReturnCode code (argv cmd))
  else Raise UnicodeDecodeError.

(** ** A simulated host

    [Sim] is a host on which the tools behave as documented: the storage tool
    keeps a set of snapshots, the archive tool a map from repository paths to
    their archives, files have contents.  It gives the concrete runs used as
    examples; [Faulty] wraps any host with a plan of injected process
    failures. *)

Module Sim.

Record world : Type := mk {
  datasets : list (string * string);
  snapshots : gset string;
  repos : gmap string (list string);
  files : gmap string string;
  locked : gset string;
  services : list (string * string);
  environ : dict;
  retain : list string → list string → list string;
  ticks : nat;
  stamp : nat → string
}.

Definition tick (w : world) : world :=
  mk (datasets w) (snapshots w) (repos w) (files w) (locked w) (services w)
     (environ w) (retain w) (S (ticks w)) (stamp w).

Definition set_snapshots (f : gset string → gset string) (w : world) : world :=
  mk (datasets w) (f (snapshots w)) (repos w) (files w) (locked w) (services w)
     (environ w) (retain w) (ticks w) (stamp w).

Definition set_repos (f : gmap string (list string) → gmap string (list string))
    (w : world) : world :=
  mk (datasets w) (snapshots w) (f (repos w)) (files w) (locked w) (services w)
     (environ w) (retain w) (ticks w) (stamp w).

Definition set_files (f : gmap string string → gmap string string)
    (w : world) : world :=
  mk (datasets w) (snapshots w) (repos w) (f (files w)) (locked w) (services w)
     (environ w) (retain w) (ticks w) (stamp w).

(** The world [w] with its snapshots, repositories and clock replaced. *)
Definition with_state (w : world) (S : gset string)
    (R : gmap string (list string)) (n : nat) : world :=
  mk (datasets w) S R (files w) (locked w) (services w) (environ w) (retain w)
     n (stamp w).

(** [d] is [parent] or lies below it. *)
Definition below (parent d : string) : bool :=
  String.eqb d parent || String.prefix (parent +:+ "/") d.

(** The snapshot identities a recursive operation on [target@tag] covers. *)
Definition recursive_names (w : world) (full : string) : list string :=
  match Py.split "@" full with
  | [target; tag] =>
      (λ d, d.1 +:+ "@" +:+ tag) <$> List.filter (λ d, below target d.1) (datasets w)
  | _ => []
  end.

Definition snapshot_names (w : world) (recursive : bool) (full : string) : gset string :=
  {[ full ]} ∪ (if recursive then list_to_set (recursive_names w full) else ∅).

(** The storage tool. *)
Definition zfs (args : list string) (w : world) : (list string * Z) * world :=
  match args with
  | verb :: rest =>
      if String.eqb verb "list" then
        match rest with
        | [_; _; kind; n] =>
            if String.eqb kind "snapshot"
            then (([], if bool_decide (n ∈ snapshots w) then 0 else 1), w)
            else (([], if bool_decide (n ∈ (datasets w).*1) then 0 else 1), w)
        | [_; _; _; _; _; _; parent] =>
            if bool_decide (parent ∈ (datasets w).*1)
            then (((λ d, d.1 +:+ String "009" (d.2 +:+ String "010" ""))
                     <$> List.filter (λ d, below parent d.1) (datasets w), 0), w)
            else (([], 1), w)
        | _ => (([], 2), w)
        end
      else if String.eqb verb "snapshot" then
        match rest with
        | [n] =>
            if bool_decide (n ∈ snapshots w) then (([], 1), w)
            else (([], 0), set_snapshots (λ S, snapshot_names w false n ∪ S) w)
        | [_; n] =>
            if bool_decide (n ∈ snapshots w) then (([], 1), w)
            else (([], 0), set_snapshots (λ S, snapshot_names w true n ∪ S) w)
        | _ => (([], 2), w)
        end
      else if String.eqb verb "destroy" then
        match rest with
        | [n] =>
            if bool_decide (n ∈ snapshots w)
            then (([], 0), set_snapshots (λ S, S ∖ snapshot_names w false n) w)
            else (([], 1), w)
        | [_; n] =>
            if bool_decide (n ∈ snapshots w)
            then (([], 0), set_snapshots (λ S, S ∖ snapshot_names w true n) w)
            else (([], 1), w)
        | _ => (([], 2), w)
        end
      else (([], 2), w)
  | [] => (([], 2), w)
  end.

(** The content of the key file of a repository. *)
Definition key_of (repo : string) : string := "BORG PAPER KEY " +:+ repo.

(** The archive tool; the repository is the one named by [BORG_REPO]. *)
Definition borg (env : dict) (args : list string) (w : world)
    : (list string * Z) * world :=
  match env !! "BORG_REPO" with
  | None => (([], 2), w)
  | Some repo =>
      match args with
      | verb :: rest =>
          match repos w !! repo with
          | None =>
              if String.eqb verb "init"
              then (([], 0), set_repos (λ R, <[repo := []]> R) w)
              else (([], 2), w)
          | Some archives =>
              if String.eqb verb "info" then (([], 0), w)
              else if String.eqb verb "check" then (([], 0), w)
              else if String.eqb verb "prune" then
                (([], 0),
                 set_repos (λ R, <[repo := retain w (drop 4 rest) archives]> R) w)
              else if String.eqb verb "create" then
                match rest with
                | [_; _; _; _; _; String ":" (String ":" archive); _] =>
                    if bool_decide (archive ∈ archives) then (([], 2), w)
                    else (([], 0),
                          set_repos (λ R, <[repo := archives ++ [archive]]> R) w)
                | _ => (([], 2), w)
                end
              else if String.eqb verb "list" then
                match env !! "BORG_KEY_FILE" with
                | None => ((archives, 0), w)
                | Some path =>
                    if bool_decide (files w !! path = Some (key_of repo))
                    then ((archives, 0), w)
                    else (([], 2), w)
                end
              else if String.eqb verb "key" then
                match rest with
                | [_; _; _; path] =>
                    (([], 0), set_files (λ F, <[path := key_of repo]> F) w)
                | _ => (([], 2), w)
                end
              else (([], 2), w)
          end
      | [] => (([], 2), w)
      end
  end.

Definition run (c : Command) (w : world) : (list string * Z) * world :=
  match argv c with
  | sudo :: tool :: args =>
      if String.eqb tool "zfs" then zfs args w
      else if String.eqb tool "docker" then (([], 0), w)
      else
        match args with
        | borg_name :: args' => borg (default ∅ (cmd_env c)) args' w
        | [] => (([], 2), w)
        end
  | _ => (([], 2), w)
  end.

(** Every process takes one tick of the clock. *)
Definition sim_exec (c : Command) (w : world) : (list string * Z) * world :=
  let '(r, w') := run c w in (r, tick w').

Fixpoint dirname_go (s : string) : option string :=
  match s with
  | EmptyString => None
  | String c s' =>
      match dirname_go s' with
      | Some d => Some (String c d)
      | None => if Ascii.eqb c "/" then Some EmptyString else None
      end
  end.

(** The part of a path before its last separator. *)
Definition dirname (s : string) : string := default "." (dirname_go s).

(** [Path(a) / b] for a relative [b] and a path [a] that has no empty or
    dot component but possibly trailing separators, which [Path] drops: the
    joined path of the root directory and [b] is ["/" + b]. *)
Definition join (a b : string) : string :=
  String.rev (Py.lstrip_char "/" (String.rev a)) +:+ "/" +:+ b.

Definition sim_unlink (path : string) (w : world) : option string * world :=
  if bool_decide (path ∈ locked w) then (Some "[Errno 13] Permission denied", w)
  else
    match files w !! path with
    | Some _ => (None, set_files (λ F, delete path F) w)
    | None => (Some "[Errno 2] No such file or directory", w)
    end.

#[global] Instance host : Host world := {|
  exec := sim_exec;
  stdout_decodes := λ _ _, true;
  stderr_decodes := λ _ _, true;
  strftime_now := λ w, stamp w (ticks w);
  path_join := join;
  path_parent := dirname;
  path_exists := λ p w, bool_decide (is_Some (files w !! p));
  mkdir_parents := λ _ w, (None, w);
  unlink := sim_unlink;
  find_compose_files := services;
  os_environ := environ
|}.

End Sim.

Module Faulty.

(** A host with a plan of injected failures: the n-th process started takes
    the n-th entry of the plan; [Some code] makes it end at once with that
    exit code and without effect, [None] lets it run. *)
Record world (W : Type) : Type := mk {
  plan : list (option Z);
  inner : W
}.
Arguments mk {W} _ _.
Arguments plan {W} _.
Arguments inner {W} _.

Section Wrap.
Context {W : Type} `{Host W}.

Definition faulty_exec (c : Command) (w : world W) : (list string * Z) * world W :=
  match plan w with
  | Some code :: rest => (([], code), mk rest (inner w))
  | None :: rest =>
      let '(r, w') := exec c (inner w) in (r, mk rest w')
  | [] =>
      let '(r, w') := exec c (inner w) in (r, mk [] w')
  end.

#[global] Instance host : Host (world W) := {|
  exec := faulty_exec;
  stdout_decodes := λ c w, stdout_decodes c (inner w);
  stderr_decodes := λ c w, stderr_decodes c (inner w);
  strftime_now := λ w, strftime_now (inner w);
  path_join := path_join;
  path_parent := path_parent;
  path_exists := λ p w, path_exists p (inner w);
  mkdir_parents := λ p w,
    let '(r, w') := mkdir_parents p (inner w) in (r, mk (plan w) w');
  unlink := λ p w,
    let '(r, w') := unlink p (inner w) in (r, mk (plan w) w');
  find_compose_files := λ w, find_compose_files (inner w);
  os_environ := λ w, os_environ (inner w)
|}.

End Wrap.
End Faulty.

Module Garbled.

(** A host whose tools write bytes that are not valid UTF-8 to their
    outputs: it behaves as the host it wraps, but no captured output
    decodes. *)
Record world (W : Type) : Type := mk { inner : W }.
Arguments mk {W} _.
Arguments inner {W} _.

Section Wrap.
Context {W : Type} `{Host W}.

#[global] Instance host : Host (world W) := {|
  exec := λ c w, let '(r, w') := exec c (inner w) in (r, mk w');
  stdout_decodes := λ _ _, false;
  stderr_decodes := λ _ _, false;
  strftime_now := λ w, strftime_now (inner w);
  path_join := path_join;
  path_parent := path_parent;
  path_exists := λ p w, path_exists p (inner w);
  mkdir_parents := λ p w,
    let '(r, w') := mkdir_parents p (inner w) in (r, mk w');
  unlink := λ p w,
    let '(r, w') := unlink p (inner w) in (r, mk w');
  find_compose_files := λ w, find_compose_files (inner w);
  os_environ := λ w, os_environ (inner w)
|}.

End Wrap.
End Garbled.

(** The state after process [c] ran in [s] and ended with [code], leaving
    the host in [w']. *)
Definition after {W : Type} (s : State W) (c : Command) (code : Z) (w' : W) : State W :=
  mkState w' (heap s) (EvExec c code :: trace s).

(** The three existence queries. *)
Definition dataset_query (self : ZFSManager.t) (dataset_name : option string) : Command :=
  ZFSManager.zfs ["list"; "-H"; "-t"; "filesystem";
                  ZFSManager.target_dataset self dataset_name].

Definition snapshot_query (full_snapshot_name : string) : Command :=
  ZFSManager.zfs ["list"; "-H"; "-t"; "snapshot"; full_snapshot_name].

Definition repository_query (env : dict) : Command :=
  BorgBackupRepoManager.borg_with env ["info"].

Definition snapshot_command (recursive : bool) (full : string) : Command :=
  ZFSManager.zfs (["snapshot"] ++ (if recursive then ["-r"] else []) ++ [full]).

Definition destroy_command (recursive : bool) (full : string) : Command :=
  ZFSManager.zfs (["destroy"] ++ (if recursive then ["-r"] else []) ++ [full]).

Definition init_command (env : dict) : Command :=
  BorgBackupRepoManager.borg_with env ["init"; "--encryption=repokey-blake2"].

(** The dict a manager's [borg_env] refers to. *)
Definition env_of {W : Type} (self : BorgBackupRepoManager.t) (s : State W) : dict :=
  default ∅ (heap s !! BorgBackupRepoManager.borg_env self).

(** The storage tool keeps its contract with respect to a notion [present] of
    snapshot existence: the query answers by it without changing it, and
    creating an absent (destroying a present) snapshot succeeds and makes it
    present (absent). *)
Record StorageToolOk {W : Type} `{Host W} (present : string → W → bool) : Prop := {
  snapshot_query_ok : ∀ n w, ∃ out w',
    exec (snapshot_query n) w = (out, if present n w then 0 else 1, w')
    ∧ ∀ m, present m w' = present m w;
  snapshot_command_ok : ∀ r n w, present n w = false → ∃ out w',
    exec (snapshot_command r n) w = (out, 0, w') ∧ present n w' = true;
  destroy_command_ok : ∀ r n w, present n w = true → ∃ out w',
    exec (destroy_command r n) w = (out, 0, w') ∧ present n w' = false
}.

(** The same for the archive tool and the repository that the environment
    of a process names in [BORG_REPO]. *)
Record ArchiveToolOk {W : Type} `{Host W} (present : dict → W → bool) : Prop := {
  repository_query_ok : ∀ env w, is_Some (env !! "BORG_REPO") → ∃ out w',
    exec (repository_query env) w = (out, if present env w then 0 else 2, w')
    ∧ ∀ e, present e w' = present e w;
  init_command_ok : ∀ env w, is_Some (env !! "BORG_REPO") →
    present env w = false → ∃ out w',
    exec (init_command env) w = (out, 0, w') ∧ present env w' = true
}.

(** The arguments of the integrity check. *)
Definition check_args (verify_data : bool) : list string :=
  ["check"; "--verbose"; "--progress"] ++ (if verify_data then ["--verify-data"] else []).

(** The environment of the check process: the manager's, with the keep-alive
    option put after the first ["ssh "] of [BORG_RSH], if there is one. *)
Definition check_env (d : dict) : dict :=
  let original_rsh := default "" (d !! "BORG_RSH") in
  if Py.contains "ssh " original_rsh
  then <["BORG_RSH" := Py.replace "ssh " "ssh -o ServerAliveInterval=60 "
                          (Some 1%nat) original_rsh]> d
  else d.

Definition is_borg_delete : event → bool := is_exec ["sudo"; "-E"; "borg"; "delete"].

(** The state in which [backup_all] ends after a failure with the snapshot
    created: the report about the snapshot left behind is the last event. *)
Definition reported {W : Type} (self : BackupOrchestrator.t) (s : State W) : State W :=
  mkState (world s) (heap s)
          (EvLog ERROR (BackupOrchestrator.snapshot_left_msg self) :: trace s).

(** The ways a run of [backup_all] from [s0] can go, with its outcome and the
    state it ends in: the stop step fails; the snapshot step fails (the restart
    step runs, and its own failure, if any, takes precedence); the restart step
    fails after the snapshot was created; the dataset backups fail; the destroy
    step fails; everything succeeds. *)
Inductive pipeline_run {W : Type} `{Host W} (self : BackupOrchestrator.t)
    (s0 : State W) : Res unit → State W → Prop :=
| run_stop_failed e s1 :
    DockerComposeManager.stop_all s0 = (Raise e, s1) →
    pipeline_run self s0 (Raise e) s1
| run_snapshot_failed s1 e s2 r s3 :
    DockerComposeManager.stop_all s0 = (Ok tt, s1) →
    ZFSManager.create_snapshot (BackupOrchestrator.zfs_manager self)
      (Some (BackupOrchestrator.snapshot_tag self)) None true s1 = (Raise e, s2) →
    DockerComposeManager.up_all s2 = (r, s3) →
    pipeline_run self s0
      (Raise (match r with Ok _ => e | Raise e' => e' end)) s3
| run_restart_failed s1 n s2 e s3 :
    DockerComposeManager.stop_all s0 = (Ok tt, s1) →
    ZFSManager.create_snapshot (BackupOrchestrator.zfs_manager self)
      (Some (BackupOrchestrator.snapshot_tag self)) None true s1 = (Ok n, s2) →
    DockerComposeManager.up_all s2 = (Raise e, s3) →
    pipeline_run self s0 (Raise e) (reported self s3)
| run_backups_failed s1 n s2 s3 e s4 :
    DockerComposeManager.stop_all s0 = (Ok tt, s1) →
    ZFSManager.create_snapshot (BackupOrchestrator.zfs_manager self)
      (Some (BackupOrchestrator.snapshot_tag self)) None true s1 = (Ok n, s2) →
    DockerComposeManager.up_all s2 = (Ok tt, s3) →
    BackupOrchestrator._orchestrate_dataset_backups self s3 = (Raise e, s4) →
    pipeline_run self s0 (Raise e) (reported self s4)
| run_destroy_failed s1 n s2 s3 s4 e s5 :
    DockerComposeManager.stop_all s0 = (Ok tt, s1) →
    ZFSManager.create_snapshot (BackupOrchestrator.zfs_manager self)
      (Some (BackupOrchestrator.snapshot_tag self)) None true s1 = (Ok n, s2) →
    DockerComposeManager.up_all s2 = (Ok tt, s3) →
    BackupOrchestrator._orchestrate_dataset_backups self s3 = (Ok tt, s4) →
    ZFSManager.destroy_snapshot (BackupOrchestrator.zfs_manager self)
      (BackupOrchestrator.snapshot_tag self) None true s4 = (Raise e, s5) →
    pipeline_run self s0 (Raise e) (reported self s5)
| run_succeeded s1 n s2 s3 s4 s5 :
    DockerComposeManager.stop_all s0 = (Ok tt, s1) →
    ZFSManager.create_snapshot (BackupOrchestrator.zfs_manager self)
      (Some (BackupOrchestrator.snapshot_tag self)) None true s1 = (Ok n, s2) →
    DockerComposeManager.up_all s2 = (Ok tt, s3) →
    BackupOrchestrator._orchestrate_dataset_backups self s3 = (Ok tt, s4) →
    ZFSManager.destroy_snapshot (BackupOrchestrator.zfs_manager self)
      (BackupOrchestrator.snapshot_tag self) None true s4 = (Ok tt, s5) →
    pipeline_run self s0 (Ok tt) s5.

(** The two processes of [export_recovery_key]: the export itself, and the
    listing that verifies the exported key, started with the manager's
    environment plus [BORG_KEY_FILE]. *)
Definition export_command (env : dict) (repo_path key_file_path : string) : Command :=
  BorgBackupRepoManager.borg_with env
    ["key"; "export"; "--paper"; repo_path; key_file_path].

Definition verify_command (env : dict) (key_file_path : string) : Command :=
  BorgBackupRepoManager.borg_with (<["BORG_KEY_FILE" := key_file_path]> env) ["list"].

(** Existence of snapshots and repositories on the simulated host. *)
Definition sim_snapshot_present (n : string) (w : Sim.world) : bool :=
  bool_decide (n ∈ Sim.snapshots w).

Definition sim_repo_present (env : dict) (w : Sim.world) : bool :=
  match env !! "BORG_REPO" with
  | Some repo => bool_decide (is_Some (Sim.repos w !! repo))
  | None => false
  end.

(** ** Concrete runs

    A pool [pool/svcs] with three mounted datasets and no repository yet, one
    Docker service, and the objects of a backup run as [Config.make] and
    [BackupOrchestrator.__init__] build them at clock tick 0. *)

Module Example.

Definition stamp (n : nat) : string :=
  "2025-01-01_00-00-"
  +:+ String (ascii_of_nat (48 + n / 10)) (String (ascii_of_nat (48 + n mod 10)) "").

Definition pool : Sim.world :=
  Sim.mk [("pool/svcs", "-"); ("pool/svcs/a", "/pool/svcs/a");
          ("pool/svcs/b", "/pool/svcs/b"); ("pool/svcs/c", "/pool/svcs/c")]
         ∅ ∅ ∅ {[ "/keys/pool_svcs_a.key" ]}
         [("/srv/web/docker-compose.yml", "/srv/web")]
         {[ "PATH" := "/usr/bin" ]} (λ _ archives, archives) 0 stamp.

Definition base_env : dict :=
  <["BORG_RSH" := "ssh -i /root/.ssh/id_ed25519"]>
    (<["BORG_PASSPHRASE" := "secret"]> (Sim.environ pool)).

Definition config : Config.t :=
  Config.mk "/backups" "secret" "ssh -i /root/.ssh/id_ed25519" "homelab"
            ["--keep-daily=7"] "pool/svcs" "zstd,10" "/etc/borg/excludes" 0.

Definition orchestrator : BackupOrchestrator.t :=
  BackupOrchestrator.mk config (ZFSManager.mk "pool/svcs")
                        "auto-backup_2025-01-01_00-00-00".

Definition tag : string := BackupOrchestrator.snapshot_tag orchestrator.

Definition snapshot : string := "pool/svcs@auto-backup_2025-01-01_00-00-00".

(** The state a run starts from, on the plain simulated host and with a plan
    of injected failures. *)
Definition start : State Sim.world := mkState pool {[ 0%nat := base_env ]} [].

Definition start_with (plan : list (option Z)) : State (Faulty.world Sim.world) :=
  mkState (Faulty.mk plan pool) {[ 0%nat := base_env ]} [].

(** The same start on a host whose tools write bytes that are not valid
    UTF-8 to their outputs. *)
Definition garbled_with (plan : list (option Z))
    : State (Garbled.world (Faulty.world Sim.world)) :=
  mkState (Garbled.mk (Faulty.mk plan pool)) {[ 0%nat := base_env ]} [].

Definition a : ZFSDataset := mkZFSDataset "pool/svcs/a" "/pool/svcs/a".
Definition b : ZFSDataset := mkZFSDataset "pool/svcs/b" "/pool/svcs/b".
Definition c : ZFSDataset := mkZFSDataset "pool/svcs/c" "/pool/svcs/c".

(** A manager for the repository of dataset [a], with its own dict at
    location 1, and the file its recovery key is exported to. *)
Definition manager : BorgBackupRepoManager.t :=
  BorgBackupRepoManager.mk "/backups/pool_svcs_a" 1.

Definition manager_env : dict := <["BORG_REPO" := "/backups/pool_svcs_a"]> base_env.

Definition key_file : string := "/keys/pool_svcs_a.key".

(** The state after [initialize_if_needed] created the repository of [a],
    with the rest of the plan of failures still to come. *)
Definition initialized (plan : list (option Z)) : State (Faulty.world Sim.world) :=
  mkState (Faulty.mk plan (Sim.set_repos (λ R, <["/backups/pool_svcs_a" := []]> R) pool))
          {[ 0%nat := base_env; 1%nat := manager_env ]} [].

(** The failures injected below: the snapshot command fails; archiving the
    second dataset fails at [borg create]; the query that verifies the
    destruction of the snapshot is killed; the listing that verifies the
    exported key fails. *)
Definition snapshot_fails : list (option Z) := [None; None; Some 1].
Definition second_archive_fails : list (option Z) := replicate 14 None ++ [Some 2].
Definition last_query_killed : list (option Z) := replicate 26 None ++ [Some (-9)].
Definition verification_fails : list (option Z) := [None; Some 2].

(** The state of a run when the datasets have just been listed. *)
Definition listed (plan : list (option Z)) : State (Faulty.world Sim.world) :=
  ((DockerComposeManager.stop_all ;;;
    ZFSManager.create_snapshot (ZFSManager.mk "pool/svcs") (Some tag) None true ;;;
    DockerComposeManager.up_all ;;;
    ZFSManager.get_datasets (ZFSManager.mk "pool/svcs")) (start_with plan)).2.

(** The pool with the two datasets [a] and [b] only, and the same pool with
    the parent dataset mounted as well. *)
Definition two_volume_pool : Sim.world :=
  Sim.mk [("pool/svcs", "-"); ("pool/svcs/a", "/pool/svcs/a");
          ("pool/svcs/b", "/pool/svcs/b")]
         ∅ ∅ ∅ ∅ [("/srv/web/docker-compose.yml", "/srv/web")]
         {[ "PATH" := "/usr/bin" ]} (λ _ archives, archives) 0 stamp.

Definition mounted_parent_pool : Sim.world :=
  Sim.mk [("pool/svcs", "/pool/svcs"); ("pool/svcs/a", "/pool/svcs/a");
          ("pool/svcs/b", "/pool/svcs/b")]
         ∅ ∅ ∅ ∅ [("/srv/web/docker-compose.yml", "/srv/web")]
         {[ "PATH" := "/usr/bin" ]} (λ _ archives, archives) 0 stamp.

(** The backup program with the configuration of the examples. *)
Definition program : M Sim.world unit :=
  main "/backups" "secret" "ssh -i /root/.ssh/id_ed25519" "homelab"
       ["--keep-daily=7"] "pool/svcs" "zstd,10" "/etc/borg/excludes".

(** A key file in a directory from which files can be deleted. *)
Definition other_key_file : string := "/tmp/pool_svcs_a.key".

End Example.

(** The simulated host of [s] is [w] with snapshots [S] and repositories
    [R], at some time. *)
Definition sim_at (w : Sim.world) (S : gset string)
    (R : gmap string (list string)) (s : State Sim.world) : Prop :=
  ∃ n, world s = Sim.with_state w S R n.

(** ** Vocabulary of the further properties *)

(** The rest of a reversed text after the white-space character it starts
    with, the bytes of a character coming last byte first. *)
Definition space_at_rev (s : string) : option string :=
  match s with
  | String c1 r1 =>
      if Py.isspace c1 then Some r1
      else match r1 with
           | String c2 r2 =>
               if Py.isspace2 c2 c1 then Some r2
               else match r2 with
                    | String c3 r3 => if Py.isspace3 c3 c2 c1 then Some r3 else None
                    | EmptyString => None
                    end
           | EmptyString => None
           end
  | EmptyString => None
  end.

(** No white-space character starts within the first part [p] of the text
    [p +:+ s]. *)
Fixpoint spaceless (p s : string) : bool :=
  match p with
  | EmptyString => true
  | String _ p' =>
      negb (bool_decide (is_Some (Py.space_at (p +:+ s)))) && spaceless p' s
  end.

(** A field of [split()]: a non-empty run without white space. *)
Definition field (f : string) : Prop := f ≠ "" ∧ Py.has_space f = false.

(** A computation that leaves the dicts of [h0] as they are, whatever else
    the heap holds. *)
Definition frames {W A : Type} (h0 : gmap nat dict) (m : M W A) : Prop :=
  ∀ s, h0 ⊆ heap s → h0 ⊆ heap (m s).2.

(** The events that the processes [cs], run in this order and ending with
    the exit codes [codes], leave in a trace (most recent first). *)
Definition exec_events (cs : list Command) (codes : list Z) : list event :=
  rev (zip_with EvExec cs codes).

(** The compose processes of [_run_command_on_all] for the compose files
    [files], in the order of the loop. *)
Definition compose_commands (command : string) (args : list string)
    (files : list (string * string)) : list Command :=
  (λ fd, DockerComposeManager.compose fd.1 fd.2 command args) <$> files.

(** An operation of the orchestrator that takes the services down before
    anything else and does not bring them up again. *)
Definition leaves_services_down {W : Type} `{Host W} (op : M W unit) : Prop :=
  ∀ s,
    count is_down (trace (op s).2) = S (count is_down (trace s))
    ∧ count is_restart (trace (op s).2) = count is_restart (trace s)
    ∧ (∀ e s1, DockerComposeManager.down_all s = (Raise e, s1) → op s = (Raise e, s1)).

(** The command of [create_dataset]. *)
Definition create_command (create_parents : bool) (full_dataset_name : string) : Command :=
  ZFSManager.zfs (["create"] ++ (if create_parents then ["-p"] else [])
                  ++ [full_dataset_name]).

Definition dataset_not_found_msg (full_dataset_name : string) : string :=
  "Verification failed! Dataset '" +:+ full_dataset_name
  +:+ "' was not found after creation.".

(** A [borg create] process that ended with exit code 0. *)
Definition is_created (ev : event) : bool :=
  match ev with
  | EvExec c code =>
      starts_with ["sudo"; "-E"; "borg"; "create"] (argv c) && bool_decide (code = 0)
  | _ => false
  end.

(** A computation that runs as many prune commands as it sees create
    commands succeed. *)
Definition prunes_what_it_created {W A : Type} (m : M W A) : Prop :=
  ∀ s, (count is_borg_prune (trace (m s).2) + count is_created (trace s)
        = count is_borg_prune (trace s) + count is_created (trace (m s).2))%nat.

(** A [chmod 600] process that ended with exit code 0: the last step of the
    export of one key. *)
Definition is_key_secured (ev : event) : bool :=
  match ev with
  | EvExec c code =>
      starts_with ["sudo"; "chmod"; "600"] (argv c) && bool_decide (code = 0)
  | _ => false
  end.

(** A [borg] process whose environment does not give [BORG_PASSPHRASE] the
    value [pass]. *)
Definition lacks_passphrase (pass : string) (ev : event) : bool :=
  match ev with
  | EvExec c _ =>
      starts_with ["sudo"; "-E"; "borg"] (argv c)
      && negb (bool_decide (default ∅ (cmd_env c) !! "BORG_PASSPHRASE" = Some pass))
  | _ => false
  end.

(** A computation that, run on a heap that extends [h], leaves the dicts of
    [h] as they are and adds no event satisfying [p] to the trace. *)
Definition safe {W A : Type} (h : gmap nat dict) (p : event → bool) (m : M W A) : Prop :=
  ∀ s, h ⊆ heap s →
       h ⊆ heap (m s).2 ∧ count p (trace (m s).2) = count p (trace s).

(** Further concrete objects: the orchestrator of [orchestrator.py] for
    the pool of the examples, and a pool none of whose datasets is mounted. *)
Module Scenario.

Definition master : MasterOrchestrator.t :=
  MasterOrchestrator.mk
    (MasterOrchestrator.mkConfig "pool/svcs" "/backups" "/keys" "admin" 0)
    (ZFSManager.mk "pool/svcs").

Definition unmounted_pool : Sim.world :=
  Sim.mk [("pool/svcs", "-"); ("pool/svcs/a", "-")]
         ∅ ∅ ∅ ∅ [("/srv/web/docker-compose.yml", "/srv/web")]
         {[ "PATH" := "/usr/bin" ]} (λ _ archives, archives) 0 Example.stamp.

Definition unmounted : State Sim.world :=
  mkState unmounted_pool {[ 0%nat := Example.base_env ]} [].

End Scenario.

(** * Properties *)

(** ** Running processes and probing *)

Section HostFacts.
Context {W : Type} `{Host W}.

Lemma sh_run_unfold (c : Command) (ok : list Z) (s : State W) out code w' :
  exec c (world s) = (out, code, w') →
  sh_run c ok s =
    (if bool_decide (code ∈ ok) then Ok out
     else Raise (ErrorReturnCode code (argv c)), after s c code w').
Proof.
  intros E. unfold sh_run, after. rewrite E. by case_bool_decide.
Qed.

Lemma sh_run_zero (c : Command) (s : State W) out w' :
  exec c (world s) = (out, 0, w') →
  sh_run c [0] s = (Ok out, after s c 0 w').
Proof.
  intros E. rewrite (sh_run_unfold _ _ _ _ _ _ E).
  rewrite bool_decide_eq_true_2; [done | set_solver].
Qed.

Lemma sh_run_nonzero (c : Command) (s : State W) out code w' :
  exec c (world s) = (out, code, w') → code ≠ 0 →
  sh_run c [0] s = (Raise (ErrorReturnCode code (argv c)), after s c code w').
Proof.
  intros E Hc. rewrite (sh_run_unfold _ _ _ _ _ _ E).
  rewrite bool_decide_eq_false_2; [done | set_solver].
Qed.

Lemma probe_unfold (c : Command) (not_found : Z) (s : State W) out code w' :
  exec c (world s) = (out, code, w') →
  try_except (sh_run c [0] ;;; ret true)
    (λ e, match e with
          | ErrorReturnCode exit_code _ =>
              Some (if bool_decide (exit_code = not_found)
                    then ret false else raise e)
          | _ => None
          end) s
  = (probe_outcome not_found code c, after s c code w').
Proof.
  intros E. unfold try_except, bind, probe_outcome.
  destruct (decide (code = 0)) as [->|Hc].
  - by rewrite (sh_run_zero _ _ _ _ E).
  - rewrite (sh_run_nonzero _ _ _ _ _ E Hc).
    rewrite (bool_decide_eq_false_2 _ Hc).
    by case_bool_decide.
Qed.

Lemma storage_probe_unfold (c : Command) (s : State W) out code w' :
  exec c (world s) = (out, code, w') →
  try_except (sh_run c [0] ;;; ret true)
    (λ e, match e with
          | ErrorReturnCode exit_code _ =>
              Some (if bool_decide (exit_code = 1)
                    then ret false else decode_stderr c ;;; raise e)
          | _ => None
          end) s
  = (storage_probe_outcome (stderr_decodes c w') code c, after s c code w').
Proof.
  intros E. unfold try_except, bind, storage_probe_outcome.
  destruct (decide (code = 0)) as [->|Hc].
  - by rewrite (sh_run_zero _ _ _ _ E).
  - rewrite (sh_run_nonzero _ _ _ _ _ E Hc).
    rewrite (bool_decide_eq_false_2 _ Hc).
    case_bool_decide; [done|].
    unfold decode_stderr. simpl. by destruct (stderr_decodes c w').
Qed.

Lemma snapshot_exists_unfold (n : string) (s : State W) out code w' :
  exec (snapshot_query n) (world s) = (out, code, w') →
  ZFSManager._snapshot_exists n s
  = (storage_probe_outcome (stderr_decodes (snapshot_query n) w') code
       (snapshot_query n),
     after s (snapshot_query n) code w').
Proof. apply storage_probe_unfold. Qed.

Lemma dataset_exists_unfold self dn (s : State W) out code w' :
  exec (dataset_query self dn) (world s) = (out, code, w') →
  ZFSManager.dataset_exists self dn s
  = (storage_probe_outcome (stderr_decodes (dataset_query self dn) w') code
       (dataset_query self dn),
     after s (dataset_query self dn) code w').
Proof. apply storage_probe_unfold. Qed.

Lemma repository_exists_unfold self (s : State W) out code w' :
  exec (repository_query (env_of self s)) (world s) = (out, code, w') →
  BorgBackupRepoManager._repository_exists self s
  = (probe_outcome 2 code (repository_query (env_of self s)),
     after s (repository_query (env_of self s)) code w').
Proof.
  intros E.
  pose proof (probe_unfold (repository_query (env_of self s)) 2 s _ _ _ E) as P.
  unfold BorgBackupRepoManager._repository_exists, BorgBackupRepoManager.borg.
  unfold try_except, bind, deref in *. simpl in *.
  exact P.
Qed.

(** C8. Each existence probe (dataset, snapshot, repository) runs its query
    once and leaves the host as the query left it.  The repository probe maps
    the exit code as the specification says: zero gives true, code 2 gives
    false without an error, any other code raises the failure of the query.
    The two probes of the storage tool do the same with code 1 for "not
    found" as long as the error output of a failed query is empty or valid
    UTF-8; when it is not, the call that logs that output raises
    [UnicodeDecodeError], and this, not the failure of the query, is what
    the caller gets. *)
Theorem existence_probes_are_tri_state (s : State W) :
  (∀ self dataset_name,
     let q := dataset_query self dataset_name in
     ZFSManager.dataset_exists self dataset_name s
     = (storage_probe_outcome (stderr_decodes q (exec q (world s)).2)
          (exec q (world s)).1.2 q,
        after s q (exec q (world s)).1.2 (exec q (world s)).2))
  ∧ (∀ full_snapshot_name,
       let q := snapshot_query full_snapshot_name in
       ZFSManager._snapshot_exists full_snapshot_name s
       = (storage_probe_outcome (stderr_decodes q (exec q (world s)).2)
            (exec q (world s)).1.2 q,
          after s q (exec q (world s)).1.2 (exec q (world s)).2))
  ∧ (∀ self,
       let q := repository_query (env_of self s) in
       BorgBackupRepoManager._repository_exists self s
       = (probe_outcome 2 (exec q (world s)).1.2 q,
          after s q (exec q (world s)).1.2 (exec q (world s)).2))
  ∧ (∀ not_found q,
       probe_outcome not_found 0 q = Ok true
       ∧ (not_found ≠ 0 → probe_outcome not_found not_found q = Ok false)
       ∧ (∀ code, code ≠ 0 → code ≠ not_found →
            probe_outcome not_found code q = Raise (ErrorReturnCode code (argv q))))
  ∧ (∀ code q, storage_probe_outcome true code q = probe_outcome 1 code q)
  ∧ (∀ code q, code ≠ 0 → code ≠ 1 →
       storage_probe_outcome false code q = Raise UnicodeDecodeError).
Proof.
  split_and!.
  - intros self dn q. destruct (exec q (world s)) as [[out code] w'] eqn:E.
    by rewrite (dataset_exists_unfold _ _ _ _ _ _ E).
  - intros n q. destruct (exec q (world s)) as [[out code] w'] eqn:E.
    by rewrite (snapshot_exists_unfold _ _ _ _ _ E).
  - intros self q. destruct (exec q (world s)) as [[out code] w'] eqn:E.
    by rewrite (repository_exists_unfold _ _ _ _ _ E).
  - intros not_found q. split_and!.
    + done.
    + intros Hnf. unfold probe_outcome.
      rewrite (bool_decide_eq_false_2 _ Hnf). by rewrite bool_decide_eq_true_2.
    + intros code H0 Hnf. unfold probe_outcome.
      by rewrite (bool_decide_eq_false_2 _ H0), (bool_decide_eq_false_2 _ Hnf).
  - done.
  - intros code q H0 H1. unfold storage_probe_outcome.
    by rewrite (bool_decide_eq_false_2 _ H0), (bool_decide_eq_false_2 _ H1).
Qed.

End HostFacts.

(** ** Counting events *)

Section Quiet.
Context {W : Type} `{Host W}.
Variable p : event → bool.

Lemma count_cons (ev : event) (t : list event) :
  count p (ev :: t) = ((if p ev then 1 else 0) + count p t)%nat.
Proof. unfold count. simpl. by destruct (p ev). Qed.

Lemma count_after (s : State W) c code w' :
  count p (trace (after s c code w'))
  = ((if p (EvExec c code) then 1 else 0) + count p (trace s))%nat.
Proof. apply count_cons. Qed.

Lemma quiet_ret {A} (a : A) : quiet (W:=W) p (ret a).
Proof. by intros s. Qed.

Lemma quiet_raise {A} (e : exn) : quiet (W:=W) (A:=A) p (raise e).
Proof. by intros s. Qed.

Lemma quiet_bind {A B} (m : M W A) (k : A → M W B) :
  quiet p m → (∀ a, quiet p (k a)) → quiet p (bind m k).
Proof.
  intros Hm Hk s. unfold bind. specialize (Hm s).
  destruct (m s) as [[a|e] s']; simpl in *; [|done].
  by rewrite Hk.
Qed.

Lemma quiet_try_except {A} (m : M W A) (h : exn → option (M W A)) :
  quiet p m → (∀ e k, h e = Some k → quiet p k) → quiet p (try_except m h).
Proof.
  intros Hm Hh s. unfold try_except. specialize (Hm s).
  destruct (m s) as [[a|e] s']; simpl in *; [done|].
  destruct (h e) as [k|] eqn:E; [|done].
  by rewrite (Hh _ _ E).
Qed.

Lemma quiet_if {A} (b : bool) (m1 m2 : M W A) :
  quiet p m1 → quiet p m2 → quiet p (if b then m1 else m2).
Proof. by destruct b. Qed.

Lemma quiet_for_each {A} (l : list A) (body : A → M W unit) :
  (∀ x, quiet p (body x)) → quiet p (for_each l body).
Proof.
  intros Hb. induction l as [|x l IH]; simpl.
  - apply quiet_ret.
  - apply quiet_bind; auto.
Qed.

Lemma quiet_emit (ev : event) : p ev = false → quiet (W:=W) p (emit ev).
Proof. intros E s. simpl. by rewrite count_cons, E. Qed.

Lemma quiet_sh_run (c : Command) (ok : list Z) :
  (∀ code, p (EvExec c code) = false) → quiet p (sh_run c ok).
Proof.
  intros E s. destruct (exec c (world s)) as [[out code] w'] eqn:Ex.
  rewrite (sh_run_unfold _ _ _ _ _ _ Ex). simpl.
  by rewrite count_cons, E.
Qed.

Lemma quiet_decode_stdout (c : Command) : quiet p (decode_stdout c).
Proof. intros s. unfold decode_stdout. by destruct (stdout_decodes c (world s)). Qed.

Lemma quiet_decode_stderr (c : Command) : quiet p (decode_stderr c).
Proof. intros s. unfold decode_stderr. by destruct (stderr_decodes c (world s)). Qed.

Lemma quiet_dict_copy l : quiet (W:=W) p (dict_copy l).
Proof. by intros s. Qed.

Lemma quiet_dict_set l k v : quiet (W:=W) p (dict_set l k v).
Proof. by intros s. Qed.

Lemma quiet_dict_get l k d : quiet (W:=W) p (dict_get l k d).
Proof. by intros s. Qed.

Lemma quiet_deref l : quiet (W:=W) p (deref l).
Proof. by intros s. Qed.

Lemma quiet_now : quiet p ZFSManager.now.
Proof. by intros s. Qed.

Lemma quiet_find_compose_files : quiet p DockerComposeManager._find_compose_files.
Proof. by intros s. Qed.

End Quiet.

(** Splits a [quiet] goal along the structure of the computation; what is
    left are the events themselves, settled by evaluation. *)
Ltac quiet_step :=
  lazymatch goal with
  | |- quiet _ (bind _ _) => apply quiet_bind; [|intros ?]
  | |- quiet _ (try_except _ _) =>
      apply quiet_try_except;
      [|let e := fresh "e" in let k := fresh "k" in let E := fresh "E" in
        intros e k E; destruct e; simplify_eq/=]
  | |- quiet _ (for_each _ _) => apply quiet_for_each; intros ?
  | |- quiet _ (ret _) => apply quiet_ret
  | |- quiet _ (raise _) => apply quiet_raise
  | |- quiet _ (sh_run _ _) => apply quiet_sh_run; intros ?; reflexivity
  | |- quiet _ (emit _) => apply quiet_emit; reflexivity
  | |- quiet _ (log _ _) => apply quiet_emit; reflexivity
  | |- quiet _ (call_marker _ _) => apply quiet_emit; reflexivity
  | |- quiet _ (decode_stdout _) => apply quiet_decode_stdout
  | |- quiet _ (decode_stderr _) => apply quiet_decode_stderr
  | |- quiet _ (dict_copy _) => apply quiet_dict_copy
  | |- quiet _ (dict_set _ _ _) => apply quiet_dict_set
  | |- quiet _ (dict_get _ _ _) => apply quiet_dict_get
  | |- quiet _ (deref _) => apply quiet_deref
  | |- quiet _ ZFSManager.now => apply quiet_now
  | |- quiet _ DockerComposeManager._find_compose_files =>
      apply quiet_find_compose_files
  | |- quiet _ (if ?b then _ else _) => destruct b
  | |- quiet _ (match ?x with _ => _ end) => destruct x
  end.

Ltac quiet_auto := repeat quiet_step.

(** ** Snapshots: creation and destruction *)

Section Snapshots.
Context {W : Type} `{Host W}.

Lemma zfs_execute_command_unfold (args : list string) (s : State W) out code w' :
  exec (ZFSManager.zfs args) (world s) = (out, code, w') →
  ZFSManager._execute_command args s
  = (command_outcome out (stdout_decodes (ZFSManager.zfs args) w'
                          && stderr_decodes (ZFSManager.zfs args) w')
       code (ZFSManager.zfs args),
     after s (ZFSManager.zfs args) code w').
Proof.
  intros E. unfold ZFSManager._execute_command, try_except, command_outcome.
  rewrite (sh_run_unfold _ _ _ _ _ _ E).
  case_bool_decide as Hc.
  - apply list_elem_of_singleton in Hc as ->. by rewrite bool_decide_eq_true_2.
  - rewrite bool_decide_eq_false_2 by (intros ->; apply Hc; set_solver).
    unfold bind, decode_stdout, decode_stderr, after. simpl.
    destruct (stdout_decodes _ w'); [|done]. simpl.
    by destruct (stderr_decodes _ w').
Qed.

Lemma zfs_execute_command_zero (args : list string) (s : State W) out w' :
  exec (ZFSManager.zfs args) (world s) = (out, 0, w') →
  ZFSManager._execute_command args s = (Ok out, after s (ZFSManager.zfs args) 0 w').
Proof. intros E. by rewrite (zfs_execute_command_unfold _ _ _ _ _ E). Qed.

Lemma create_snapshot_explicit_tag self tag dsn recursive (s : State W) :
  tag ≠ "" →
  ZFSManager.create_snapshot self (Some tag) dsn recursive s
  = (let full := ZFSManager.full_snapshot_name self tag dsn in
     present <~ ZFSManager._snapshot_exists full ;;
     if present
     then raise (FileExistsError (ZFSManager.already_exists_msg full))
     else
       ZFSManager._execute_command
         (["snapshot"] ++ (if recursive then ["-r"] else []) ++ [full]) ;;;
       present' <~ ZFSManager._snapshot_exists full ;;
       if negb present'
       then raise (RuntimeError (ZFSManager.not_found_after_creation_msg full))
       else ret full) s.
Proof.
  intros Ht. unfold ZFSManager.create_snapshot. simpl.
  assert (String.eqb tag "" = false) as -> by by apply String.eqb_neq.
  done.
Qed.

(** C5. Destroying a snapshot that the query reports as absent is a
    successful no-op: only the query runs.  When the query reports it present,
    the destroy command runs and the query is repeated; the call raises the
    post-condition error if the snapshot is still reported present, and
    returns normally if it is reported absent. *)
Theorem destroy_snapshot_contract self tag dsn recursive (s : State W) o1 c1 w1 :
  let full := ZFSManager.full_snapshot_name self tag dsn in
  let q := snapshot_query full in
  let d := destroy_command recursive full in
  exec q (world s) = (o1, c1, w1) →
  (c1 = 1 →
     ZFSManager.destroy_snapshot self tag dsn recursive s = (Ok tt, after s q 1 w1))
  ∧ (c1 = 0 → ∀ o2 w2 o3 c3 w3,
       exec d w1 = (o2, 0, w2) →
       exec q w2 = (o3, c3, w3) →
       let s3 := after (after (after s q 0 w1) d 0 w2) q c3 w3 in
       (c3 = 0 →
          ZFSManager.destroy_snapshot self tag dsn recursive s
          = (Raise (RuntimeError (ZFSManager.still_exists_msg full)), s3))
       ∧ (c3 = 1 →
            ZFSManager.destroy_snapshot self tag dsn recursive s = (Ok tt, s3))).
Proof.
  intros full q d E1. split.
  - intros ->. unfold ZFSManager.destroy_snapshot, bind.
    fold full. by rewrite (snapshot_exists_unfold _ _ _ _ _ E1).
  - intros -> o2 w2 o3 c3 w3 E2 E3 s3.
    assert (ZFSManager.destroy_snapshot self tag dsn recursive s
            = (match storage_probe_outcome (stderr_decodes q w3) c3 q with
               | Ok true => Raise (RuntimeError (ZFSManager.still_exists_msg full))
               | Ok false => Ok tt
               | Raise e => Raise e
               end, s3)) as Hd.
    { unfold ZFSManager.destroy_snapshot, bind. fold full.
      rewrite (snapshot_exists_unfold _ _ _ _ _ E1). simpl.
      pose proof (zfs_execute_command_zero _ (after s q 0 w1) o2 w2 E2) as Hx.
      simpl in Hx. fold q. rewrite Hx. clear Hx.
      change (ZFSManager.zfs _) with d. fold q.
      rewrite (snapshot_exists_unfold full (after (after s q 0 w1) d 0 w2) _ _ _ E3).
      fold q s3. by destruct (storage_probe_outcome _ c3 q) as [[]|]. }
    split; intros ->; exact Hd.
Qed.

(** C4. Creating a snapshot under an explicit tag, branch by branch on every
    host.  When the query reports the snapshot present, the call raises the
    already-exists error right after the query and runs nothing else.  When
    the query reports it absent (exit code 1) and the snapshot command
    succeeds, the query is repeated: the call returns the canonical name
    [dataset@tag] if the snapshot is now reported present, and raises the
    verification error if it is still reported absent; in both cases exactly
    the query, the snapshot command and the verifying query have run, in this
    order.  With a storage tool that keeps its contract and a snapshot that
    does not exist, the first call takes the successful branch and leaves the
    snapshot in place, and the same call repeated at once takes the
    already-exists branch: creation is not idempotent. *)
Theorem create_snapshot_is_not_idempotent self tag dsn recursive (s : State W) :
  tag ≠ "" →
  let full := ZFSManager.full_snapshot_name self tag dsn in
  let q := snapshot_query full in
  let c := snapshot_command recursive full in
  let create := ZFSManager.create_snapshot self (Some tag) dsn recursive in
  let already := Raise (FileExistsError (ZFSManager.already_exists_msg full)) in
  (∀ o1 w1, exec q (world s) = (o1, 0, w1) →
     create s = (already, after s q 0 w1))
  ∧ (∀ o1 w1 o2 w2 o3 c3 w3,
       exec q (world s) = (o1, 1, w1) →
       exec c w1 = (o2, 0, w2) →
       exec q w2 = (o3, c3, w3) →
       let s3 := after (after (after s q 1 w1) c 0 w2) q c3 w3 in
       (c3 = 0 → create s = (Ok full, s3))
       ∧ (c3 = 1 →
            create s
            = (Raise (RuntimeError (ZFSManager.not_found_after_creation_msg full)),
               s3)))
  ∧ (∀ present, StorageToolOk present → present full (world s) = false →
     ∃ o1 w1 o2 w2 o3 w3 o4 w4,
       exec q (world s) = (o1, 1, w1)
       ∧ exec c w1 = (o2, 0, w2)
       ∧ exec q w2 = (o3, 0, w3)
       ∧ exec q w3 = (o4, 0, w4)
       ∧ let s1 := after (after (after s q 1 w1) c 0 w2) q 0 w3 in
         create s = (Ok full, s1)
         ∧ present full (world s1) = true
         ∧ create s1 = (already, after s1 q 0 w4)
         ∧ present full w4 = true).
Proof.
  intros Ht full q c create already.
  assert (∀ s0 o1 w1, exec q (world s0) = (o1, 0, w1) →
            create s0 = (already, after s0 q 0 w1)) as Hpresent.
  { intros s0 o1 w1 E1. unfold create.
    rewrite create_snapshot_explicit_tag by done. fold full.
    unfold bind. by rewrite (snapshot_exists_unfold _ _ _ _ _ E1). }
  assert (∀ o1 w1 o2 w2 o3 c3 w3,
            exec q (world s) = (o1, 1, w1) →
            exec c w1 = (o2, 0, w2) →
            exec q w2 = (o3, c3, w3) →
            create s
            = (match storage_probe_outcome (stderr_decodes q w3) c3 q with
               | Ok true => Ok full
               | Ok false =>
                   Raise (RuntimeError (ZFSManager.not_found_after_creation_msg full))
               | Raise e => Raise e
               end,
               after (after (after s q 1 w1) c 0 w2) q c3 w3)) as Habsent.
  { intros o1 w1 o2 w2 o3 c3 w3 E1 E2 E3. unfold create.
    rewrite create_snapshot_explicit_tag by done. fold full.
    unfold bind. rewrite (snapshot_exists_unfold _ _ _ _ _ E1). simpl.
    pose proof (zfs_execute_command_zero _ (after s q 1 w1) o2 w2 E2) as Hx.
    simpl in Hx. fold q. rewrite Hx. clear Hx.
    change (ZFSManager.zfs _) with c. fold q.
    rewrite (snapshot_exists_unfold full (after (after s q 1 w1) c 0 w2) _ _ _ E3).
    fold q. by destruct (storage_probe_outcome _ c3 q) as [[]|]. }
  split_and!.
  - apply Hpresent.
  - intros o1 w1 o2 w2 o3 c3 w3 E1 E2 E3 s3.
    split; intros ->; exact (Habsent _ _ _ _ _ _ _ E1 E2 E3).
  - intros present Hok Hnone.
    destruct (snapshot_query_ok present Hok full (world s)) as (o1 & w1 & E1 & P1).
    rewrite Hnone in E1.
    assert (present full w1 = false) as Hnone1 by by rewrite P1.
    destruct (snapshot_command_ok present Hok recursive full w1 Hnone1)
      as (o2 & w2 & E2 & P2).
    destruct (snapshot_query_ok present Hok full w2) as (o3 & w3 & E3 & P3).
    rewrite P2 in E3.
    assert (present full w3 = true) as Hthere by by rewrite P3.
    destruct (snapshot_query_ok present Hok full w3) as (o4 & w4 & E4 & P4).
    rewrite Hthere in E4.
    exists o1, w1, o2, w2, o3, w3, o4, w4. fold q c in E1, E2, E3, E4.
    split_and!; try done. intros s1. split_and!.
    + exact (Habsent _ _ _ _ _ _ _ E1 E2 E3).
    + done.
    + by apply (Hpresent s1 o4).
    + by rewrite P4.
Qed.

End Snapshots.

(** ** The archive repository manager *)

Section Repository.
Context {W : Type} `{Host W}.

Lemma borg_unfold self (args : list string) (s : State W) :
  BorgBackupRepoManager.borg self args s
  = sh_run (BorgBackupRepoManager.borg_with (env_of self s) args) [0] s.
Proof. done. Qed.

Lemma borg_execute_command_fg_unfold self (args : list string) (s : State W) :
  BorgBackupRepoManager._execute_command_fg self args s
  = sh_run (BorgBackupRepoManager.borg_with (env_of self s) args) [0] s.
Proof.
  unfold BorgBackupRepoManager._execute_command_fg, try_except.
  rewrite borg_unfold. destruct (sh_run _ _ s) as [[a|[]] s']; done.
Qed.

Lemma borg_execute_command_unfold self (args : list string) (s : State W) out code w' :
  let c := BorgBackupRepoManager.borg_with (env_of self s) args in
  exec c (world s) = (out, code, w') →
  BorgBackupRepoManager._execute_command self args s
  = (command_outcome out (stdout_decodes c w' && stderr_decodes c w') code c,
     after s c code w').
Proof.
  intros c E.
  unfold BorgBackupRepoManager._execute_command, bind, deref, try_except,
    command_outcome.
  change (default ∅ (heap s !! BorgBackupRepoManager.borg_env self))
    with (env_of self s).
  fold c. rewrite (sh_run_unfold _ _ _ _ _ _ E).
  case_bool_decide as Hc.
  - apply list_elem_of_singleton in Hc as ->. by rewrite bool_decide_eq_true_2.
  - rewrite bool_decide_eq_false_2 by (intros ->; apply Hc; set_solver).
    unfold decode_stdout, decode_stderr, after. simpl.
    destruct (stdout_decodes _ w'); [|done]. simpl.
    by destruct (stderr_decodes _ w').
Qed.

Lemma borg_execute_command_zero self (args : list string) (s : State W) out w' :
  let c := BorgBackupRepoManager.borg_with (env_of self s) args in
  exec c (world s) = (out, 0, w') →
  BorgBackupRepoManager._execute_command self args s = (Ok out, after s c 0 w').
Proof. intros c E. by rewrite (borg_execute_command_unfold _ _ _ _ _ _ E). Qed.

Lemma borg_execute_command_trace self (args : list string) (s : State W) :
  ∃ code,
    trace (BorgBackupRepoManager._execute_command self args s).2
    = EvExec (BorgBackupRepoManager.borg_with (env_of self s) args) code :: trace s.
Proof.
  destruct (exec (BorgBackupRepoManager.borg_with (env_of self s) args) (world s))
    as [[out code] w'] eqn:E.
  exists code. by rewrite (borg_execute_command_unfold _ _ _ _ _ _ E).
Qed.

Lemma initialize_if_needed_unfold self (s : State W) :
  BorgBackupRepoManager.initialize_if_needed self s
  = (present <~ BorgBackupRepoManager._repository_exists self ;;
     if present then ret tt
     else
       BorgBackupRepoManager._initialize_repository self ;;;
       present' <~ BorgBackupRepoManager._repository_exists self ;;
       if negb present'
       then raise (RuntimeError (BorgBackupRepoManager.init_failed_msg self))
       else ret tt) s.
Proof.
  unfold BorgBackupRepoManager.initialize_if_needed, bind, try_except.
  destruct (BorgBackupRepoManager._repository_exists self s) as [[a|[]] s']; done.
Qed.

Lemma initialize_if_needed_present self (s : State W) o1 w1 :
  exec (repository_query (env_of self s)) (world s) = (o1, 0, w1) →
  BorgBackupRepoManager.initialize_if_needed self s
  = (Ok tt, after s (repository_query (env_of self s)) 0 w1).
Proof.
  intros E1. rewrite initialize_if_needed_unfold. unfold bind.
  by rewrite (repository_exists_unfold _ _ _ _ _ E1).
Qed.

Lemma initialize_if_needed_absent self (s : State W) o1 w1 o2 w2 o3 c3 w3 :
  let env := env_of self s in
  let q := repository_query env in
  let i := init_command env in
  exec q (world s) = (o1, 2, w1) →
  exec i w1 = (o2, 0, w2) →
  exec q w2 = (o3, c3, w3) →
  BorgBackupRepoManager.initialize_if_needed self s
  = (match probe_outcome 2 c3 q with
     | Ok true => Ok tt
     | Ok false => Raise (RuntimeError (BorgBackupRepoManager.init_failed_msg self))
     | Raise e => Raise e
     end, after (after (after s q 2 w1) i 0 w2) q c3 w3).
Proof.
  intros env q i E1 E2 E3. rewrite initialize_if_needed_unfold. unfold bind.
  rewrite (repository_exists_unfold _ _ _ _ _ E1). simpl.
  unfold BorgBackupRepoManager._initialize_repository, bind.
  fold env q.
  rewrite (borg_execute_command_zero self _ (after s q 2 w1) o2 w2 E2).
  change (env_of self (after s _ 2 w1)) with env.
  change (BorgBackupRepoManager.borg_with env _) with i.
  fold env q. unfold ret.
  rewrite (repository_exists_unfold self (after (after s q 2 w1) i 0 w2) o3 c3 w3 E3).
  change (env_of self (after _ i 0 w2)) with env. fold q.
  by destruct (probe_outcome 2 c3 q) as [[]|].
Qed.

Lemma query_is_not_init env code :
  is_borg_init (EvExec (repository_query env) code) = false.
Proof. done. Qed.

Lemma init_is_init env code :
  is_borg_init (EvExec (init_command env) code) = true.
Proof. done. Qed.

(** C6. [initialize_if_needed]: when the query finds the repository, the call
    returns without initializing; when the query reports it absent, the
    repository is initialized and queried again, and the call raises the
    post-condition error if it is still reported absent.  With an archive tool
    that keeps its contract and a manager whose environment names its
    repository, two calls in a row both succeed, the second never initializes,
    together they initialize at most once, and not at all when the repository
    was there. *)
Theorem initialize_if_needed_is_idempotent self (s : State W) :
  let env := env_of self s in
  let q := repository_query env in
  let i := init_command env in
  (∀ o1 w1, exec q (world s) = (o1, 0, w1) →
     BorgBackupRepoManager.initialize_if_needed self s = (Ok tt, after s q 0 w1))
  ∧ (∀ o1 w1 o2 w2 o3 c3 w3,
       exec q (world s) = (o1, 2, w1) →
       exec i w1 = (o2, 0, w2) →
       exec q w2 = (o3, c3, w3) →
       let s3 := after (after (after s q 2 w1) i 0 w2) q c3 w3 in
       (c3 = 2 → BorgBackupRepoManager.initialize_if_needed self s
                 = (Raise (RuntimeError (BorgBackupRepoManager.init_failed_msg self)), s3))
       ∧ (c3 = 0 → BorgBackupRepoManager.initialize_if_needed self s = (Ok tt, s3)))
  ∧ (∀ present, ArchiveToolOk present → is_Some (env !! "BORG_REPO") →
       ∃ s1 s2,
         BorgBackupRepoManager.initialize_if_needed self s = (Ok tt, s1)
         ∧ BorgBackupRepoManager.initialize_if_needed self s1 = (Ok tt, s2)
         ∧ count is_borg_init (trace s2) = count is_borg_init (trace s1)
         ∧ (count is_borg_init (trace s2) ≤ S (count is_borg_init (trace s)))%nat
         ∧ (present env (world s) = true →
            count is_borg_init (trace s2) = count is_borg_init (trace s))).
Proof.
  intros env q i. split_and!.
  - intros o1 w1 E1. by apply initialize_if_needed_present with o1.
  - intros o1 w1 o2 w2 o3 c3 w3 E1 E2 E3 s3.
    pose proof (initialize_if_needed_absent self s _ _ _ _ _ _ _ E1 E2 E3) as Hi.
    split; intros ->; exact Hi.
  - intros present Hok Hrepo.
    destruct (repository_query_ok present Hok env (world s) Hrepo)
      as (o1 & w1 & E1 & P1).
    destruct (present env (world s)) eqn:Hp.
    + (* the repository is there: two queries, no initialization *)
      set (s1 := after s q 0 w1).
      destruct (repository_query_ok present Hok env (world s1) Hrepo)
        as (o2 & w2 & E2 & P2).
      assert (present env (world s1) = true) as Hp1 by (simpl; by rewrite P1).
      rewrite Hp1 in E2.
      exists s1, (after s1 q 0 w2). split_and!.
      * by apply initialize_if_needed_present with o1.
      * by apply (initialize_if_needed_present self s1 o2 w2).
      * unfold q. by rewrite count_after, query_is_not_init.
      * unfold s1, q. rewrite !count_after, !query_is_not_init. lia.
      * intros _. unfold s1, q. by rewrite !count_after, !query_is_not_init.
    + (* absent: query, initialize, query; then one more query *)
      destruct (init_command_ok present Hok env w1 Hrepo) as (o2 & w2 & E2 & P2).
      { by rewrite P1. }
      destruct (repository_query_ok present Hok env w2 Hrepo) as (o3 & w3 & E3 & P3).
      rewrite P2 in E3.
      set (s1 := after (after (after s q 2 w1) i 0 w2) q 0 w3).
      destruct (repository_query_ok present Hok env (world s1) Hrepo)
        as (o4 & w4 & E4 & P4).
      assert (present env (world s1) = true) as Hp1 by (simpl; by rewrite P3).
      rewrite Hp1 in E4.
      exists s1, (after s1 q 0 w4). split_and!.
      * by rewrite (initialize_if_needed_absent self s _ _ _ _ _ _ _ E1 E2 E3).
      * by apply (initialize_if_needed_present self s1 o4 w4).
      * unfold q. by rewrite count_after, query_is_not_init.
      * unfold s1, q, i.
        rewrite !count_after, !query_is_not_init, init_is_init. lia.
      * done.
Qed.

Lemma fresh_loc_is_fresh (h : gmap nat dict) : h !! fresh_loc h = None.
Proof. apply not_elem_of_dom. unfold fresh_loc. apply is_fresh. Qed.

(** C10. A call to [check_repository], whether it returns or raises, leaves
    the dict the manager's [borg_env] refers to as it was: the check process
    is started with a copy in which [BORG_RSH] carries the keep-alive option,
    and every later command of the same manager is started with the original
    environment. *)
Theorem check_repository_keeps_credentials self verify_data (s : State W) :
  is_Some (heap s !! BorgBackupRepoManager.borg_env self) →
  let s' := (BorgBackupRepoManager.check_repository self verify_data s).2 in
  heap s' !! BorgBackupRepoManager.borg_env self
    = heap s !! BorgBackupRepoManager.borg_env self
  ∧ (∃ code, head (trace s')
       = Some (EvExec (BorgBackupRepoManager.borg_with (check_env (env_of self s))
                         (check_args verify_data)) code))
  ∧ (∀ args, ∃ code,
       head (trace (BorgBackupRepoManager._execute_command self args s').2)
       = Some (EvExec (BorgBackupRepoManager.borg_with (env_of self s) args) code)).
Proof.
  intros [d Hd] s'.
  set (l := fresh_loc (heap s)).
  assert (l ≠ BorgBackupRepoManager.borg_env self) as Hne.
  { intros E. pose proof (fresh_loc_is_fresh (heap s)) as F. fold l in F.
    rewrite E in F. congruence. }
  set (local := check_env d).
  set (c := BorgBackupRepoManager.borg_with local (check_args verify_data)).
  destruct (exec c (world s)) as [[out code] w'] eqn:Ex.
  assert (∃ h', heap s' = h' ∧ h' !! BorgBackupRepoManager.borg_env self = Some d
                ∧ trace s' = EvExec c code :: trace s) as (h' & Hh & Hl & Ht).
  { unfold s', BorgBackupRepoManager.check_repository, bind, dict_copy, dict_get.
    simpl. fold l. rewrite Hd. simpl. rewrite lookup_insert_eq. simpl.
    unfold local, check_env in c. unfold c, check_args in Ex. simpl in Ex.
    destruct (Py.contains "ssh " (default "" (d !! "BORG_RSH"))).
    - unfold dict_set, try_except, bind, deref, sh_run. simpl.
      rewrite !lookup_insert_eq. simpl. rewrite Ex.
      case_bool_decide; simpl;
        (eexists; split; [reflexivity|]; split;
         [by rewrite !lookup_insert_ne | done]).
    - unfold ret, try_except, bind, deref, sh_run. simpl.
      rewrite !lookup_insert_eq. simpl. rewrite Ex.
      case_bool_decide; simpl;
        (eexists; split; [reflexivity|]; split;
         [by rewrite !lookup_insert_ne | done]). }
  assert (env_of self s = d) as Hes by (unfold env_of; by rewrite Hd).
  assert (env_of self s' = d) as Hes' by (unfold env_of; by rewrite Hh, Hl).
  split_and!.
  - by rewrite Hh, Hl.
  - exists code. by rewrite Ht, Hes.
  - intros args.
    destruct (borg_execute_command_trace self args s') as [code2 Ht2].
    exists code2. by rewrite Ht2, Hes', Hes.
Qed.

End Repository.

(** ** The backup pipeline *)

Ltac unfold_methods :=
  unfold DockerComposeManager.stop_all, DockerComposeManager.up_all,
    DockerComposeManager._run_command_on_all,
    ZFSManager.create_snapshot, ZFSManager.destroy_snapshot,
    ZFSManager._snapshot_exists, ZFSManager._execute_command,
    ZFSManager.get_datasets,
    BackupOrchestrator._orchestrate_dataset_backups,
    BackupOrchestrator.archive_loop, BackupOrchestrator.check_loop,
    BackupOrchestrator._backup_single_dataset,
    BackupOrchestrator._build_archive_name,
    BackupOrchestrator._backup_single_snapshot,
    BackupOrchestrator._check_single_repository,
    BorgBackupRepoManager.__init__, BorgBackupRepoManager.initialize_if_needed,
    BorgBackupRepoManager._repository_exists,
    BorgBackupRepoManager._initialize_repository,
    BorgBackupRepoManager.create_archive, BorgBackupRepoManager.prune_archives,
    BorgBackupRepoManager.check_repository,
    BorgBackupRepoManager._execute_command,
    BorgBackupRepoManager._execute_command_fg, BorgBackupRepoManager.borg;
  cbv zeta.

Ltac quiet_methods := repeat first [quiet_step | progress unfold_methods].

Section Pipeline.
Context {W : Type} `{Host W}.

Lemma count_marked (p : event → bool) {A} (ev : event) (m : M W A) (s : State W) :
  quiet p m →
  count p (trace ((emit ev ;;; m) s).2)
  = ((if p ev then 1 else 0) + count p (trace s))%nat.
Proof.
  intros Hm. unfold bind, emit. simpl. rewrite Hm. simpl. apply count_cons.
Qed.

Lemma quiet_restart_stop_all : quiet (W:=W) is_restart DockerComposeManager.stop_all.
Proof. quiet_methods. Qed.

Lemma quiet_restart_create_snapshot self tag dsn r :
  quiet (W:=W) is_restart (ZFSManager.create_snapshot self tag dsn r).
Proof. quiet_methods. Qed.

Lemma quiet_restart_destroy_snapshot self tag dsn r :
  quiet (W:=W) is_restart (ZFSManager.destroy_snapshot self tag dsn r).
Proof. quiet_methods. Qed.

Lemma quiet_restart_orchestrate self :
  quiet (W:=W) is_restart (BackupOrchestrator._orchestrate_dataset_backups self).
Proof. quiet_methods. Qed.

Lemma up_all_counts_once (s : State W) :
  count is_restart (trace (DockerComposeManager.up_all s).2)
  = S (count is_restart (trace s)).
Proof.
  unfold DockerComposeManager.up_all, call_marker.
  rewrite count_marked; [done|]. quiet_methods.
Qed.

Lemma quiet_destroy_stop_all : quiet (W:=W) is_zfs_destroy DockerComposeManager.stop_all.
Proof. quiet_methods. Qed.

Lemma quiet_destroy_up_all : quiet (W:=W) is_zfs_destroy DockerComposeManager.up_all.
Proof. quiet_methods. Qed.

Lemma quiet_destroy_create_snapshot self tag dsn r :
  quiet (W:=W) is_zfs_destroy (ZFSManager.create_snapshot self tag dsn r).
Proof. quiet_methods. Qed.

Lemma quiet_destroy_orchestrate self :
  quiet (W:=W) is_zfs_destroy (BackupOrchestrator._orchestrate_dataset_backups self).
Proof. quiet_methods. Qed.

Lemma quiet_destroy_snapshot_exists n :
  quiet (W:=W) is_zfs_destroy (ZFSManager._snapshot_exists n).
Proof. quiet_methods. Qed.

Lemma quiet_delete_backup_all_steps self :
  quiet (W:=W) is_borg_delete DockerComposeManager.stop_all
  ∧ quiet (W:=W) is_borg_delete DockerComposeManager.up_all
  ∧ (∀ tag dsn r, quiet (W:=W) is_borg_delete (ZFSManager.create_snapshot self tag dsn r))
  ∧ (∀ tag dsn r, quiet (W:=W) is_borg_delete (ZFSManager.destroy_snapshot self tag dsn r))
  ∧ (∀ o, quiet (W:=W) is_borg_delete (BackupOrchestrator._orchestrate_dataset_backups o)).
Proof. split_and!; intros; quiet_methods. Qed.

(** The destroy step runs the destroy command at most once. *)
Lemma destroy_snapshot_at_most_once self tag dsn r (s : State W) :
  (count is_zfs_destroy (trace s)
   ≤ count is_zfs_destroy (trace (ZFSManager.destroy_snapshot self tag dsn r s).2)
   ≤ S (count is_zfs_destroy (trace s)))%nat.
Proof.
  unfold ZFSManager.destroy_snapshot, bind.
  pose proof (quiet_destroy_snapshot_exists
                (ZFSManager.full_snapshot_name self tag dsn) s) as Q1.
  destruct (ZFSManager._snapshot_exists _ s) as [[[]|e] s1]; simpl in *; try lia.
  destruct (exec (destroy_command r (ZFSManager.full_snapshot_name self tag dsn))
              (world s1)) as [[o2 c2] w2] eqn:E2.
  pose proof (zfs_execute_command_unfold _ s1 o2 c2 w2 E2) as Hx.
  simpl in Hx. rewrite Hx. clear Hx.
  change (ZFSManager.zfs _) with
    (destroy_command r (ZFSManager.full_snapshot_name self tag dsn)).
  destruct (command_outcome _ _ _ _) as [out|e]; simpl.
  - pose proof (quiet_destroy_snapshot_exists
                  (ZFSManager.full_snapshot_name self tag dsn)
                  (after s1 (destroy_command r (ZFSManager.full_snapshot_name self tag dsn))
                     c2 w2)) as Q2.
    destruct (ZFSManager._snapshot_exists _ (after s1 _ c2 w2)) as [[[]|e] s3];
      simpl in *; rewrite Q2, count_cons; destruct r; simpl; lia.
  - rewrite count_cons. destruct r; simpl; lia.
Qed.

(** Every run of [backup_all] goes one of the six ways. *)
Lemma backup_all_run self (s0 : State W) r s' :
  BackupOrchestrator.backup_all self s0 = (r, s') → pipeline_run self s0 r s'.
Proof.
  unfold BackupOrchestrator.backup_all, BackupOrchestrator.backup_all_try.
  destruct (DockerComposeManager.stop_all s0) as [[[]|e1] s1] eqn:E1.
  2: { intros [= <- <-]. by eapply run_stop_failed. }
  destruct (ZFSManager.create_snapshot _ _ _ _ s1) as [[n|e2] s2] eqn:E2.
  - destruct (DockerComposeManager.up_all s2) as [[[]|e3] s3] eqn:E3.
    2: { intros [= <- <-]. by eapply run_restart_failed. }
    destruct (BackupOrchestrator._orchestrate_dataset_backups self s3)
      as [[[]|e4] s4] eqn:E4.
    2: { intros [= <- <-]. by eapply run_backups_failed. }
    destruct (ZFSManager.destroy_snapshot _ _ _ _ s4) as [[[]|e5] s5] eqn:E5;
      intros [= <- <-].
    + by eapply run_succeeded.
    + by eapply run_destroy_failed.
  - destruct (DockerComposeManager.up_all s2) as [[[]|e3] s3] eqn:E3;
      intros [= <- <-].
    + apply (run_snapshot_failed self s0 s1 e2 s2 (Ok tt) s3); done.
    + apply (run_snapshot_failed self s0 s1 e2 s2 (Raise e3) s3); done.
Qed.

Lemma count_reported (p : event → bool) self (s : State W) :
  p (EvLog ERROR (BackupOrchestrator.snapshot_left_msg self)) = false →
  count p (trace (reported self s)) = count p (trace s).
Proof. intros E. unfold reported. simpl. by rewrite count_cons, E. Qed.

(** When the stop step itself raises, nothing else runs: no snapshot, no
    restart. *)
Lemma stop_failure_ends_the_run self (s0 s1 : State W) e :
  DockerComposeManager.stop_all s0 = (Raise e, s1) →
  BackupOrchestrator.backup_all self s0 = (Raise e, s1)
  ∧ count is_restart (trace s1) = count is_restart (trace s0).
Proof.
  intros E1. split.
  - unfold BackupOrchestrator.backup_all, BackupOrchestrator.backup_all_try.
    by rewrite E1.
  - pose proof (quiet_restart_stop_all s0) as Q1. by rewrite E1 in Q1.
Qed.

(** What a successful [_orchestrate_dataset_backups] went through. *)
Lemma orchestrate_ok_inv self (s3 s4 : State W) :
  BackupOrchestrator._orchestrate_dataset_backups self s3 = (Ok tt, s4) →
  ∃ datasets sa sb,
    datasets ≠ []
    ∧ ZFSManager.get_datasets (BackupOrchestrator.zfs_manager self) s3
      = (Ok datasets, sa)
    ∧ BackupOrchestrator.archive_loop self datasets sa = (Ok tt, sb)
    ∧ BackupOrchestrator.check_loop self datasets sb = (Ok tt, s4).
Proof.
  unfold BackupOrchestrator._orchestrate_dataset_backups, bind.
  destruct (ZFSManager.get_datasets _ s3) as [[[|d l]|e] sa]; [done| |done].
  destruct (BackupOrchestrator.archive_loop self (d :: l) sa) as [[[]|e] sb] eqn:Ea;
    [|done].
  intros Ec. by exists (d :: l), sa, sb.
Qed.

(** A loop that returns normally ran its body successfully on every item. *)
Lemma for_each_ok_all {A} (body : A → M W unit) (l : list A) (s s' : State W) :
  for_each l body s = (Ok tt, s') →
  ∀ x, x ∈ l → ∃ sx sx', body x sx = (Ok tt, sx').
Proof.
  revert s. induction l as [|y l IH]; intros s E x Hx; [by apply elem_of_nil in Hx|].
  simpl in E. unfold bind in E.
  destruct (body y s) as [[[]|e] s1] eqn:Ey; [|done].
  apply elem_of_cons in Hx as [->|Hx]; [by eauto|]. by eapply IH.
Qed.

(** A destroy step that returned after its query found the snapshot ran the
    destroy command and then found the snapshot gone. *)
Lemma destroy_snapshot_ok_inv self tag dsn recursive (s s' : State W) o1 w1 :
  let full := ZFSManager.full_snapshot_name self tag dsn in
  let q := snapshot_query full in
  let d := destroy_command recursive full in
  exec q (world s) = (o1, 0, w1) →
  ZFSManager.destroy_snapshot self tag dsn recursive s = (Ok tt, s') →
  ∃ o2 w2 o3 w3,
    exec d w1 = (o2, 0, w2) ∧ exec q w2 = (o3, 1, w3)
    ∧ s' = after (after (after s q 0 w1) d 0 w2) q 1 w3.
Proof.
  intros full q d E1. unfold ZFSManager.destroy_snapshot, bind. fold full.
  rewrite (snapshot_exists_unfold _ _ _ _ _ E1).
  change (storage_probe_outcome _ 0 _) with (Ok true (A:=bool)). cbv iota beta.
  change (negb true) with false. cbv iota.
  destruct (exec d w1) as [[o2 c2] w2] eqn:E2.
  pose proof (zfs_execute_command_unfold _ (after s q 0 w1) o2 c2 w2 E2) as Hx.
  fold q. rewrite Hx. clear Hx. unfold command_outcome.
  case_bool_decide as Hc2; [subst c2 | by repeat case_match].
  destruct (exec q w2) as [[o3 c3] w3] eqn:E3.
  change (ZFSManager.zfs _) with d.
  rewrite (snapshot_exists_unfold full (after (after s q 0 w1) d 0 w2) _ _ _ E3).
  unfold storage_probe_outcome. repeat case_bool_decide; subst; try done.
  - intros [= <-]. by exists o2, w2, o3, w3.
  - by destruct (stderr_decodes _ w3).
Qed.

(** C1 (as amended). A run of [backup_all] that returns normally went
    through the stop, snapshot and restart steps and both loops over the
    datasets (archive, then check) with success for every dataset, issued no
    destroy command up to there, and ended with the destroy step: when the
    query of that step still finds the snapshot, the destroy command runs
    exactly once, the snapshot is then reported gone, and this is the one
    destroy command of the run.  No run issues more than one destroy command,
    and a run that issues one has succeeded in all the steps before the
    destroy step.  When the restart step or the dataset backups raise after
    the snapshot was created and verified, no destroy command is issued: the
    run reports the snapshot tag as left behind and re-raises the
    exception. *)
Theorem snapshot_destroyed_only_after_success self (s0 : State W) r s' :
  BackupOrchestrator.backup_all self s0 = (r, s') →
  let zm := BackupOrchestrator.zfs_manager self in
  let tag := BackupOrchestrator.snapshot_tag self in
  let q := snapshot_query (ZFSManager.full_snapshot_name zm tag None) in
  let d := destroy_command true (ZFSManager.full_snapshot_name zm tag None) in
  let destroys := λ t : State W, count is_zfs_destroy (trace t) in
  let before_destroy := λ s4 : State W,
    ∃ s1 n s2 s3 datasets sa sb,
      DockerComposeManager.stop_all s0 = (Ok tt, s1)
      ∧ ZFSManager.create_snapshot zm (Some tag) None true s1 = (Ok n, s2)
      ∧ DockerComposeManager.up_all s2 = (Ok tt, s3)
      ∧ ZFSManager.get_datasets zm s3 = (Ok datasets, sa)
      ∧ BackupOrchestrator.archive_loop self datasets sa = (Ok tt, sb)
      ∧ BackupOrchestrator.check_loop self datasets sb = (Ok tt, s4)
      ∧ (∀ x, x ∈ datasets →
           (∃ sx sx', BackupOrchestrator._backup_single_dataset self x sx = (Ok tt, sx'))
           ∧ (∃ sx sx', BackupOrchestrator._check_single_repository self
                          (BackupOrchestrator._get_repo_path self x) sx = (Ok tt, sx')))
      ∧ destroys s4 = destroys s0 in
  (r = Ok tt →
     ∃ s4, before_destroy s4
       ∧ ZFSManager.destroy_snapshot zm tag None true s4 = (Ok tt, s')
       ∧ (∀ o1 w1, exec q (world s4) = (o1, 0, w1) →
            ∃ o2 w2 o3 w3,
              exec d w1 = (o2, 0, w2) ∧ exec q w2 = (o3, 1, w3)
              ∧ s' = after (after (after s4 q 0 w1) d 0 w2) q 1 w3
              ∧ destroys s' = S (destroys s0)))
  ∧ (destroys s' ≠ destroys s0 →
     destroys s' = S (destroys s0) ∧ ∃ s4, before_destroy s4)
  ∧ (∀ s1 n s2,
       DockerComposeManager.stop_all s0 = (Ok tt, s1) →
       ZFSManager.create_snapshot zm (Some tag) None true s1 = (Ok n, s2) →
       (∀ e s3, DockerComposeManager.up_all s2 = (Raise e, s3) →
          r = Raise e ∧ s' = reported self s3 ∧ destroys s' = destroys s0)
       ∧ (∀ s3 e s4, DockerComposeManager.up_all s2 = (Ok tt, s3) →
            BackupOrchestrator._orchestrate_dataset_backups self s3 = (Raise e, s4) →
            r = Raise e ∧ s' = reported self s4 ∧ destroys s' = destroys s0)).
Proof.
  intros Eb zm tag q d destroys before_destroy. subst zm tag.
  apply backup_all_run in Eb.
  assert (∀ x s1, DockerComposeManager.stop_all s0 = (x, s1) →
          destroys s1 = destroys s0) as Q1.
  { intros x s1 E. pose proof (quiet_destroy_stop_all s0) as Q. by rewrite E in Q. }
  assert (∀ s1 x s2, ZFSManager.create_snapshot (BackupOrchestrator.zfs_manager self) (Some (BackupOrchestrator.snapshot_tag self)) None true s1 = (x, s2) →
          destroys s2 = destroys s1) as Q2.
  { intros s1 x s2 E.
    pose proof (quiet_destroy_create_snapshot (BackupOrchestrator.zfs_manager self) (Some (BackupOrchestrator.snapshot_tag self)) None true s1) as Q.
    by rewrite E in Q. }
  assert (∀ s2 x s3, DockerComposeManager.up_all s2 = (x, s3) →
          destroys s3 = destroys s2) as Q3.
  { intros s2 x s3 E. pose proof (quiet_destroy_up_all s2) as Q. by rewrite E in Q. }
  assert (∀ s3 x s4, BackupOrchestrator._orchestrate_dataset_backups self s3 = (x, s4) →
          destroys s4 = destroys s3) as Q4.
  { intros s3 x s4 E. pose proof (quiet_destroy_orchestrate self s3) as Q.
    by rewrite E in Q. }
  assert (∀ s4 x s5, ZFSManager.destroy_snapshot (BackupOrchestrator.zfs_manager self) (BackupOrchestrator.snapshot_tag self) None true s4 = (x, s5) →
          (destroys s4 ≤ destroys s5 ≤ S (destroys s4))%nat) as Q5.
  { intros s4 x s5 E.
    pose proof (destroy_snapshot_at_most_once (BackupOrchestrator.zfs_manager self) (BackupOrchestrator.snapshot_tag self) None true s4) as Q.
    by rewrite E in Q. }
  assert (∀ s1 n s2 s3 s4,
            DockerComposeManager.stop_all s0 = (Ok tt, s1) →
            ZFSManager.create_snapshot (BackupOrchestrator.zfs_manager self) (Some (BackupOrchestrator.snapshot_tag self)) None true s1 = (Ok n, s2) →
            DockerComposeManager.up_all s2 = (Ok tt, s3) →
            BackupOrchestrator._orchestrate_dataset_backups self s3 = (Ok tt, s4) →
            before_destroy s4) as Inv.
  { intros s1 n s2 s3 s4 F1 F2 F3 F4.
    destruct (orchestrate_ok_inv _ _ _ F4) as (ds & sa & sb & _ & Eg & Ea & Ec).
    exists s1, n, s2, s3, ds, sa, sb. split_and!; try done.
    - intros x Hx. split.
      + by apply (for_each_ok_all _ _ _ _ Ea).
      + by apply (for_each_ok_all
                    (λ y, BackupOrchestrator._check_single_repository self
                            (BackupOrchestrator._get_repo_path self y)) _ _ _ Ec x).
    - by rewrite (Q4 _ _ _ F4), (Q3 _ _ _ F3), (Q2 _ _ _ F2), (Q1 _ _ F1). }
  assert (∀ s, destroys (reported self s) = destroys s) as Qr.
  { intros s. by apply count_reported. }
  destruct Eb as
    [e s1 F1 | s1 e s2 x s3 F1 F2 F3 | s1 n s2 e s3 F1 F2 F3
    | s1 n s2 s3 e s4 F1 F2 F3 F4 | s1 n s2 s3 s4 e s5 F1 F2 F3 F4 F5
    | s1 n s2 s3 s4 s5 F1 F2 F3 F4 F5].
  - (* the stop step failed *)
    split_and!; [done | by rewrite (Q1 _ _ F1) |].
    intros ? ? ? G1. rewrite F1 in G1. done.
  - (* the snapshot step failed *)
    split_and!; [done | by rewrite (Q3 _ _ _ F3), (Q2 _ _ _ F2), (Q1 _ _ F1) |].
    intros ? ? ? G1 G2. rewrite F1 in G1. simplify_eq. rewrite F2 in G2. done.
  - (* the restart step failed *)
    assert (destroys (reported self s3) = destroys s0) as Hsame
      by by rewrite Qr, (Q3 _ _ _ F3), (Q2 _ _ _ F2), (Q1 _ _ F1).
    split_and!; [done | done |].
    intros ? ? ? G1 G2. rewrite F1 in G1. simplify_eq.
    rewrite F2 in G2. simplify_eq. split.
    + intros e' s3' G3. rewrite F3 in G3. by simplify_eq.
    + intros s3' e' s4' G3. rewrite F3 in G3. done.
  - (* the dataset backups failed *)
    assert (destroys (reported self s4) = destroys s0) as Hsame
      by by rewrite Qr, (Q4 _ _ _ F4), (Q3 _ _ _ F3), (Q2 _ _ _ F2), (Q1 _ _ F1).
    split_and!; [done | done |].
    intros ? ? ? G1 G2. rewrite F1 in G1. simplify_eq.
    rewrite F2 in G2. simplify_eq. split.
    + intros e' s3' G3. rewrite F3 in G3. done.
    + intros s3' e' s4' G3 G4. rewrite F3 in G3. simplify_eq.
      rewrite F4 in G4. by simplify_eq.
  - (* the destroy step failed *)
    pose proof (Inv _ _ _ _ _ F1 F2 F3 F4) as Hb.
    pose proof (Q5 _ _ _ F5) as L.
    assert (destroys s4 = destroys s0) as H4
      by by rewrite (Q4 _ _ _ F4), (Q3 _ _ _ F3), (Q2 _ _ _ F2), (Q1 _ _ F1).
    split_and!; [done | |].
    + rewrite Qr. intros Hne. split; [lia | by exists s4].
    + intros ? ? ? G1 G2. rewrite F1 in G1. simplify_eq.
      rewrite F2 in G2. simplify_eq. split.
      * intros e' s3' G3. rewrite F3 in G3. done.
      * intros s3' e' s4' G3 G4. rewrite F3 in G3. simplify_eq.
        rewrite F4 in G4. done.
  - (* success *)
    pose proof (Inv _ _ _ _ _ F1 F2 F3 F4) as Hb.
    pose proof (Q5 _ _ _ F5) as L.
    assert (destroys s4 = destroys s0) as H4
      by by rewrite (Q4 _ _ _ F4), (Q3 _ _ _ F3), (Q2 _ _ _ F2), (Q1 _ _ F1).
    split_and!.
    + intros _. exists s4. split_and!; try done.
      intros o1 w1 E1.
      destruct (destroy_snapshot_ok_inv (BackupOrchestrator.zfs_manager self) (BackupOrchestrator.snapshot_tag self) None true s4 s5 o1 w1 E1 F5)
        as (o2 & w2 & o3 & w3 & E2 & E3 & ->).
      exists o2, w2, o3, w3. split_and!; try done.
      unfold destroys in *. fold q d. rewrite !count_after, H4. done.
    + intros Hne. split; [lia | by exists s4].
    + intros ? ? ? G1 G2. rewrite F1 in G1. simplify_eq.
      rewrite F2 in G2. simplify_eq. split.
      * intros e' s3' G3. rewrite F3 in G3. done.
      * intros s3' e' s4' G3 G4. rewrite F3 in G3. simplify_eq.
        rewrite F4 in G4. done.
Qed.

Lemma for_each_app {A} (body : A → M W unit) (l1 l2 : list A) (s : State W) :
  for_each (l1 ++ l2) body s = (for_each l1 body ;;; for_each l2 body) s.
Proof.
  revert s. induction l1 as [|x l1 IH]; intros s; simpl.
  - done.
  - unfold bind. destruct (body x s) as [[[]|e] s1]; [|done].
    rewrite IH. done.
Qed.

Lemma archive_attempt_counts_once self d (s : State W) :
  count is_archive_attempt
    (trace (BackupOrchestrator._backup_single_dataset self d s).2)
  = S (count is_archive_attempt (trace s)).
Proof.
  unfold BackupOrchestrator._backup_single_dataset, call_marker.
  rewrite count_marked; [done|]. quiet_methods.
Qed.

Lemma archive_loop_counts self l (s s' : State W) :
  BackupOrchestrator.archive_loop self l s = (Ok tt, s') →
  count is_archive_attempt (trace s')
  = (length l + count is_archive_attempt (trace s))%nat.
Proof.
  unfold BackupOrchestrator.archive_loop.
  revert s. induction l as [|d l IH]; intros s; simpl.
  - by intros [= <-].
  - unfold bind. pose proof (archive_attempt_counts_once self d s) as C.
    destruct (BackupOrchestrator._backup_single_dataset self d s) as [[[]|e] s1];
      [|done].
    intros E. rewrite (IH _ E). simpl in C. lia.
Qed.

Lemma quiet_check_archive_loop self l :
  quiet (W:=W) is_check_attempt (BackupOrchestrator.archive_loop self l).
Proof. quiet_methods. Qed.

(** C7. If archiving the k-th dataset fails after the datasets before it were
    archived, the archive loop ends there with that failure, in the state the
    failing dataset left: the outcome is that of the loop over the first k
    datasets alone, exactly k datasets were attempted and the check loop was
    not started.  The failure is the outcome of [backup_all]: nothing runs
    afterwards but the report of the snapshot left behind, so the host is as
    the failing step left it; no destroy command and no archive deletion is
    issued in the run. *)
Theorem archive_loop_fails_fast self pre d post (s sk s' : State W) e :
  BackupOrchestrator.archive_loop self pre s = (Ok tt, sk) →
  BackupOrchestrator._backup_single_dataset self d sk = (Raise e, s') →
  BackupOrchestrator.archive_loop self (pre ++ d :: post) s = (Raise e, s')
  ∧ BackupOrchestrator.archive_loop self (pre ++ d :: post) s
    = BackupOrchestrator.archive_loop self (pre ++ [d]) s
  ∧ count is_archive_attempt (trace s')
    = (length pre + 1 + count is_archive_attempt (trace s))%nat
  ∧ count is_check_attempt (trace s') = count is_check_attempt (trace s)
  ∧ (∀ sg,
       ZFSManager.get_datasets (BackupOrchestrator.zfs_manager self) sg
         = (Ok (pre ++ d :: post), s) →
       BackupOrchestrator._orchestrate_dataset_backups self sg = (Raise e, s')
       ∧ (∀ s0 s1 n s2,
            DockerComposeManager.stop_all s0 = (Ok tt, s1) →
            ZFSManager.create_snapshot (BackupOrchestrator.zfs_manager self)
              (Some (BackupOrchestrator.snapshot_tag self)) None true s1 = (Ok n, s2) →
            DockerComposeManager.up_all s2 = (Ok tt, sg) →
            BackupOrchestrator.backup_all self s0 = (Raise e, reported self s')
            ∧ world (reported self s') = world s'
            ∧ count is_zfs_destroy (trace (reported self s'))
              = count is_zfs_destroy (trace s0)
            ∧ count is_borg_delete (trace (reported self s'))
              = count is_borg_delete (trace s0))).
Proof.
  intros Epre Ed.
  assert (∀ post', BackupOrchestrator.archive_loop self (pre ++ d :: post') s
                   = (Raise e, s')) as Hloop.
  { intros post'. unfold BackupOrchestrator.archive_loop in *.
    rewrite for_each_app. unfold bind. rewrite Epre. simpl. unfold bind.
    by rewrite Ed. }
  split_and!.
  - apply Hloop.
  - by rewrite (Hloop post), (Hloop []).
  - pose proof (archive_attempt_counts_once self d sk) as C. rewrite Ed in C.
    simpl in C. rewrite C, (archive_loop_counts _ _ _ _ Epre). lia.
  - pose proof (quiet_check_archive_loop self (pre ++ d :: post) s) as Q.
    by rewrite Hloop in Q.
  - intros sg Eg.
    assert (BackupOrchestrator._orchestrate_dataset_backups self sg = (Raise e, s'))
      as Eo.
    { unfold BackupOrchestrator._orchestrate_dataset_backups, bind. rewrite Eg.
      destruct (pre ++ d :: post) eqn:El; [by destruct pre|].
      rewrite <- El. by rewrite Hloop. }
    split; [done|]. intros s0 s1 n s2 E1 E2 E3.
    assert (BackupOrchestrator.backup_all self s0 = (Raise e, reported self s'))
      as Eb.
    { unfold BackupOrchestrator.backup_all, BackupOrchestrator.backup_all_try.
      by rewrite E1, E2, E3, Eo. }
    split_and!; [done | done | |].
    + rewrite count_reported by done.
      pose proof (quiet_destroy_stop_all s0) as C1. rewrite E1 in C1.
      pose proof (quiet_destroy_create_snapshot (BackupOrchestrator.zfs_manager self)
                    (Some (BackupOrchestrator.snapshot_tag self)) None true s1) as C2.
      rewrite E2 in C2.
      pose proof (quiet_destroy_up_all s2) as C3. rewrite E3 in C3.
      pose proof (quiet_destroy_orchestrate self sg) as C4. rewrite Eo in C4.
      simpl in *. congruence.
    + rewrite count_reported by done.
      destruct (quiet_delete_backup_all_steps
                  (BackupOrchestrator.zfs_manager self)) as (D1 & D2 & D3 & _ & D5).
      pose proof (D1 s0) as C1. rewrite E1 in C1.
      pose proof (D3 (Some (BackupOrchestrator.snapshot_tag self)) None true s1) as C2.
      rewrite E2 in C2.
      pose proof (D2 s2) as C3. rewrite E3 in C3.
      pose proof (D5 self sg) as C4. rewrite Eo in C4.
      simpl in *. congruence.
Qed.

End Pipeline.

(** ** Exporting the recovery key *)

Section RecoveryKey.
Context {W : Type} `{Host W}.

(** Deleting with the failure logged: the call always returns; the file is
    gone if the host reported no error. *)
Lemma unlink_logged_unfold (path : string) (s : State W) :
  BorgBackupRepoManager.unlink_logged path s
  = (Ok tt, mkState (unlink path (world s)).2 (heap s)
              (EvUnlink path (bool_decide ((unlink path (world s)).1 = None))
               :: trace s)).
Proof.
  unfold BorgBackupRepoManager.unlink_logged, try_except,
    BorgBackupRepoManager.fs_unlink.
  by destruct (unlink path (world s)) as [[msg|] w'].
Qed.

Lemma count_failed_unlink_cons path (ok : bool) (t : list event) :
  count is_failed_unlink (EvUnlink path ok :: t)
  = ((if ok then 0 else 1) + count is_failed_unlink t)%nat.
Proof. rewrite count_cons. by destruct ok. Qed.

(** When the destination directory cannot be created, nothing else happens:
    the error is raised and a file already at the destination stays. *)
Lemma export_recovery_key_mkdir_fails self key (s : State W) msg w0 :
  mkdir_parents (path_parent key) (world s) = (Some msg, w0) →
  BorgBackupRepoManager.export_recovery_key self key s
  = (Raise (OSError msg), mkState w0 (heap s) (trace s)).
Proof.
  intros E. unfold BorgBackupRepoManager.export_recovery_key, bind,
    BorgBackupRepoManager.fs_mkdir. by rewrite E.
Qed.

(** The whole of a call that got past the creation of the destination
    directory, from the outcomes of the two processes it may run. *)
Lemma export_recovery_key_run self key (s : State W) w0 o1 c1 w1 o2 c2 w2 :
  mkdir_parents (path_parent key) (world s) = (None, w0) →
  let x := export_command (env_of self s) (BorgBackupRepoManager.repo_path self) key in
  let v := verify_command (env_of self s) key in
  exec x w0 = (o1, c1, w1) →
  exec v w1 = (o2, c2, w2) →
  let l := fresh_loc (heap s) in
  let h' := <[l := <["BORG_KEY_FILE" := key]> (env_of self s)]>
              (<[l := env_of self s]> (heap s)) in
  let sx := mkState w1 (heap s) (EvExec x c1 :: trace s) in
  let sv := mkState w2 h' (EvExec v c2 :: EvExec x 0 :: trace s) in
  BorgBackupRepoManager.export_recovery_key self key s
  = if bool_decide (c1 = 0)
    then
      if bool_decide (c2 = 0) then (Ok tt, sv)
      else if stderr_decodes v w2
      then (Raise (ErrorReturnCode c2 (argv v)),
            mkState (unlink key w2).2 h'
              (EvUnlink key (bool_decide ((unlink key w2).1 = None)) :: trace sv))
      else (Raise UnicodeDecodeError, sv)
    else
      if stdout_decodes x w1 && stderr_decodes x w1
      then (Raise (ErrorReturnCode c1 (argv x)),
            if path_exists key w1
            then mkState (unlink key w1).2 (heap s)
                   (EvUnlink key (bool_decide ((unlink key w1).1 = None)) :: trace sx)
            else sx)
      else (Raise UnicodeDecodeError, sx).
Proof.
  intros Emk x v Ex Ev l h' sx sv.
  set (s0 := mkState w0 (heap s) (trace s)).
  assert (env_of self s0 = env_of self s) as Henv by done.
  pose proof (borg_execute_command_unfold self
                ["key"; "export"; "--paper"; BorgBackupRepoManager.repo_path self; key]
                s0 o1 c1 w1) as Hx.
  simpl in Hx. rewrite Henv in Hx.
  fold (export_command (env_of self s) (BorgBackupRepoManager.repo_path self) key) in Hx.
  fold x in Hx. specialize (Hx Ex).
  unfold BorgBackupRepoManager.export_recovery_key, bind,
    BorgBackupRepoManager.fs_mkdir. rewrite Emk. fold s0.
  unfold try_except at 1. unfold bind. rewrite Hx. unfold command_outcome.
  case_bool_decide as Hc1.
  - subst c1. simpl.
    unfold dict_copy, dict_set, try_except, bind, deref, sh_run. simpl.
    fold l. rewrite !lookup_insert_eq. simpl.
    fold (env_of self s). fold (verify_command (env_of self s) key). fold v.
    rewrite Ev. fold h'.
    destruct (decide (c2 = 0)) as [->|Hc2].
    + rewrite (bool_decide_eq_true_2 (0 ∈ [0])) by set_solver.
      by rewrite bool_decide_eq_true_2.
    + rewrite (bool_decide_eq_false_2 (c2 ∈ [0])) by set_solver.
      rewrite (bool_decide_eq_false_2 (c2 = 0)) by done.
      unfold decode_stderr. simpl.
      destruct (stderr_decodes v w2); [|done].
      by rewrite unlink_logged_unfold.
  - destruct (stdout_decodes x w1 && stderr_decodes x w1); simpl; [|done].
    unfold BorgBackupRepoManager.fs_exists. simpl.
    destruct (path_exists key w1) eqn:Epe; simpl; [|done].
    by rewrite unlink_logged_unfold.
Qed.

(** C3 (as amended). A call of [export_recovery_key], on a host where a
    deletion that reports no error removes the file, the key export of the
    call leaves a file at its destination when it exits with zero, and the
    verification listing leaves the files alone.  When the destination directory cannot be created, that error is
    raised and nothing else happens.  Otherwise the call returns normally
    exactly when the export and the verification listing (started with the
    exported key file in its environment) both exit with zero, and then the
    key file is at the destination and nothing was deleted.  When the export
    fails with error output that decodes, its error is re-raised after a file
    present at the destination was deleted; when the verification fails with
    error output that decodes, its error is re-raised after the deletion of
    the exported file was attempted.  In both cases no file is left at the
    destination unless the deletion itself failed, which is logged and
    otherwise ignored. *)
Theorem export_recovery_key_contract self key (s : State W) m w0 :
  let x := export_command (env_of self s) (BorgBackupRepoManager.repo_path self) key in
  let v := verify_command (env_of self s) key in
  (∀ p w w', unlink p w = (None, w') → path_exists p w' = false) →
  (∀ out w', exec x w0 = (out, 0, w') → path_exists key w' = true) →
  (∀ w out code w', exec v w = (out, code, w') → path_exists key w' = path_exists key w) →
  mkdir_parents (path_parent key) (world s) = (m, w0) →
  let r := (BorgBackupRepoManager.export_recovery_key self key s).1 in
  let s' := (BorgBackupRepoManager.export_recovery_key self key s).2 in
  let clean :=
    count is_failed_unlink (trace s') = count is_failed_unlink (trace s) in
  (∀ msg, m = Some msg →
     r = Raise (OSError msg) ∧ s' = mkState w0 (heap s) (trace s))
  ∧ (m = None → ∀ o1 c1 w1, exec x w0 = (o1, c1, w1) →
       (c1 ≠ 0 → stdout_decodes x w1 && stderr_decodes x w1 = true →
          r = Raise (ErrorReturnCode c1 (argv x))
          ∧ (path_exists key w1 = true →
             ∃ ok, trace s' = EvUnlink key ok :: EvExec x c1 :: trace s)
          ∧ (path_exists key w1 = false →
             s' = mkState w1 (heap s) (EvExec x c1 :: trace s))
          ∧ (clean → path_exists key (world s') = false))
       ∧ (c1 = 0 → ∀ o2 c2 w2, exec v w1 = (o2, c2, w2) →
            (c2 = 0 →
               r = Ok tt ∧ world s' = w2
               ∧ trace s' = EvExec v 0 :: EvExec x 0 :: trace s
               ∧ path_exists key (world s') = true)
            ∧ (c2 ≠ 0 → stderr_decodes v w2 = true →
                 r = Raise (ErrorReturnCode c2 (argv v))
                 ∧ (∃ ok, trace s'
                          = EvUnlink key ok :: EvExec v c2 :: EvExec x 0 :: trace s)
                 ∧ (clean → path_exists key (world s') = false)))
       ∧ (is_ok r = true ↔ c1 = 0 ∧ (exec v w1).1.2 = 0)).
Proof.
  intros x v Hunlink Hexport Hlist Emk r s' clean. split.
  - intros msg ->. unfold r, s'.
    by rewrite (export_recovery_key_mkdir_fails _ _ _ _ _ Emk).
  - intros -> o1 c1 w1 Ex.
    destruct (exec v w1) as [[o2 c2] w2] eqn:Ev.
    pose proof (export_recovery_key_run self key s w0 o1 c1 w1 o2 c2 w2 Emk Ex Ev)
      as Hrun.
    cbv zeta in Hrun. fold x v in Hrun.
    unfold clean, r, s'. rewrite Hrun. clear clean r s' Hrun.
    split_and!.
    + intros Hc1 Hdec. rewrite (bool_decide_eq_false_2 _ Hc1), Hdec. simpl.
      destruct (path_exists key w1) eqn:Epe; simpl.
      * split_and!; [done | by eexists | done |].
        rewrite count_failed_unlink_cons, count_cons. simpl.
        destruct (unlink key w1) as [[msg|] w3] eqn:Eu; simpl.
        -- lia.
        -- intros _. by eapply Hunlink.
      * by split_and!.
    + intros -> o2' c2' w2' [= <- <- <-]. rewrite bool_decide_eq_true_2 by done.
      split.
      * intros ->. rewrite bool_decide_eq_true_2 by done. simpl.
        split_and!; try done.
        rewrite (Hlist _ _ _ _ Ev). by eapply Hexport.
      * intros Hc2 Hdec. rewrite (bool_decide_eq_false_2 _ Hc2), Hdec. simpl.
        split_and!; [done | by eexists |].
        rewrite count_failed_unlink_cons, !count_cons. simpl.
        destruct (unlink key w2) as [[msg|] w3] eqn:Eu; simpl.
        -- lia.
        -- intros _. by eapply Hunlink.
    + simpl. repeat case_bool_decide; repeat case_match; simpl; naive_solver.
Qed.

End RecoveryKey.

(** ** The simulated host keeps the contracts of the tools *)

Section SimFacts.

Lemma sim_exec_snapshot_query n w :
  exec (snapshot_query n) w
  = ([], if sim_snapshot_present n w then 0 else 1, Sim.tick w).
Proof. done. Qed.

Lemma sim_exec_snapshot_command r n w :
  sim_snapshot_present n w = false →
  exec (snapshot_command r n) w
  = ([], 0, Sim.tick (Sim.set_snapshots (λ S, Sim.snapshot_names w r n ∪ S) w)).
Proof.
  unfold sim_snapshot_present. intros E.
  destruct r; simpl; unfold Sim.sim_exec, Sim.run, snapshot_command,
    destroy_command; simpl; by rewrite E.
Qed.

Lemma sim_exec_destroy_command r n w :
  sim_snapshot_present n w = true →
  exec (destroy_command r n) w
  = ([], 0, Sim.tick (Sim.set_snapshots (λ S, S ∖ Sim.snapshot_names w r n) w)).
Proof.
  unfold sim_snapshot_present. intros E.
  destruct r; simpl; unfold Sim.sim_exec, Sim.run, snapshot_command,
    destroy_command; simpl; by rewrite E.
Qed.

Lemma sim_storage_ok : StorageToolOk sim_snapshot_present.
Proof.
  split.
  - intros n w. eexists _, _. by rewrite sim_exec_snapshot_query.
  - intros r n w E. eexists _, _. rewrite sim_exec_snapshot_command by done.
    split; [done|]. unfold sim_snapshot_present, Sim.snapshot_names. simpl.
    apply bool_decide_eq_true_2. set_solver.
  - intros r n w E. eexists _, _. rewrite sim_exec_destroy_command by done.
    split; [done|]. unfold sim_snapshot_present, Sim.snapshot_names. simpl.
    apply bool_decide_eq_false_2. set_solver.
Qed.

Lemma sim_exec_repository_query env w :
  is_Some (env !! "BORG_REPO") →
  exec (repository_query env) w
  = ([], if sim_repo_present env w then 0 else 2, Sim.tick w).
Proof.
  intros [repo E]. unfold sim_repo_present. simpl.
  unfold Sim.sim_exec, Sim.run, repository_query. simpl.
  unfold Sim.borg. rewrite E.
  destruct (Sim.repos w !! repo) eqn:Er; simpl; done.
Qed.

Lemma sim_exec_init_command env repo w :
  env !! "BORG_REPO" = Some repo →
  Sim.repos w !! repo = None →
  exec (init_command env) w
  = ([], 0, Sim.tick (Sim.set_repos (λ R, <[repo := []]> R) w)).
Proof.
  intros E Er. simpl. unfold Sim.sim_exec, Sim.run, init_command. simpl.
  unfold Sim.borg. by rewrite E, Er.
Qed.

Lemma sim_archive_ok : ArchiveToolOk sim_repo_present.
Proof.
  split.
  - intros env w Hr. eexists _, _. by rewrite sim_exec_repository_query.
  - intros env w [repo E] Hp. unfold sim_repo_present in Hp. rewrite E in Hp.
    apply bool_decide_eq_false_1 in Hp.
    assert (Sim.repos w !! repo = None) as Er.
    { destruct (Sim.repos w !! repo) eqn:Er; [|done]. destruct Hp. by eexists. }
    eexists _, _. rewrite (sim_exec_init_command env repo w E Er).
    split; [done|]. unfold sim_repo_present. rewrite E. simpl.
    apply bool_decide_eq_true_2. rewrite lookup_insert_eq. by eexists.
Qed.

Lemma sim_unlink_ok (p : string) (w w' : Sim.world) :
  unlink p w = (None, w') → path_exists p w' = false.
Proof.
  simpl. unfold Sim.sim_unlink. case_bool_decide; [done|].
  destruct (Sim.files w !! p) eqn:Ef; [|done].
  intros [= <-]. simpl. apply bool_decide_eq_false_2.
  rewrite lookup_delete_eq. by intros [? ?].
Qed.

End SimFacts.

(** ** Steps of the pipeline in terms of the processes they run *)

Section Steps.
Context {W : Type} `{Host W}.

Lemma heap_alloc_subseteq (h : gmap nat dict) (d : dict) :
  h ⊆ <[fresh_loc h := d]> h.
Proof. apply insert_subseteq, fresh_loc_is_fresh. Qed.

(** Constructing a manager from a base environment that has the two
    required variables: the manager owns a new dict, the base with
    [BORG_REPO] added. *)
Lemma borg_init_unfold repo base (s : State W) d pass rsh :
  heap s !! base = Some d →
  d !! "BORG_PASSPHRASE" = Some pass → pass ≠ "" →
  d !! "BORG_RSH" = Some rsh → rsh ≠ "" →
  BorgBackupRepoManager.__init__ repo base s
  = (Ok (BorgBackupRepoManager.mk repo (fresh_loc (heap s))),
     mkState (world s) (<[fresh_loc (heap s) := <["BORG_REPO" := repo]> d]> (heap s))
             (trace s)).
Proof.
  intros Hb Hp Hpne Hr Hrne.
  unfold BorgBackupRepoManager.__init__, bind, deref. simpl.
  rewrite Hb. simpl. rewrite Hp, Hr. simpl.
  apply String.eqb_neq in Hpne, Hrne. rewrite Hpne, Hrne. simpl.
  unfold dict_copy, dict_set. simpl. rewrite Hb. simpl.
  rewrite lookup_insert_eq. simpl. by rewrite insert_insert_eq.
Qed.

Lemma create_archive_unfold self name src comp excl (s : State W) out w' :
  exec (BorgBackupRepoManager.borg_with (env_of self s)
          ["create"; "--verbose"; "--stats"; "--progress";
           "--compression=" +:+ comp; "--exclude-from=" +:+ excl;
           "::" +:+ name; src]) (world s) = (out, 0, w') →
  BorgBackupRepoManager.create_archive self name src comp excl s
  = (Ok tt, after s (BorgBackupRepoManager.borg_with (env_of self s)
                       ["create"; "--verbose"; "--stats"; "--progress";
                        "--compression=" +:+ comp; "--exclude-from=" +:+ excl;
                        "::" +:+ name; src]) 0 w').
Proof.
  intros E. unfold BorgBackupRepoManager.create_archive, bind.
  rewrite borg_execute_command_fg_unfold. by rewrite (sh_run_zero _ _ _ _ E).
Qed.

Lemma prune_archives_unfold self policy (s : State W) out w' :
  exec (BorgBackupRepoManager.borg_with (env_of self s)
          (["prune"; "--verbose"; "--list"; "--show-rc"; "--progress"] ++ policy))
       (world s) = (out, 0, w') →
  BorgBackupRepoManager.prune_archives self policy s
  = (Ok tt, after s (BorgBackupRepoManager.borg_with (env_of self s)
                       (["prune"; "--verbose"; "--list"; "--show-rc"; "--progress"]
                        ++ policy)) 0 w').
Proof.
  intros E. unfold BorgBackupRepoManager.prune_archives, bind.
  rewrite borg_execute_command_fg_unfold. by rewrite (sh_run_zero _ _ _ _ E).
Qed.

Lemma check_repository_unfold self verify_data (s : State W) d out w' :
  heap s !! BorgBackupRepoManager.borg_env self = Some d →
  exec (BorgBackupRepoManager.borg_with (check_env d) (check_args verify_data))
       (world s) = (out, 0, w') →
  ∃ h', heap s ⊆ h'
        ∧ BorgBackupRepoManager.check_repository self verify_data s
          = (Ok tt, mkState w' h'
                      (EvExec (BorgBackupRepoManager.borg_with (check_env d)
                                 (check_args verify_data)) 0 :: trace s)).
Proof.
  intros Hd Ex. unfold check_env, check_args in Ex. simpl in Ex.
  unfold BorgBackupRepoManager.check_repository, bind, dict_copy, dict_get.
  simpl. rewrite Hd. simpl. rewrite lookup_insert_eq. simpl.
  unfold check_env, check_args.
  destruct (Py.contains "ssh " (default "" (d !! "BORG_RSH"))).
  - unfold dict_set, try_except, bind, deref, sh_run. simpl.
    rewrite !lookup_insert_eq. simpl. rewrite Ex.
    rewrite bool_decide_eq_true_2 by set_solver. simpl.
    eexists. split; [|reflexivity].
    rewrite insert_insert_eq. apply heap_alloc_subseteq.
  - unfold ret, try_except, bind, deref, sh_run. simpl.
    rewrite !lookup_insert_eq. simpl. rewrite Ex.
    rewrite bool_decide_eq_true_2 by set_solver. simpl.
    eexists. split; [|reflexivity]. apply heap_alloc_subseteq.
Qed.

End Steps.

(** ** A full run on the simulated host *)

Section SimRun.
Variable w : Sim.world.

Lemma sim_exec_compose f dir cmd args S R n :
  exec (DockerComposeManager.compose f dir cmd args) (Sim.with_state w S R n)
  = ([], 0, Sim.with_state w S R (Datatypes.S n)).
Proof. done. Qed.

Lemma sim_exec_query x S R n :
  exec (snapshot_query x) (Sim.with_state w S R n)
  = ([], if bool_decide (x ∈ S) then 0 else 1, Sim.with_state w S R (Datatypes.S n)).
Proof. done. Qed.

Lemma sim_exec_snapshot x S R n :
  x ∉ S →
  exec (snapshot_command true x) (Sim.with_state w S R n)
  = ([], 0, Sim.with_state w (Sim.snapshot_names w true x ∪ S) R (Datatypes.S n)).
Proof.
  intros Hx. rewrite sim_exec_snapshot_command; [done|].
  by apply bool_decide_eq_false_2.
Qed.

Lemma sim_exec_destroy x S R n :
  x ∈ S →
  exec (destroy_command true x) (Sim.with_state w S R n)
  = ([], 0, Sim.with_state w (S ∖ Sim.snapshot_names w true x) R (Datatypes.S n)).
Proof.
  intros Hx. rewrite sim_exec_destroy_command; [done|].
  by apply bool_decide_eq_true_2.
Qed.

Lemma sim_exec_info env repo S R n :
  env !! "BORG_REPO" = Some repo →
  exec (repository_query env) (Sim.with_state w S R n)
  = ([], if bool_decide (is_Some (R !! repo)) then 0 else 2,
     Sim.with_state w S R (Datatypes.S n)).
Proof.
  intros E. rewrite sim_exec_repository_query by eauto.
  unfold sim_repo_present. by rewrite E.
Qed.

Lemma sim_exec_init env repo S R n :
  env !! "BORG_REPO" = Some repo → R !! repo = None →
  exec (init_command env) (Sim.with_state w S R n)
  = ([], 0, Sim.with_state w S (<[repo := []]> R) (Datatypes.S n)).
Proof. intros E Er. by rewrite (sim_exec_init_command env repo). Qed.

Lemma sim_exec_create env repo archives a1 a2 a3 a4 a5 name src S R n :
  env !! "BORG_REPO" = Some repo → R !! repo = Some archives → name ∉ archives →
  exec (BorgBackupRepoManager.borg_with env
          ["create"; a1; a2; a3; a4; a5; "::" +:+ name; src])
       (Sim.with_state w S R n)
  = ([], 0, Sim.with_state w S (<[repo := archives ++ [name]]> R) (Datatypes.S n)).
Proof.
  intros E Er Hn. simpl. unfold Sim.sim_exec, Sim.run. simpl.
  unfold Sim.borg. rewrite E. simpl. rewrite Er. simpl.
  change ("::" +:+ name) with (String ":" (String ":" name)).
  by rewrite bool_decide_eq_false_2.
Qed.

Lemma sim_exec_prune env repo archives policy S R n :
  env !! "BORG_REPO" = Some repo → R !! repo = Some archives →
  exec (BorgBackupRepoManager.borg_with env
          (["prune"; "--verbose"; "--list"; "--show-rc"; "--progress"] ++ policy))
       (Sim.with_state w S R n)
  = ([], 0, Sim.with_state w S (<[repo := Sim.retain w policy archives]> R)
              (Datatypes.S n)).
Proof.
  intros E Er. simpl. unfold Sim.sim_exec, Sim.run. simpl.
  unfold Sim.borg. rewrite E. simpl. by rewrite Er.
Qed.

Lemma sim_exec_check env repo archives verify_data S R n :
  env !! "BORG_REPO" = Some repo → R !! repo = Some archives →
  exec (BorgBackupRepoManager.borg_with env (check_args verify_data))
       (Sim.with_state w S R n)
  = ([], 0, Sim.with_state w S R (Datatypes.S n)).
Proof.
  intros E Er. simpl. unfold Sim.sim_exec, Sim.run. simpl.
  unfold Sim.borg. rewrite E. simpl. by rewrite Er.
Qed.

Lemma sim_for_each_compose cmd args l S R :
  ∀ s, sim_at w S R s →
  ∃ s', for_each l
          (λ '(compose_file, project_dir),
             try_except
               (sh_run (DockerComposeManager.compose compose_file project_dir cmd args)
                  [0] ;;; ret tt)
               (λ e, match e with
                     | ErrorReturnCode _ _ => Some (raise e)
                     | _ => None
                     end)) s = (Ok tt, s')
        ∧ sim_at w S R s' ∧ heap s' = heap s.
Proof.
  induction l as [|[f dir] l IH]; intros s [n Hw]; simpl.
  - exists s. split_and!; [done | by exists n | done].
  - unfold bind at 1. unfold try_except, bind.
    rewrite (sh_run_zero (DockerComposeManager.compose f dir cmd args) s []
               (Sim.with_state w S R (Datatypes.S n))).
    2: { rewrite Hw. apply sim_exec_compose. }
    simpl.
    destruct (IH (after s (DockerComposeManager.compose f dir cmd args) 0
                    (Sim.with_state w S R (Datatypes.S n)))) as (s' & E & Hat & Hh).
    { by eexists. }
    exists s'. by split_and!.
Qed.

Lemma sim_run_command_on_all cmd args S R (s : State Sim.world) :
  sim_at w S R s →
  ∃ s', DockerComposeManager._run_command_on_all cmd args [0] s = (Ok tt, s')
        ∧ sim_at w S R s' ∧ heap s' = heap s.
Proof.
  intros Hat. unfold DockerComposeManager._run_command_on_all, bind,
    DockerComposeManager._find_compose_files.
  destruct (find_compose_files (world s)) as [|x l] eqn:El.
  - by exists s.
  - apply sim_for_each_compose, Hat.
Qed.

Lemma sim_stop_all S R (s : State Sim.world) :
  sim_at w S R s →
  ∃ s', DockerComposeManager.stop_all s = (Ok tt, s')
        ∧ sim_at w S R s' ∧ heap s' = heap s.
Proof.
  intros Hat. unfold DockerComposeManager.stop_all, call_marker, bind, emit.
  apply (sim_run_command_on_all "stop" [] S R
           (mkState (world s) (heap s) (EvCall "stop_all" [] :: trace s))), Hat.
Qed.

Lemma sim_up_all S R (s : State Sim.world) :
  sim_at w S R s →
  ∃ s', DockerComposeManager.up_all s = (Ok tt, s')
        ∧ sim_at w S R s' ∧ heap s' = heap s.
Proof.
  intros Hat. unfold DockerComposeManager.up_all, call_marker, bind, emit.
  apply (sim_run_command_on_all "up" ["-d"; "--build"] S R
           (mkState (world s) (heap s) (EvCall "up_all" [] :: trace s))), Hat.
Qed.

Lemma sim_snapshot_exists x S R (s : State Sim.world) :
  sim_at w S R s →
  ∃ s', ZFSManager._snapshot_exists x s = (Ok (bool_decide (x ∈ S)), s')
        ∧ sim_at w S R s' ∧ heap s' = heap s.
Proof.
  intros [n Hw].
  rewrite (snapshot_exists_unfold x s [] (if bool_decide (x ∈ S) then 0 else 1)
             (Sim.with_state w S R (Datatypes.S n))).
  2: { rewrite Hw. apply sim_exec_query. }
  exists (after s (snapshot_query x) (if bool_decide (x ∈ S) then 0 else 1)
            (Sim.with_state w S R (Datatypes.S n))).
  split_and!; [by case_bool_decide | by eexists | done].
Qed.

Lemma sim_create_snapshot self tag S R (s : State Sim.world) :
  tag ≠ "" →
  ZFSManager.full_snapshot_name self tag None ∉ S →
  sim_at w S R s →
  ∃ s', ZFSManager.create_snapshot self (Some tag) None true s
        = (Ok (ZFSManager.full_snapshot_name self tag None), s')
        ∧ sim_at w (Sim.snapshot_names w true (ZFSManager.full_snapshot_name self tag None)
                    ∪ S) R s'
        ∧ heap s' = heap s.
Proof.
  intros Ht Hx Hat. set (x := ZFSManager.full_snapshot_name self tag None) in *.
  rewrite create_snapshot_explicit_tag by done. fold x. unfold bind.
  destruct (sim_snapshot_exists x S R s Hat) as (s1 & E1 & [n1 Hw1] & Hh1).
  rewrite E1, bool_decide_eq_false_2 by done.
  rewrite (zfs_execute_command_zero ["snapshot"; "-r"; x] s1 []
             (Sim.with_state w (Sim.snapshot_names w true x ∪ S) R (Datatypes.S n1))).
  2: { rewrite Hw1. by apply sim_exec_snapshot. }
  change (ZFSManager.zfs _) with (snapshot_command true x).
  destruct (sim_snapshot_exists x (Sim.snapshot_names w true x ∪ S) R
              (after s1 (snapshot_command true x) 0
                 (Sim.with_state w (Sim.snapshot_names w true x ∪ S) R (Datatypes.S n1))))
    as (s2 & E2 & Hat2 & Hh2).
  { by eexists. }
  rewrite E2, bool_decide_eq_true_2.
  2: { unfold Sim.snapshot_names. set_solver. }
  exists s2. split_and!; [done | done |]. by rewrite Hh2.
Qed.

Lemma sim_destroy_snapshot self tag S R (s : State Sim.world) :
  ZFSManager.full_snapshot_name self tag None ∈ S →
  sim_at w S R s →
  ∃ s', ZFSManager.destroy_snapshot self tag None true s = (Ok tt, s')
        ∧ sim_at w (S ∖ Sim.snapshot_names w true
                          (ZFSManager.full_snapshot_name self tag None)) R s'
        ∧ heap s' = heap s.
Proof.
  intros Hx Hat. set (x := ZFSManager.full_snapshot_name self tag None) in *.
  unfold ZFSManager.destroy_snapshot, bind. fold x.
  destruct (sim_snapshot_exists x S R s Hat) as (s1 & E1 & [n1 Hw1] & Hh1).
  rewrite E1, bool_decide_eq_true_2 by done. simpl.
  rewrite (zfs_execute_command_zero ["destroy"; "-r"; x] s1 []
             (Sim.with_state w (S ∖ Sim.snapshot_names w true x) R (Datatypes.S n1))).
  2: { rewrite Hw1. by apply sim_exec_destroy. }
  change (ZFSManager.zfs _) with (destroy_command true x).
  destruct (sim_snapshot_exists x (S ∖ Sim.snapshot_names w true x) R
              (after s1 (destroy_command true x) 0
                 (Sim.with_state w (S ∖ Sim.snapshot_names w true x) R (Datatypes.S n1))))
    as (s2 & E2 & Hat2 & Hh2).
  { by eexists. }
  rewrite E2, bool_decide_eq_false_2.
  2: { unfold Sim.snapshot_names. set_solver. }
  exists s2. split_and!; [done | done |]. by rewrite Hh2.
Qed.

Lemma env_of_heap_eq self (s s' : State Sim.world) :
  heap s' = heap s → env_of self s' = env_of self s.
Proof. unfold env_of. by intros ->. Qed.

Lemma sim_initialize_absent self repo S R (s : State Sim.world) :
  sim_at w S R s →
  env_of self s !! "BORG_REPO" = Some repo →
  R !! repo = None →
  ∃ s', BorgBackupRepoManager.initialize_if_needed self s = (Ok tt, s')
        ∧ sim_at w S (<[repo := []]> R) s' ∧ heap s' = heap s.
Proof.
  intros [n Hw] He Hr.
  eexists. split; [|split].
  - rewrite (initialize_if_needed_absent self s
               [] (Sim.with_state w S R (Datatypes.S n))
               [] (Sim.with_state w S (<[repo := []]> R) (Datatypes.S (Datatypes.S n)))
               [] 0 (Sim.with_state w S (<[repo := []]> R)
                       (Datatypes.S (Datatypes.S (Datatypes.S n))))).
    + reflexivity.
    + rewrite Hw, (sim_exec_info _ repo) by done.
      rewrite bool_decide_eq_false_2; [done|]. rewrite Hr. by intros [? ?].
    + by rewrite (sim_exec_init _ repo).
    + rewrite (sim_exec_info _ repo) by done.
      rewrite bool_decide_eq_true_2; [done|]. rewrite lookup_insert_eq. by eexists.
  - by eexists.
  - done.
Qed.

Lemma sim_create_archive self repo archives name src comp excl S R
    (s : State Sim.world) :
  sim_at w S R s →
  env_of self s !! "BORG_REPO" = Some repo →
  R !! repo = Some archives → name ∉ archives →
  ∃ s', BorgBackupRepoManager.create_archive self name src comp excl s = (Ok tt, s')
        ∧ sim_at w S (<[repo := archives ++ [name]]> R) s' ∧ heap s' = heap s.
Proof.
  intros [n Hw] He Hr Hn. eexists. split; [|split].
  - apply (create_archive_unfold self name src comp excl s []).
    rewrite Hw. by apply sim_exec_create.
  - by eexists.
  - done.
Qed.

Lemma sim_prune_archives self repo archives policy S R (s : State Sim.world) :
  sim_at w S R s →
  env_of self s !! "BORG_REPO" = Some repo →
  R !! repo = Some archives →
  ∃ s', BorgBackupRepoManager.prune_archives self policy s = (Ok tt, s')
        ∧ sim_at w S (<[repo := Sim.retain w policy archives]> R) s'
        ∧ heap s' = heap s.
Proof.
  intros [n Hw] He Hr. eexists. split; [|split].
  - apply (prune_archives_unfold self policy s []).
    rewrite Hw. by apply sim_exec_prune.
  - by eexists.
  - done.
Qed.

Lemma check_env_repo (d : dict) : check_env d !! "BORG_REPO" = d !! "BORG_REPO".
Proof.
  unfold check_env. destruct (Py.contains _ _); [|done].
  by rewrite lookup_insert_ne.
Qed.

Lemma sim_check_repository self d repo archives S R (s : State Sim.world) :
  sim_at w S R s →
  heap s !! BorgBackupRepoManager.borg_env self = Some d →
  d !! "BORG_REPO" = Some repo →
  R !! repo = Some archives →
  ∃ s', BorgBackupRepoManager.check_repository self false s = (Ok tt, s')
        ∧ sim_at w S R s' ∧ heap s ⊆ heap s'.
Proof.
  intros [n Hw] Hd He Hr.
  destruct (check_repository_unfold self false s d []
              (Sim.with_state w S R (Datatypes.S n)) Hd) as (h' & Hsub & E).
  { rewrite Hw. apply (sim_exec_check _ repo archives); [|done].
    by rewrite check_env_repo. }
  eexists. split; [exact E|]. split; [by eexists | done].
Qed.

Lemma sim_backup_single_dataset self d denv pass rsh S R (s : State Sim.world) :
  sim_at w S R s →
  heap s !! Config.base_borg_env (BackupOrchestrator.config self) = Some denv →
  denv !! "BORG_PASSPHRASE" = Some pass → pass ≠ "" →
  denv !! "BORG_RSH" = Some rsh → rsh ≠ "" →
  R !! BackupOrchestrator._get_repo_path self d = None →
  (∀ x, Sim.retain w (Config.prune_policy (BackupOrchestrator.config self)) [x] = [x]) →
  ∃ s' T2,
    BackupOrchestrator._backup_single_dataset self d s = (Ok tt, s')
    ∧ sim_at w S
        (<[BackupOrchestrator._get_repo_path self d :=
             [Config.archive_prefix (BackupOrchestrator.config self) +:+ "_"
              +:+ BackupOrchestrator.snapshot_tag self +:+ "_" +:+ T2]]> R) s'
    ∧ heap s ⊆ heap s'.
Proof.
  intros Hat Hb Hp Hpne Hr Hrne HR Hret.
  set (repo := BackupOrchestrator._get_repo_path self d) in *.
  set (s1 := mkState (world s) (heap s)
               (EvCall "_backup_single_dataset" [name d] :: trace s)).
  set (archive := Config.archive_prefix (BackupOrchestrator.config self) +:+ "_"
                  +:+ BackupOrchestrator.snapshot_tag self +:+ "_"
                  +:+ strftime_now (world s)).
  set (src := BackupOrchestrator._get_snapshot_path self d).
  assert (sim_at w S R s1) as Hat1 by exact Hat.
  (* the manager and its environment *)
  set (l := fresh_loc (heap s1)).
  set (env := <["BORG_REPO" := repo]> denv).
  set (m := BorgBackupRepoManager.mk repo l).
  set (s2 := mkState (world s1) (<[l := env]> (heap s1)) (trace s1)).
  assert (BorgBackupRepoManager.__init__ repo
            (Config.base_borg_env (BackupOrchestrator.config self)) s1
          = (Ok m, s2)) as Einit
    by exact (borg_init_unfold repo _ s1 denv pass rsh Hb Hp Hpne Hr Hrne).
  assert (env_of m s2 = env) as He2.
  { unfold env_of. simpl. by rewrite lookup_insert_eq. }
  assert (env !! "BORG_REPO" = Some repo) as Her by apply lookup_insert_eq.
  destruct (sim_initialize_absent m repo S R s2) as (s3 & E3 & Hat3 & Hh3);
    [exact Hat1 | by rewrite He2 | done |].
  assert (env_of m s3 = env) as He3 by by rewrite (env_of_heap_eq m s2 s3 Hh3).
  destruct (sim_create_archive m repo [] archive src
              (Config.compression (BackupOrchestrator.config self))
              (Config.excludes_file (BackupOrchestrator.config self))
              S (<[repo := []]> R) s3) as (s4 & E4 & Hat4 & Hh4);
    [exact Hat3 | by rewrite He3 | by rewrite lookup_insert_eq | set_solver |].
  assert (env_of m s4 = env) as He4 by by rewrite (env_of_heap_eq m s3 s4 Hh4).
  destruct (sim_prune_archives m repo ([] ++ [archive])
              (Config.prune_policy (BackupOrchestrator.config self))
              S (<[repo := [] ++ [archive]]> (<[repo := []]> R)) s4)
    as (s5 & E5 & Hat5 & Hh5);
    [exact Hat4 | by rewrite He4 | by rewrite lookup_insert_eq |].
  simpl in Hat5. rewrite Hret, !insert_insert_eq in Hat5.
  exists s5, (strftime_now (world s)). split_and!.
  - unfold BackupOrchestrator._backup_single_dataset, call_marker.
    unfold bind at 1. unfold emit. fold s1.
    unfold BackupOrchestrator._build_archive_name, ZFSManager.now.
    unfold bind at 1. unfold bind at 1. unfold ret at 1.
    change (strftime_now (world s1)) with (strftime_now (world s)).
    fold archive. fold repo. fold src.
    unfold try_except, BackupOrchestrator._backup_single_snapshot, bind.
    by rewrite Einit, E3, E4, E5.
  - exact Hat5.
  - rewrite Hh5, Hh4, Hh3. simpl. apply heap_alloc_subseteq.
Qed.

Lemma sim_check_single_repository self repo archives denv pass rsh S R
    (s : State Sim.world) :
  sim_at w S R s →
  heap s !! Config.base_borg_env (BackupOrchestrator.config self) = Some denv →
  denv !! "BORG_PASSPHRASE" = Some pass → pass ≠ "" →
  denv !! "BORG_RSH" = Some rsh → rsh ≠ "" →
  R !! repo = Some archives →
  ∃ s', BackupOrchestrator._check_single_repository self repo s = (Ok tt, s')
        ∧ sim_at w S R s' ∧ heap s ⊆ heap s'.
Proof.
  intros Hat Hb Hp Hpne Hr Hrne HR.
  set (s1 := mkState (world s) (heap s)
               (EvCall "_check_single_repository" [repo] :: trace s)).
  set (l := fresh_loc (heap s1)).
  set (env := <["BORG_REPO" := repo]> denv).
  set (m := BorgBackupRepoManager.mk repo l).
  set (s2 := mkState (world s1) (<[l := env]> (heap s1)) (trace s1)).
  assert (BorgBackupRepoManager.__init__ repo
            (Config.base_borg_env (BackupOrchestrator.config self)) s1
          = (Ok m, s2)) as Einit
    by exact (borg_init_unfold repo _ s1 denv pass rsh Hb Hp Hpne Hr Hrne).
  destruct (sim_check_repository m env repo archives S R s2) as (s3 & E3 & Hat3 & Hh3);
    [exact Hat | by (simpl; rewrite lookup_insert_eq) | apply lookup_insert_eq | done |].
  exists s3. split_and!.
  - unfold BackupOrchestrator._check_single_repository, call_marker.
    unfold bind at 1. unfold emit. fold s1. unfold bind. by rewrite Einit, E3.
  - exact Hat3.
  - etrans; [|exact Hh3]. simpl. apply heap_alloc_subseteq.
Qed.

Hypothesis two_volumes :
  Sim.datasets w = [("pool/svcs", "-"); ("pool/svcs/a", "/pool/svcs/a");
                    ("pool/svcs/b", "/pool/svcs/b")].

Lemma sim_get_datasets S R (s : State Sim.world) :
  sim_at w S R s →
  ∃ s', ZFSManager.get_datasets (ZFSManager.mk "pool/svcs") s
        = (Ok [mkZFSDataset "pool/svcs/a" "/pool/svcs/a";
               mkZFSDataset "pool/svcs/b" "/pool/svcs/b"], s')
        ∧ sim_at w S R s' ∧ heap s' = heap s.
Proof.
  intros [n Hw]. unfold ZFSManager.get_datasets, try_except, bind. simpl.
  set (q := ZFSManager.zfs ["list"; "-r"; "-t"; "filesystem"; "-o";
                            "name,mountpoint"; "-H"; "pool/svcs"]).
  rewrite (sh_run_zero q s
             [ "pool/svcs" +:+ String "009" ("-" +:+ String "010" "");
               "pool/svcs/a" +:+ String "009" ("/pool/svcs/a" +:+ String "010" "");
               "pool/svcs/b" +:+ String "009" ("/pool/svcs/b" +:+ String "010" "") ]
             (Sim.with_state w S R (Datatypes.S n))).
  2: { rewrite Hw. simpl. unfold Sim.sim_exec, Sim.run. simpl.
       rewrite two_volumes. reflexivity. }
  eexists. split; [reflexivity|]. split; [by eexists | done].
Qed.

Lemma sim_at_start (h : gmap nat dict) (t : list event) :
  sim_at w (Sim.snapshots w) (Sim.repos w) (mkState w h t).
Proof. exists (Sim.ticks w). by destruct w. Qed.

(** X26. On the simulated host, with the parent [pool/svcs] listed without a
    mount point and the mounted datasets [pool/svcs/a] and [pool/svcs/b] below
    it, no snapshot of the run's tag and no repository for the two datasets
    yet, and a prune policy that keeps a lone archive: the backup program
    succeeds; afterwards the repositories are those from before plus exactly
    [<root>/pool_svcs_a] and [<root>/pool_svcs_b], each holding the one
    archive [<prefix>_auto-backup_<T>_<T2>] (T the time the run started, T2
    the time the archive was named), and the snapshot
    [pool/svcs@auto-backup_<T>] does not exist. *)
Theorem full_backup_of_two_volumes root pass rsh prefix policy comp excl
    (h : gmap nat dict) (t : list event) :
  pass ≠ "" → rsh ≠ "" →
  let T := Sim.stamp w (Sim.ticks w) in
  let tag := "auto-backup_" +:+ T in
  "pool/svcs@auto-backup_" +:+ T ∉ Sim.snapshots w →
  Sim.repos w !! (root +:+ "/pool_svcs_a") = None →
  Sim.repos w !! (root +:+ "/pool_svcs_b") = None →
  (∀ x, Sim.retain w policy [x] = [x]) →
  ∃ s' Ta Tb,
    main root pass rsh prefix policy "pool/svcs" comp excl (mkState w h t)
      = (Ok tt, s')
    ∧ Sim.repos (world s')
      = <[root +:+ "/pool_svcs_b" := [prefix +:+ "_" +:+ tag +:+ "_" +:+ Tb]]>
          (<[root +:+ "/pool_svcs_a" := [prefix +:+ "_" +:+ tag +:+ "_" +:+ Ta]]>
             (Sim.repos w))
    ∧ "pool/svcs@auto-backup_" +:+ T ∉ Sim.snapshots (world s').
Proof.
  intros Hpne Hrne T tag Hsnap Ha Hb Hret.
  set (denv := <["BORG_RSH" := rsh]> (<["BORG_PASSPHRASE" := pass]> (Sim.environ w))).
  set (base := fresh_loc h).
  set (cfg := Config.mk root pass rsh prefix policy "pool/svcs" comp excl base).
  set (zm := ZFSManager.mk "pool/svcs").
  set (self := BackupOrchestrator.mk cfg zm tag).
  set (s0 := mkState w (<[base := denv]> h) t).
  set (x := ZFSManager.full_snapshot_name zm tag None).
  assert (x = "pool/svcs@auto-backup_" +:+ T) as Hx by reflexivity.
  set (names := Sim.snapshot_names w true x).
  assert (main root pass rsh prefix policy "pool/svcs" comp excl (mkState w h t)
          = BackupOrchestrator.backup_all self s0) as Emain by reflexivity.
  assert (heap s0 !! base = Some denv) as Hbase by apply lookup_insert_eq.
  assert (denv !! "BORG_PASSPHRASE" = Some pass) as Hp.
  { unfold denv. rewrite lookup_insert_ne by done. apply lookup_insert_eq. }
  assert (denv !! "BORG_RSH" = Some rsh) as Hr by apply lookup_insert_eq.
  assert (tag ≠ "") as Htag by done.
  (* stop, snapshot, restart *)
  destruct (sim_stop_all (Sim.snapshots w) (Sim.repos w) s0) as (s1 & E1 & At1 & Hh1);
    [apply sim_at_start|].
  destruct (sim_create_snapshot zm tag (Sim.snapshots w) (Sim.repos w) s1)
    as (s2 & E2 & At2 & Hh2); [done | exact Hsnap | done |].
  fold x names in E2, At2.
  destruct (sim_up_all (names ∪ Sim.snapshots w) (Sim.repos w) s2)
    as (s3 & E3 & At3 & Hh3); [done|].
  (* the datasets and the two loops *)
  destruct (sim_get_datasets (names ∪ Sim.snapshots w) (Sim.repos w) s3)
    as (s4 & E4 & At4 & Hh4); [done|].
  assert (heap s4 !! base = Some denv) as Hb4 by by rewrite Hh4, Hh3, Hh2, Hh1.
  set (da := mkZFSDataset "pool/svcs/a" "/pool/svcs/a") in *.
  set (db := mkZFSDataset "pool/svcs/b" "/pool/svcs/b") in *.
  assert (BackupOrchestrator._get_repo_path self da = root +:+ "/pool_svcs_a")
    as Hpa by reflexivity.
  assert (BackupOrchestrator._get_repo_path self db = root +:+ "/pool_svcs_b")
    as Hpb by reflexivity.
  assert (root +:+ "/pool_svcs_a" ≠ root +:+ "/pool_svcs_b") as Hne.
  { intros E. by apply (inj (String.app root)) in E. }
  destruct (sim_backup_single_dataset self da denv pass rsh
              (names ∪ Sim.snapshots w) (Sim.repos w) s4)
    as (s5 & Ta & E5 & At5 & Hh5); [done | done | done | done | done | done
                                   | by rewrite Hpa | done |].
  rewrite Hpa in At5. simpl in At5. fold tag in At5.
  set (Ra := <[root +:+ "/pool_svcs_a" := [prefix +:+ "_" +:+ tag +:+ "_" +:+ Ta]]>
               (Sim.repos w)) in *.
  assert (heap s5 !! base = Some denv) as Hb5 by exact (lookup_weaken _ _ _ _ Hb4 Hh5).
  destruct (sim_backup_single_dataset self db denv pass rsh
              (names ∪ Sim.snapshots w) Ra s5)
    as (s6 & Tb & E6 & At6 & Hh6); [done | done | done | done | done | done
                                   | | done |].
  { rewrite Hpb. unfold Ra. by rewrite lookup_insert_ne. }
  rewrite Hpb in At6. simpl in At6. fold tag in At6.
  set (Rb := <[root +:+ "/pool_svcs_b" := [prefix +:+ "_" +:+ tag +:+ "_" +:+ Tb]]> Ra)
    in *.
  assert (heap s6 !! base = Some denv) as Hb6 by exact (lookup_weaken _ _ _ _ Hb5 Hh6).
  destruct (sim_check_single_repository self (root +:+ "/pool_svcs_a")
              [prefix +:+ "_" +:+ tag +:+ "_" +:+ Ta] denv pass rsh
              (names ∪ Sim.snapshots w) Rb s6)
    as (s7 & E7 & At7 & Hh7); [done | done | done | done | done | done | |].
  { unfold Rb, Ra. rewrite lookup_insert_ne by done. apply lookup_insert_eq. }
  assert (heap s7 !! base = Some denv) as Hb7 by exact (lookup_weaken _ _ _ _ Hb6 Hh7).
  destruct (sim_check_single_repository self (root +:+ "/pool_svcs_b")
              [prefix +:+ "_" +:+ tag +:+ "_" +:+ Tb] denv pass rsh
              (names ∪ Sim.snapshots w) Rb s7)
    as (s8 & E8 & At8 & Hh8); [done | done | done | done | done | done | |].
  { unfold Rb. apply lookup_insert_eq. }
  assert (BackupOrchestrator._orchestrate_dataset_backups self s3 = (Ok tt, s8))
    as Eo.
  { unfold BackupOrchestrator._orchestrate_dataset_backups. unfold bind at 1.
    change (BackupOrchestrator.zfs_manager self) with (ZFSManager.mk "pool/svcs").
    rewrite E4.
    unfold BackupOrchestrator.archive_loop, BackupOrchestrator.check_loop.
    simpl. unfold bind, ret. rewrite E5, E6. rewrite Hpa, Hpb. by rewrite E7, E8. }
  (* the snapshot is destroyed *)
  destruct (sim_destroy_snapshot zm tag (names ∪ Sim.snapshots w) Rb s8)
    as (s9 & E9 & At9 & Hh9); [fold x; unfold names, Sim.snapshot_names; set_solver
                              | done |].
  fold x names in At9.
  exists s9, Ta, Tb. split_and!.
  - rewrite Emain. unfold BackupOrchestrator.backup_all,
      BackupOrchestrator.backup_all_try.
    change (BackupOrchestrator.zfs_manager self) with zm.
    change (BackupOrchestrator.snapshot_tag self) with tag.
    by rewrite E1, E2, E3, Eo, E9.
  - destruct At9 as [n ->]. done.
  - destruct At9 as [n ->]. simpl. rewrite <- Hx.
    unfold names, Sim.snapshot_names. set_solver.
Qed.

End SimRun.

(** * Further properties of the managers *)

(** ** Strings *)

Section Strings.

Lemma string_app_cons (x : ascii) (a b : string) :
  String x a +:+ b = String x (a +:+ b).
Proof. done. Qed.

Lemma string_app_nil (b : string) : "" +:+ b = b.
Proof. done. Qed.

Lemma string_app_assoc (a b c : string) : (a +:+ b) +:+ c = a +:+ (b +:+ c).
Proof.
  induction a as [|x a IH]; [done|]. by rewrite !string_app_cons, IH.
Qed.

Lemma string_app_empty_r (a : string) : a +:+ "" = a.
Proof. induction a as [|x a IH]; [done|]. by rewrite string_app_cons, IH. Qed.

Lemma string_app_length (a b : string) :
  String.length (a +:+ b) = (String.length a + String.length b)%nat.
Proof.
  induction a as [|x a IH]; [done|]. rewrite string_app_cons. simpl. by rewrite IH.
Qed.

Lemma rev_app_spec (a b : string) : String.rev_app a b = String.rev a +:+ b.
Proof.
  unfold String.rev. revert b. induction a as [|x a IH]; intros b; simpl; [done|].
  rewrite (IH (String x "")), (IH (String x b)), string_app_assoc. done.
Qed.

Lemma rev_cons (x : ascii) (a : string) :
  String.rev (String x a) = String.rev a +:+ String x "".
Proof. unfold String.rev at 1. simpl. apply rev_app_spec. Qed.

(** *** [split] *)

Lemma split_go_nonempty sep cur s : Py.split_go sep cur s ≠ [].
Proof.
  revert cur. induction s as [|x s IH]; intros cur; simpl; [done|].
  destruct (Ascii.eqb x sep); [done | apply IH].
Qed.

Lemma split_go_no_sep sep cur s :
  Py.has_char sep s = false →
  Py.split_go sep cur s = [String.rev cur +:+ s].
Proof.
  revert cur. induction s as [|x s IH]; intros cur; simpl.
  - by rewrite string_app_empty_r.
  - intros Hc. apply orb_false_iff in Hc as [Hx Hs]. rewrite Hx.
    rewrite IH by done. by rewrite rev_cons, string_app_assoc.
Qed.

Lemma split_go_at_sep sep cur a b :
  Py.has_char sep a = false →
  Py.split_go sep cur (a +:+ String sep b)
  = (String.rev cur +:+ a) :: Py.split_go sep "" b.
Proof.
  revert cur. induction a as [|x a IH]; intros cur.
  - intros _. rewrite string_app_nil. simpl.
    by rewrite Ascii.eqb_refl, string_app_empty_r.
  - simpl Py.has_char. intros Hc. apply orb_false_iff in Hc as [Hx Ha].
    rewrite string_app_cons. simpl. rewrite Hx.
    rewrite IH by done. by rewrite rev_cons, string_app_assoc.
Qed.

(** A string has no separator, or splits at its first one. *)
Lemma first_sep sep s :
  Py.has_char sep s = false
  ∨ ∃ a b, s = a +:+ String sep b ∧ Py.has_char sep a = false.
Proof.
  induction s as [|x s IH]; [by left|]. simpl.
  destruct (Ascii.eqb x sep) eqn:Hx.
  - right. exists "", s. apply Ascii.eqb_eq in Hx as ->. done.
  - destruct IH as [Hs | (a & b & -> & Ha)]; [by left|].
    right. exists (String x a), b. split; [done|]. simpl. by rewrite Hx.
Qed.

(** Exactly two fields: the text before and after the only separator. *)
Lemma split_two sep s a b :
  Py.split sep s = [a; b]
  ↔ s = a +:+ String sep b
    ∧ Py.has_char sep a = false ∧ Py.has_char sep b = false.
Proof.
  unfold Py.split. split.
  - intros E. destruct (first_sep sep s) as [Hs | (a' & b' & -> & Ha')].
    { by rewrite split_go_no_sep in E. }
    rewrite split_go_at_sep in E by done.
    injection E as <- E.
    destruct (first_sep sep b') as [Hb | (a2 & b2 & -> & Ha2)].
    + rewrite split_go_no_sep in E by done. by injection E as <-.
    + rewrite split_go_at_sep in E by done. injection E as _ E.
      by apply split_go_nonempty in E.
  - intros (-> & Ha & Hb). rewrite split_go_at_sep by done.
    by rewrite split_go_no_sep.
Qed.

(** *** [replace] of one character by another *)

Lemma replace_char_unfold (o n x : ascii) (s : string) :
  Py.replace_go (String o "") (String n "") None 0 (String x s)
  = String (if Ascii.eqb x o then n else x)
           (Py.replace_go (String o "") (String n "") None 0 s).
Proof.
  simpl. destruct (ascii_dec o x) as [->|Hne].
  - rewrite Ascii.eqb_refl. by destruct s.
  - assert (Ascii.eqb x o = false) as -> by (apply Ascii.eqb_neq; congruence).
    done.
Qed.

Lemma replace_char_length (o n : ascii) (s : string) :
  String.length (Py.replace (String o "") (String n "") None s) = String.length s.
Proof.
  unfold Py.replace. induction s as [|x s IH]; [done|].
  rewrite replace_char_unfold. simpl. by rewrite IH.
Qed.

Lemma replace_char_gone (o n : ascii) (s : string) :
  o ≠ n →
  Py.has_char o (Py.replace (String o "") (String n "") None s) = false.
Proof.
  intros Hne. unfold Py.replace. induction s as [|x s IH]; [done|].
  rewrite replace_char_unfold. simpl. rewrite IH.
  destruct (Ascii.eqb x o) eqn:Hx; rewrite orb_false_r.
  - apply Ascii.eqb_neq. congruence.
  - done.
Qed.

(** Replacing back gives the original when it had no [n]. *)
Lemma replace_char_inverse (o n : ascii) (s : string) :
  Py.has_char n s = false →
  Py.replace (String n "") (String o "") None
    (Py.replace (String o "") (String n "") None s) = s.
Proof.
  unfold Py.replace. induction s as [|x s IH]; [done|].
  simpl Py.has_char. intros Hc. apply orb_false_iff in Hc as [Hx Hs].
  rewrite replace_char_unfold, replace_char_unfold, IH by done.
  destruct (Ascii.eqb x o) eqn:Hxo.
  - rewrite Ascii.eqb_refl. apply Ascii.eqb_eq in Hxo. by subst.
  - by rewrite Hx.
Qed.

End Strings.

(** ** Parsing the listings of the storage tool *)

Section Parsing.
Context {W : Type} `{Host W}.

Lemma rev_app_distr (a b : string) :
  String.rev (a +:+ b) = String.rev b +:+ String.rev a.
Proof.
  induction a as [|x a IH].
  - by rewrite string_app_nil, string_app_empty_r.
  - by rewrite string_app_cons, !rev_cons, IH, string_app_assoc.
Qed.

Lemma rev_involutive (a : string) : String.rev (String.rev a) = a.
Proof.
  induction a as [|x a IH]; [done|].
  by rewrite rev_cons, rev_app_distr, IH.
Qed.

(** Stripping and splitting recurse on the text after a white-space
    character, one to three bytes further on. *)
Lemma space_at_shorter (s r : string) :
  Py.space_at s = Some r → (String.length r < String.length s)%nat.
Proof.
  destruct s as [|c1 [|c2 [|c3 r3]]]; simpl; try done;
    repeat case_match; intros [= <-]; simpl; lia.
Qed.

Lemma space_at_app (s r t : string) :
  Py.space_at s = Some r → Py.space_at (s +:+ t) = Some (r +:+ t).
Proof.
  destruct s as [|c1 [|c2 [|c3 r3]]]; simpl; try done;
    rewrite ?string_app_cons; simpl;
    repeat case_match; try done; by intros [= <-].
Qed.

Lemma lstrip_unfold (s : string) :
  Py.lstrip s = match Py.space_at s with Some r => Py.lstrip r | None => s end.
Proof.
  destruct s as [|c1 r1]; [done|]. simpl.
  destruct (Py.isspace c1); [done|]. destruct r1 as [|c2 r2]; [done|].
  destruct (Py.isspace2 c1 c2); [done|]. destruct r2 as [|c3 r3]; [done|].
  by destruct (Py.isspace3 c1 c2 c3).
Qed.

Lemma string_length_ind (P : string → Prop) :
  (∀ s, (∀ r, (String.length r < String.length s)%nat → P r) → P s) →
  ∀ s, P s.
Proof.
  intros Hstep s. remember (String.length s) as n eqn:Hn.
  revert s Hn. induction (lt_wf n) as [n _ IH]. intros s ->.
  apply Hstep. intros r Hr. by apply (IH (String.length r)).
Qed.

Lemma lstrip_no_space (s : string) : Py.space_at (Py.lstrip s) = None.
Proof.
  induction s as [s IH] using string_length_ind.
  rewrite lstrip_unfold. destruct (Py.space_at s) as [r|] eqn:E; [|done].
  apply IH. by apply space_at_shorter.
Qed.

Lemma space_at_rev_shorter (s r : string) :
  space_at_rev s = Some r → (String.length r < String.length s)%nat.
Proof.
  destruct s as [|c1 [|c2 [|c3 r3]]]; simpl; try done;
    repeat case_match; intros [= <-]; simpl; lia.
Qed.

Lemma space_at_rev_prefix (s r : string) :
  space_at_rev s = Some r → ∃ sp, s = sp +:+ r.
Proof.
  destruct s as [|c1 r1]; [done|]. simpl.
  destruct (Py.isspace c1); [intros [= <-]; by exists (String c1 "")|].
  destruct r1 as [|c2 r2]; [done|].
  destruct (Py.isspace2 c2 c1); [intros [= <-]; by exists (String c1 (String c2 ""))|].
  destruct r2 as [|c3 r3]; [done|].
  destruct (Py.isspace3 c3 c2 c1); [|done].
  intros [= <-]. by exists (String c1 (String c2 (String c3 ""))).
Qed.

Lemma lstrip_rev_unfold (s : string) :
  Py.lstrip_rev s = match space_at_rev s with Some r => Py.lstrip_rev r | None => s end.
Proof.
  destruct s as [|c1 r1]; [done|]. simpl.
  destruct (Py.isspace c1); [done|]. destruct r1 as [|c2 r2]; [done|].
  destruct (Py.isspace2 c2 c1); [done|]. destruct r2 as [|c3 r3]; [done|].
  by destruct (Py.isspace3 c3 c2 c1).
Qed.

Lemma lstrip_rev_no_space (s : string) : space_at_rev (Py.lstrip_rev s) = None.
Proof.
  induction s as [s IH] using string_length_ind.
  rewrite lstrip_rev_unfold. destruct (space_at_rev s) as [r|] eqn:E; [|done].
  apply IH. by apply space_at_rev_shorter.
Qed.

Lemma lstrip_rev_suffix (s : string) : ∃ pre, s = pre +:+ Py.lstrip_rev s.
Proof.
  induction s as [s IH] using string_length_ind.
  rewrite lstrip_rev_unfold. destruct (space_at_rev s) as [r|] eqn:E; [|by exists ""].
  destruct (IH r (space_at_rev_shorter _ _ E)) as [pre Hp].
  destruct (space_at_rev_prefix _ _ E) as [sp ->].
  exists (sp +:+ pre). by rewrite string_app_assoc, <- Hp.
Qed.

(** What [strip] returns neither starts nor ends with a white-space
    character. *)
Lemma strip_no_lead (s : string) : Py.space_at (Py.strip s) = None.
Proof.
  unfold Py.strip.
  destruct (lstrip_rev_suffix (String.rev (Py.lstrip s))) as [pre Hp].
  apply (f_equal String.rev) in Hp. rewrite rev_involutive, rev_app_distr in Hp.
  pose proof (lstrip_no_space s) as Hn. rewrite Hp in Hn.
  destruct (Py.space_at (String.rev _)) as [r|] eqn:E; [|done].
  by rewrite (space_at_app _ _ _ E) in Hn.
Qed.

Lemma strip_no_trail (s : string) : space_at_rev (String.rev (Py.strip s)) = None.
Proof. unfold Py.strip. rewrite rev_involutive. apply lstrip_rev_no_space. Qed.

Lemma strip_no_lead_tab (s r : string) : Py.strip s ≠ String "009" r.
Proof. intros E. pose proof (strip_no_lead s) as Hn. by rewrite E in Hn. Qed.

Lemma strip_no_trail_tab (s a : string) : Py.strip s ≠ a +:+ String "009" "".
Proof.
  intros E. pose proof (strip_no_trail s) as Hn.
  rewrite E, rev_app_distr in Hn. done.
Qed.


Lemma split_ws_go_cons cur c1 r1 :
  Py.split_ws_go cur (String c1 r1)
  = match Py.space_at (String c1 r1) with
    | Some r => Py.flush cur ++ Py.split_ws_go None r
    | None => Py.split_ws_go (Some (String c1 (default "" cur))) r1
    end.
Proof.
  simpl. destruct (Py.isspace c1); [done|]. destruct r1 as [|c2 r2]; [done|].
  destruct (Py.isspace2 c1 c2); [done|]. destruct r2 as [|c3 r3]; [done|].
  by destruct (Py.isspace3 c1 c2 c3).
Qed.

Lemma spaceless_has_space (p s : string) :
  spaceless p s = true → Py.has_space p = false.
Proof.
  induction p as [|x p IH]; [done|]. cbn [Py.has_space spaceless].
  intros [Hx Hp]%andb_true_iff. rewrite (IH Hp), orb_false_r.
  apply negb_true_iff, bool_decide_eq_false in Hx.
  apply bool_decide_eq_false_2. intros [r Hr]. apply Hx.
  rewrite (space_at_app _ _ _ Hr). by eexists.
Qed.

Lemma spaceless_snoc (p : string) c1 r1 :
  spaceless p (String c1 r1) = true →
  Py.space_at (String c1 r1) = None →
  spaceless (p +:+ String c1 "") r1 = true.
Proof.
  intros Hp Hs. induction p as [|x p IH].
  - rewrite string_app_nil. cbn [spaceless].
    rewrite string_app_cons, string_app_nil, Hs.
    by rewrite bool_decide_eq_false_2 by by intros [? ?].
  - cbn [spaceless] in Hp. apply andb_true_iff in Hp as [Hx Hp].
    rewrite string_app_cons. cbn [spaceless]. rewrite (IH Hp), andb_true_r.
    by rewrite <- !string_app_cons, string_app_assoc.
Qed.

Lemma rev_nonempty (a : string) : a ≠ "" → String.rev a ≠ "".
Proof.
  intros Ha E. apply (f_equal String.rev) in E.
  by rewrite rev_involutive in E.
Qed.

Lemma flush_fields (cur : option string) (s : string) :
  (∀ c, cur = Some c → c ≠ "" ∧ spaceless (String.rev c) s = true) →
  Forall field (Py.flush cur).
Proof.
  intros Hc. destruct cur as [c|]; simpl; [|constructor].
  destruct (Hc c eq_refl) as [Hne Hsp].
  repeat constructor; [by apply rev_nonempty | by eapply spaceless_has_space].
Qed.

Lemma split_ws_go_fields (s : string) (cur : option string) :
  (∀ c, cur = Some c → c ≠ "" ∧ spaceless (String.rev c) s = true) →
  Forall field (Py.split_ws_go cur s).
Proof.
  revert cur. induction s as [s IH] using string_length_ind. intros cur Hc.
  destruct s as [|c1 r1]; [by eapply flush_fields|].
  rewrite split_ws_go_cons. destruct (Py.space_at (String c1 r1)) as [r|] eqn:E.
  - apply Forall_app. split; [by eapply flush_fields|].
    apply IH; [by apply space_at_shorter | done].
  - apply IH; [simpl; lia|]. intros c [= <-]. split; [done|].
    rewrite rev_cons. destruct cur as [c|].
    + change (default "" (Some c)) with c.
      apply spaceless_snoc; [|done]. by apply Hc.
    + change (String.rev (default "" None)) with "".
      rewrite string_app_nil. cbn [spaceless].
      rewrite string_app_cons, string_app_nil, E.
      by rewrite bool_decide_eq_false_2 by by intros [? ?].
Qed.


Lemma omap_cons {A B} (f : A → option B) (x : A) (l : list A) :
  omap f (x :: l) = match f x with Some y => y :: omap f l | None => omap f l end.
Proof. done. Qed.

(** X1. [parse_dataset_line] accepts a line exactly when the line, stripped
    of surrounding white space, consists of two fields separated by its only
    tab and the second field is not ["-"]; the dataset it gives has the first
    field as its name and the second as its mount point.  The white space
    stripped is that of [str.strip]: a line whose mount point ["-"] is
    followed by U+0085 is skipped, and a no-break space after a mount point
    is not part of it. *)
Theorem parse_dataset_line_spec :
  (∀ (line : string) (d : ZFSDataset),
     ZFSManager.parse_dataset_line line = Some d
     ↔ Py.strip line = name d +:+ String "009" (mount_point d)
       ∧ Py.has_char "009" (name d) = false
       ∧ Py.has_char "009" (mount_point d) = false
       ∧ mount_point d ≠ "-")
  ∧ (∀ line, Py.space_at (Py.strip line) = None
             ∧ space_at_rev (String.rev (Py.strip line)) = None)
  ∧ ZFSManager.parse_dataset_line
      ("pool/a" +:+ String "009" ("-" +:+ String "194" (String "133" ""))) = None
  ∧ ZFSManager.parse_dataset_line
      (" pool/a" +:+ String "009" ("/mnt/a" +:+ String "194" (String "160" (String "010" ""))))
    = Some (mkZFSDataset "pool/a" "/mnt/a").
Proof.
  split_and!.
  - intros line d. unfold ZFSManager.parse_dataset_line. split.
    + destruct (Py.split "009" (Py.strip line)) as [|n [|m [|? ?]]] eqn:E; try done.
      destruct (String.eqb m "-") eqn:Em; [done|].
      intros [= <-]. simpl. apply split_two in E as (E & Hn & Hm).
      split_and!; try done. by apply String.eqb_neq.
    + intros (E & Hn & Hm & Hd). destruct d as [n m]. simpl in *.
      assert (Py.split "009" (Py.strip line) = [n; m]) as -> by by apply split_two.
      apply String.eqb_neq in Hd. by rewrite Hd.
  - intros line. split; [apply strip_no_lead | apply strip_no_trail].
  - vm_compute. reflexivity.
  - vm_compute. reflexivity.
Qed.

Lemma parsed_dataset_fields (line : string) (d : ZFSDataset) :
  ZFSManager.parse_dataset_line line = Some d →
  name d ≠ "" ∧ mount_point d ≠ "" ∧ mount_point d ≠ "-"
  ∧ Py.has_char "009" (name d) = false
  ∧ Py.has_char "009" (mount_point d) = false.
Proof.
  unfold ZFSManager.parse_dataset_line.
  destruct (Py.split "009" (Py.strip line)) as [|n [|m [|? ?]]] eqn:E; try done.
  destruct (String.eqb m "-") eqn:Em; [done|].
  intros [= <-]. simpl. apply split_two in E as (E & Hn & Hm).
  split_and!; try done.
  - intros ->. rewrite string_app_nil in E. by apply strip_no_lead_tab in E.
  - intros ->. by apply strip_no_trail_tab in E.
  - by apply String.eqb_neq.
Qed.

(** X2. [get_datasets] runs one listing process.  When the process ends
    with exit code 0 the result is what [parse_dataset_line] accepts of its
    output, in order: every dataset returned has a non-empty name, a
    non-empty mount point other than ["-"], and no tab in either.  Any other
    exit code raises and no dataset is returned: the failure of the listing
    when its error output decodes, and the [UnicodeDecodeError] of the call
    that logs it otherwise. *)
Theorem get_datasets_only_mounted self (s : State W) :
  let q := ZFSManager.zfs ["list"; "-r"; "-t"; "filesystem"; "-o";
                            "name,mountpoint"; "-H"; ZFSManager.parent_dataset self] in
  let out := (exec q (world s)).1.1 in
  let code := (exec q (world s)).1.2 in
  let w' := (exec q (world s)).2 in
  (ZFSManager.get_datasets self s).2 = after s q code w'
  ∧ (code = 0 →
     ∃ ds, (ZFSManager.get_datasets self s).1 = Ok ds
           ∧ ds = omap ZFSManager.parse_dataset_line out
           ∧ (length ds ≤ length out)%nat
           ∧ Forall (λ d, name d ≠ "" ∧ mount_point d ≠ "" ∧ mount_point d ≠ "-"
                          ∧ Py.has_char "009" (name d) = false
                          ∧ Py.has_char "009" (mount_point d) = false) ds)
  ∧ (code ≠ 0 →
     (ZFSManager.get_datasets self s).1
     = if stderr_decodes q w' then Raise (ErrorReturnCode code (argv q))
       else Raise UnicodeDecodeError).
Proof.
  intros q out code w'.
  assert (exec q (world s) = (out, code, w')) as E.
  { unfold out, code, w'. by destruct (exec q (world s)) as [[? ?] ?]. }
  clearbody out code w'.
  unfold ZFSManager.get_datasets, try_except, bind. fold q.
  rewrite (sh_run_unfold _ _ _ _ _ _ E).
  split_and!.
  - case_bool_decide; [done|]. unfold decode_stderr. simpl.
    by destruct (stderr_decodes q w').
  - intros ->. rewrite bool_decide_eq_true_2 by set_solver.
    eexists. split_and!; [done | done | |].
    + clear E. induction out as [|l out IH]; [done|].
      rewrite omap_cons.
      destruct (ZFSManager.parse_dataset_line l); simpl; lia.
    + clear E. induction out as [|l out IH]; [by constructor|].
      rewrite omap_cons.
      destruct (ZFSManager.parse_dataset_line l) as [d|] eqn:El; [|done].
      constructor; [|done]. by apply (parsed_dataset_fields l).
  - intros Hc. rewrite bool_decide_eq_false_2 by set_solver.
    unfold decode_stderr. simpl. by destruct (stderr_decodes q w').
Qed.

(** A line that [parse_snapshot_line] accepts has at least two fields; a
    line with fewer fields is skipped. *)
Lemma parse_snapshot_line_fields (line : string) :
  match ZFSManager.parse_snapshot_line line with
  | Some sn =>
      field (snapshot_name sn) ∧ field (used sn)
      ∧ ∃ creation_parts,
          Py.split_ws (Py.strip line) = snapshot_name sn :: used sn :: creation_parts
          ∧ creation_date sn = Py.join " " creation_parts
          ∧ Forall field creation_parts
  | None => (length (Py.split_ws (Py.strip line)) < 2)%nat
  end.
Proof.
  unfold ZFSManager.parse_snapshot_line.
  pose proof (split_ws_go_fields (Py.strip line) None) as F.
  fold (Py.split_ws (Py.strip line)) in F.
  destruct (Py.split_ws (Py.strip line)) as [|n [|u parts]]; simpl; try lia.
  assert (Forall field (n :: u :: parts)) as Hf by by apply F.
  inversion Hf as [|? ? Hn Hf']; subst. inversion Hf' as [|? ? Hu Hp]; subst.
  split_and!; try done. by exists parts.
Qed.

(** X3. [list_snapshots] runs one listing process for the target dataset
    (the parent when no dataset name is given).  When the process ends with
    exit code 0, the result has one snapshot for each line of the output with
    at least two white-space separated fields, in order: its name and size
    are the first two fields, non-empty and without white space, and its
    creation date is the remaining fields joined by single spaces.  White
    space is that of [str.split]: fields separated by no-break spaces are
    fields.  Any other exit code raises: the failure of the listing when its
    error output decodes, and the [UnicodeDecodeError] of the call that logs
    it otherwise. *)
Theorem list_snapshots_fields self dataset_name (s : State W) :
  let q := ZFSManager.zfs ["list"; "-t"; "snapshot"; "-r"; "-o"; "name,used,creation";
                            "-s"; "creation"; "-H";
                            ZFSManager.target_dataset self dataset_name] in
  let out := (exec q (world s)).1.1 in
  let code := (exec q (world s)).1.2 in
  let w' := (exec q (world s)).2 in
  (ZFSManager.list_snapshots self dataset_name s).2 = after s q code w'
  ∧ (code = 0 →
     ∃ sns, (ZFSManager.list_snapshots self dataset_name s).1 = Ok sns
            ∧ sns = omap ZFSManager.parse_snapshot_line out
            ∧ Forall (λ sn, field (snapshot_name sn) ∧ field (used sn)
                            ∧ ∃ line creation_parts,
                                line ∈ out
                                ∧ Py.split_ws (Py.strip line)
                                  = snapshot_name sn :: used sn :: creation_parts
                                ∧ creation_date sn = Py.join " " creation_parts) sns)
  ∧ (code ≠ 0 →
     (ZFSManager.list_snapshots self dataset_name s).1
     = if stderr_decodes q w' then Raise (ErrorReturnCode code (argv q))
       else Raise UnicodeDecodeError)
  ∧ ZFSManager.parse_snapshot_line
      ("pool/a@t" +:+ String "194" (String "160" ("8K" +:+ String "194" (String "160"
        ("Mon Jan  1  0:00 2025" +:+ String "010" "")))))
    = Some (mkZFSSnapshot "pool/a@t" "8K" "Mon Jan 1 0:00 2025").
Proof.
  intros q out code w'.
  assert (exec q (world s) = (out, code, w')) as E.
  { unfold out, code, w'. by destruct (exec q (world s)) as [[? ?] ?]. }
  clearbody out code w'.
  unfold ZFSManager.list_snapshots, try_except, bind. fold q.
  rewrite (sh_run_unfold _ _ _ _ _ _ E).
  split_and!.
  - case_bool_decide; [done|]. unfold decode_stderr. simpl.
    by destruct (stderr_decodes q w').
  - intros ->. rewrite bool_decide_eq_true_2 by set_solver.
    eexists. split_and!; [done | done |].
    clear E. induction out as [|l out IH]; [by constructor|].
    rewrite omap_cons.
    pose proof (parse_snapshot_line_fields l) as Hl.
    destruct (ZFSManager.parse_snapshot_line l) as [sn|] eqn:El.
    + constructor.
      * destruct Hl as (Hn & Hu & parts & Hs & Hc & _).
        split_and!; try done. exists l, parts. split_and!; try done. set_solver.
      * eapply Forall_impl; [exact IH|]. simpl.
        intros sn' (Hn & Hu & line & parts & Hin & Hs & Hc).
        split_and!; try done. exists line, parts. split_and!; try done. set_solver.
    + eapply Forall_impl; [exact IH|]. simpl.
      intros sn' (Hn & Hu & line & parts & Hin & Hs & Hc).
      split_and!; try done. exists line, parts. split_and!; try done. set_solver.
  - intros Hc. rewrite bool_decide_eq_false_2 by set_solver.
    unfold decode_stderr. simpl. by destruct (stderr_decodes q w').
  - vm_compute. reflexivity.
Qed.

End Parsing.

(** ** Repository paths *)

Section RepoPaths.
Context {W : Type} `{Host W}.

Lemma string_app_inj_l (a b c : string) : a +:+ b = a +:+ c → b = c.
Proof.
  induction a as [|x a IH]; [done|]. rewrite !string_app_cons.
  intros [= E]. by apply IH.
Qed.

Lemma sanitize_injective (n1 n2 : string) :
  Py.has_char "_" n1 = false → Py.has_char "_" n2 = false →
  Py.replace "/" "_" None n1 = Py.replace "/" "_" None n2 → n1 = n2.
Proof.
  intros H1 H2 E.
  rewrite <- (replace_char_inverse "/" "_" n1 H1).
  rewrite <- (replace_char_inverse "/" "_" n2 H2).
  by rewrite E.
Qed.

(** X4. The repository of a dataset lies directly in the base directory:
    its path is the base path, a separator and the dataset name with every
    ["/"] replaced by ["_"], a component of the same length as the name that
    contains no separator. *)
Theorem repo_path_is_flat self (dataset : ZFSDataset) :
  ∃ component,
    BackupOrchestrator._get_repo_path self dataset
    = Config.repo_base_path (BackupOrchestrator.config self) +:+ "/" +:+ component
    ∧ Py.has_char "/" component = false
    ∧ String.length component = String.length (name dataset).
Proof.
  exists (Py.replace "/" "_" None (name dataset)). split_and!.
  - done.
  - by apply replace_char_gone.
  - apply replace_char_length.
Qed.

(** X5. Datasets whose names contain no ["_"] have different repositories
    when their names differ; without that condition two datasets can share
    a repository. *)
Theorem repo_path_injective self :
  (∀ d1 d2,
     Py.has_char "_" (name d1) = false → Py.has_char "_" (name d2) = false →
     BackupOrchestrator._get_repo_path self d1
     = BackupOrchestrator._get_repo_path self d2 →
     name d1 = name d2)
  ∧ (∃ d1 d2,
       name d1 ≠ name d2
       ∧ BackupOrchestrator._get_repo_path self d1
         = BackupOrchestrator._get_repo_path self d2).
Proof.
  split.
  - intros d1 d2 H1 H2 E. unfold BackupOrchestrator._get_repo_path in E.
    apply string_app_inj_l, string_app_inj_l in E.
    by apply sanitize_injective.
  - exists (mkZFSDataset "pool/a/b" "/mnt/1"), (mkZFSDataset "pool/a_b" "/mnt/2").
    split; [done|]. reflexivity.
Qed.

(** The constructor of a manager, by cases on the two required variables. *)
Lemma borg_init_cases repo base (s : State W) :
  let d := default ∅ (heap s !! base) in
  BorgBackupRepoManager.__init__ repo base s
  = if Py.truthy (d !! "BORG_PASSPHRASE") && Py.truthy (d !! "BORG_RSH")
    then (Ok (BorgBackupRepoManager.mk repo (fresh_loc (heap s))),
          mkState (world s)
            (<[fresh_loc (heap s) := <["BORG_REPO" := repo]> d]> (heap s)) (trace s))
    else (Raise (ValueError
                   (BorgBackupRepoManager.missing_config_msg
                      (List.filter (λ var, negb (Py.truthy (d !! var)))
                         ["BORG_PASSPHRASE"; "BORG_RSH"]))), s).
Proof.
  intros d. unfold BorgBackupRepoManager.__init__, bind, deref. simpl. fold d.
  destruct (Py.truthy (d !! "BORG_PASSPHRASE")), (Py.truthy (d !! "BORG_RSH"));
    simpl; try done.
  unfold dict_copy, dict_set. simpl. fold d.
  rewrite lookup_insert_eq. simpl. by rewrite insert_insert_eq.
Qed.

Lemma borg_init_ok_inv repo base (s s' : State W) manager :
  BorgBackupRepoManager.__init__ repo base s = (Ok manager, s') →
  BorgBackupRepoManager.repo_path manager = repo
  ∧ heap s !! BorgBackupRepoManager.borg_env manager = None
  ∧ s' = mkState (world s)
           (<[BorgBackupRepoManager.borg_env manager
              := <["BORG_REPO" := repo]> (default ∅ (heap s !! base))]> (heap s))
           (trace s).
Proof.
  rewrite borg_init_cases.
  destruct (_ && _); [|done]. intros [= <- <-]. simpl.
  split_and!; try done. apply fresh_loc_is_fresh.
Qed.

(** X6. The orchestrator's helpers address the repositories the backup
    writes: for the same base path, the manager built for a dataset name, and
    the one built for a service of the parent dataset, own the repository
    path that [_get_repo_path] gives for that dataset. *)
Theorem managers_address_backup_repositories
    (m : MasterOrchestrator.t) (o : BackupOrchestrator.t) (s : State W) :
  MasterOrchestrator.borg_repo_base_path (MasterOrchestrator.config m)
  = Config.repo_base_path (BackupOrchestrator.config o) →
  (∀ d manager s',
     MasterOrchestrator._get_borg_manager_for_dataset m (name d) s = (Ok manager, s') →
     BorgBackupRepoManager.repo_path manager = BackupOrchestrator._get_repo_path o d
     ∧ env_of manager s' !! "BORG_REPO" = Some (BackupOrchestrator._get_repo_path o d))
  ∧ (∀ service mp manager s',
       MasterOrchestrator._get_borg_manager_for_service m service s = (Ok manager, s') →
       let d := mkZFSDataset
                  (MasterOrchestrator.zfs_parent_dataset (MasterOrchestrator.config m)
                   +:+ "/" +:+ service) mp in
       BorgBackupRepoManager.repo_path manager = BackupOrchestrator._get_repo_path o d
       ∧ env_of manager s' !! "BORG_REPO"
         = Some (BackupOrchestrator._get_repo_path o d)).
Proof.
  intros Hbase. split.
  - intros d manager s' E.
    apply borg_init_ok_inv in E as (Hp & _ & ->).
    unfold env_of. simpl. rewrite lookup_insert_eq. simpl.
    rewrite lookup_insert_eq, Hp.
    unfold MasterOrchestrator.repo_path_of, BackupOrchestrator._get_repo_path.
    by rewrite Hbase.
  - intros service mp manager s' E d.
    apply borg_init_ok_inv in E as (Hp & _ & ->).
    unfold env_of. simpl. rewrite lookup_insert_eq. simpl.
    rewrite lookup_insert_eq, Hp.
    unfold MasterOrchestrator.repo_path_of, BackupOrchestrator._get_repo_path.
    by rewrite Hbase.
Qed.

End RepoPaths.

(** ** The dicts of environment variables *)

Section Heap.
Context {W : Type} `{Host W}.
Variable h0 : gmap nat dict.

Lemma frames_ret {A} (a : A) : frames (W:=W) h0 (ret a).
Proof. by intros s. Qed.

Lemma frames_raise {A} (e : exn) : frames (W:=W) (A:=A) h0 (raise e).
Proof. by intros s. Qed.

Lemma frames_bind {A B} (m : M W A) (k : A → M W B) :
  frames h0 m → (∀ a, frames h0 (k a)) → frames h0 (bind m k).
Proof.
  intros Hm Hk s Hs. unfold bind. specialize (Hm s Hs).
  destruct (m s) as [[a|e] s']; simpl in *; [|done].
  by apply Hk.
Qed.

Lemma frames_try_except {A} (m : M W A) (h : exn → option (M W A)) :
  frames h0 m → (∀ e k, h e = Some k → frames h0 k) → frames h0 (try_except m h).
Proof.
  intros Hm Hh s Hs. unfold try_except. specialize (Hm s Hs).
  destruct (m s) as [[a|e] s']; simpl in *; [done|].
  destruct (h e) as [k|] eqn:E; [|done].
  by apply (Hh _ _ E).
Qed.

Lemma frames_for_each {A} (l : list A) (body : A → M W unit) :
  (∀ x, frames h0 (body x)) → frames h0 (for_each l body).
Proof.
  intros Hb. induction l as [|x l IH]; simpl.
  - apply frames_ret.
  - apply frames_bind; auto.
Qed.

Lemma frames_emit (ev : event) : frames (W:=W) h0 (emit ev).
Proof. by intros s. Qed.

Lemma frames_sh_run (c : Command) (ok : list Z) : frames h0 (sh_run c ok).
Proof.
  intros s Hs. destruct (exec c (world s)) as [[out code] w'] eqn:Ex.
  by rewrite (sh_run_unfold _ _ _ _ _ _ Ex).
Qed.

Lemma frames_decode_stdout (c : Command) : frames h0 (decode_stdout c).
Proof. intros s Hs. unfold decode_stdout. by destruct (stdout_decodes c (world s)). Qed.

Lemma frames_decode_stderr (c : Command) : frames h0 (decode_stderr c).
Proof. intros s Hs. unfold decode_stderr. by destruct (stderr_decodes c (world s)). Qed.

Lemma frames_dict_get l k d : frames (W:=W) h0 (dict_get l k d).
Proof. by intros s. Qed.

Lemma frames_deref l : frames (W:=W) h0 (deref l).
Proof. by intros s. Qed.

Lemma frames_now : frames h0 ZFSManager.now.
Proof. by intros s. Qed.

Lemma frames_find_compose_files : frames h0 DockerComposeManager._find_compose_files.
Proof. by intros s. Qed.

Lemma frames_fs_exists p : frames h0 (BorgBackupRepoManager.fs_exists p).
Proof. by intros s. Qed.

Lemma frames_fs_mkdir p : frames h0 (BorgBackupRepoManager.fs_mkdir p).
Proof.
  intros s Hs. unfold BorgBackupRepoManager.fs_mkdir.
  by destruct (mkdir_parents p (world s)) as [[?|] ?].
Qed.

Lemma frames_fs_unlink p : frames h0 (BorgBackupRepoManager.fs_unlink p).
Proof.
  intros s Hs. unfold BorgBackupRepoManager.fs_unlink.
  by destruct (unlink p (world s)) as [[?|] ?].
Qed.

(** A copy is a new dict: writing to it leaves the dicts of [h0] alone. *)
Lemma frames_dict_copy {A} l (k : nat → M W A) :
  (∀ l', h0 !! l' = None → frames h0 (k l')) → frames h0 (bind (dict_copy l) k).
Proof.
  intros Hk s Hs. unfold bind, dict_copy.
  apply Hk.
  - destruct (h0 !! fresh_loc (heap s)) as [d|] eqn:E; [|done].
    apply (lookup_weaken _ _ _ _ E) in Hs. by rewrite fresh_loc_is_fresh in Hs.
  - simpl. etrans; [exact Hs|]. apply heap_alloc_subseteq.
Qed.

Lemma frames_dict_set l k v : h0 !! l = None → frames (W:=W) h0 (dict_set l k v).
Proof.
  intros Hl s Hs. unfold dict_set. simpl.
  apply map_subseteq_spec. intros i x Hi.
  destruct (decide (i = l)) as [->|Hne]; [congruence|].
  rewrite lookup_insert_ne by done. by apply (lookup_weaken _ _ _ _ Hi).
Qed.

End Heap.

Ltac frames_step :=
  lazymatch goal with
  | |- frames _ (bind (dict_copy _) _) =>
      apply frames_dict_copy; let l := fresh "l" in let Hl := fresh "Hl" in intros l Hl
  | |- frames _ (bind _ _) => apply frames_bind; [|intros ?]
  | |- frames _ (try_except _ _) =>
      apply frames_try_except;
      [|let e := fresh "e" in let k := fresh "k" in let E := fresh "E" in
        intros e k E; destruct e; simplify_eq/=]
  | |- frames _ (for_each _ _) => apply frames_for_each; intros ?
  | |- frames _ (ret _) => apply frames_ret
  | |- frames _ (raise _) => apply frames_raise
  | |- frames _ (sh_run _ _) => apply frames_sh_run
  | |- frames _ (decode_stdout _) => apply frames_decode_stdout
  | |- frames _ (decode_stderr _) => apply frames_decode_stderr
  | |- frames _ (emit _) => apply frames_emit
  | |- frames _ (log _ _) => apply frames_emit
  | |- frames _ (call_marker _ _) => apply frames_emit
  | |- frames _ (dict_set _ _ _) => apply frames_dict_set; assumption
  | |- frames _ (dict_get _ _ _) => apply frames_dict_get
  | |- frames _ (deref _) => apply frames_deref
  | |- frames _ ZFSManager.now => apply frames_now
  | |- frames _ DockerComposeManager._find_compose_files =>
      apply frames_find_compose_files
  | |- frames _ (BorgBackupRepoManager.fs_exists _) => apply frames_fs_exists
  | |- frames _ (BorgBackupRepoManager.fs_mkdir _) => apply frames_fs_mkdir
  | |- frames _ (BorgBackupRepoManager.fs_unlink _) => apply frames_fs_unlink
  | |- frames _ (if ?b then _ else _) => destruct b
  | |- frames _ (match ?x with _ => _ end) => destruct x
  end.

Ltac frames_methods :=
  repeat first
    [ frames_step
    | progress unfold_methods
    | progress unfold DockerComposeManager.down_all, DockerComposeManager.start_all,
        DockerComposeManager.pull_all, DockerComposeManager.restart_all,
        ZFSManager.dataset_exists, ZFSManager.create_dataset,
        ZFSManager.list_snapshots,
        BorgBackupRepoManager.export_recovery_key, BorgBackupRepoManager.unlink_logged,
        BorgBackupRepoManager.display_repository_info,
        BorgBackupRepoManager.delete_archive,
        SystemManager.perform_maintenance,
        MasterOrchestrator.system_maintenance, MasterOrchestrator.snapshot_all,
        MasterOrchestrator.snapshot_one, MasterOrchestrator.create_service_dataset,
        MasterOrchestrator.snapshot_destroy_all,
        MasterOrchestrator._get_borg_manager_for_service,
        MasterOrchestrator._get_borg_manager_for_dataset,
        MasterOrchestrator.check_repo, MasterOrchestrator.delete_archive,
        MasterOrchestrator.export_one_key, MasterOrchestrator.export_all_keys ].

Section HeapOfPipelines.
Context {W : Type} `{Host W}.

Lemma keeps_heap_frames {A} (m : M W A) : (∀ h0, frames h0 m) → keeps_heap m.
Proof. intros Hm s. by apply Hm. Qed.

Lemma frames_check_repository h0 self v :
  frames (W:=W) h0 (BorgBackupRepoManager.check_repository self v).
Proof. frames_methods. Qed.

Lemma frames_orchestrate h0 self :
  frames (W:=W) h0 (BackupOrchestrator._orchestrate_dataset_backups self).
Proof. frames_methods. Qed.

Lemma frames_create_snapshot h0 self tag dsn r :
  frames (W:=W) h0 (ZFSManager.create_snapshot self tag dsn r).
Proof. frames_methods. Qed.

Lemma frames_destroy_snapshot h0 self tag dsn r :
  frames (W:=W) h0 (ZFSManager.destroy_snapshot self tag dsn r).
Proof. frames_methods. Qed.

Lemma frames_stop_all h0 : frames (W:=W) h0 DockerComposeManager.stop_all.
Proof. frames_methods. Qed.

Lemma frames_up_all h0 : frames (W:=W) h0 DockerComposeManager.up_all.
Proof. frames_methods. Qed.

Lemma frames_backup_all h0 self : frames (W:=W) h0 (BackupOrchestrator.backup_all self).
Proof.
  intros s0 Hs.
  destruct (BackupOrchestrator.backup_all self s0) as [r s'] eqn:E.
  apply backup_all_run in E. simpl.
  destruct E as [e s1 E1 | s1 e s2 r s3 E1 E2 E3 | s1 n s2 e s3 E1 E2 E3
                | s1 n s2 s3 e s4 E1 E2 E3 E4 | s1 n s2 s3 s4 e s5 E1 E2 E3 E4 E5
                | s1 n s2 s3 s4 s5 E1 E2 E3 E4 E5].
  all: pose proof (frames_stop_all h0 s0 Hs) as F1; rewrite E1 in F1; simpl in F1.
  all: try (pose proof (frames_create_snapshot h0 (BackupOrchestrator.zfs_manager self)
                        (Some (BackupOrchestrator.snapshot_tag self)) None true s1 F1) as F2;
            rewrite E2 in F2; simpl in F2;
            pose proof (frames_up_all h0 s2 F2) as F3; rewrite E3 in F3; simpl in F3).
  all: try (pose proof (frames_orchestrate h0 self s3 F3) as F4;
            rewrite E4 in F4; simpl in F4).
  all: try (pose proof (frames_destroy_snapshot h0 (BackupOrchestrator.zfs_manager self)
                        (BackupOrchestrator.snapshot_tag self) None true s4 F4) as F5;
            rewrite E5 in F5; simpl in F5).
  all: done.
Qed.

Lemma frames_export_keys_loop h0 self ds a b :
  frames (W:=W) h0 (MasterOrchestrator.export_keys_loop self ds a b).
Proof.
  revert a b. induction ds as [|d ds IH]; intros a b; simpl.
  - apply frames_ret.
  - apply frames_bind; [frames_methods|]. intros []; apply IH.
Qed.

Lemma frames_export_all_keys h0 self :
  frames (W:=W) h0 (MasterOrchestrator.export_all_keys self).
Proof.
  unfold MasterOrchestrator.export_all_keys.
  apply frames_bind; [frames_methods|]. intros prepared.
  destruct prepared; simpl; [|apply frames_ret].
  apply frames_bind; [frames_methods|]. intros [|d ds]; [apply frames_ret|].
  apply frames_bind; [apply frames_export_keys_loop|]. intros counts.
  frames_methods.
Qed.

(** X7. Constructing a manager checks the two required variables of the
    base environment: when both are present and non-empty the manager gets a
    new dict, the items of the base with [BORG_REPO] set to the repository
    path, and the base dict is left as it is; otherwise the constructor
    raises a [ValueError] naming the missing variables and changes nothing.
    No process runs in either case. *)
Theorem manager_init_contract repo base (s : State W) :
  let d := default ∅ (heap s !! base) in
  let missing := List.filter (λ var, negb (Py.truthy (d !! var)))
                   ["BORG_PASSPHRASE"; "BORG_RSH"] in
  match BorgBackupRepoManager.__init__ repo base s with
  | (Ok manager, s') =>
      missing = []
      ∧ BorgBackupRepoManager.repo_path manager = repo
      ∧ heap s !! BorgBackupRepoManager.borg_env manager = None
      ∧ heap s' = <[BorgBackupRepoManager.borg_env manager := <["BORG_REPO" := repo]> d]>
                    (heap s)
      ∧ heap s' !! base = heap s !! base
      ∧ world s' = world s ∧ trace s' = trace s
  | (Raise e, s') =>
      missing ≠ []
      ∧ e = ValueError (BorgBackupRepoManager.missing_config_msg missing)
      ∧ s' = s
  end.
Proof.
  intros d missing. rewrite borg_init_cases. fold d. unfold missing. simpl.
  destruct (Py.truthy (d !! "BORG_PASSPHRASE")) eqn:Hp,
           (Py.truthy (d !! "BORG_RSH")); simpl; try done.
  split_and!; try done; [apply fresh_loc_is_fresh|].
  destruct (decide (base = fresh_loc (heap s))) as [->|Hne].
  - unfold d in Hp. by rewrite fresh_loc_is_fresh in Hp.
  - by rewrite lookup_insert_ne.
Qed.

(** X8. No entry point changes a dict that exists when it is called: the
    backup run, the export of all keys, the check of a repository and the
    deletion of an archive work on copies of the base environment, so the
    credentials of the configuration are the same before and after,
    whether the call returns or raises. *)
Theorem entry_points_keep_existing_dicts :
  (∀ o, keeps_heap (W:=W) (BackupOrchestrator.backup_all o))
  ∧ (∀ m, keeps_heap (W:=W) (MasterOrchestrator.export_all_keys m))
  ∧ (∀ m service verify, keeps_heap (W:=W) (MasterOrchestrator.check_repo m service verify))
  ∧ (∀ m service archive,
       keeps_heap (W:=W) (MasterOrchestrator.delete_archive m service archive)).
Proof.
  split_and!; intros; apply keeps_heap_frames; intros h0.
  - apply frames_backup_all.
  - apply frames_export_all_keys.
  - frames_methods.
  - frames_methods.
Qed.

End HeapOfPipelines.

(** ** Loops over processes: the services and the system maintenance *)

Section ProcessLoops.
Context {W : Type} `{Host W}.

Lemma exec_events_cons c code cs codes (t : list event) :
  exec_events cs codes ++ EvExec c code :: t
  = exec_events (c :: cs) (code :: codes) ++ t.
Proof. unfold exec_events. simpl. by rewrite <- app_assoc. Qed.

(** A loop that runs one process per element and stops at the first exit
    code that is not accepted. *)
Lemma for_each_sh_run_spec {A} (f : A → Command) (ok : list Z)
    (body : A → M W unit) :
  (∀ x s, body x s = bind (sh_run (f x) ok) (λ _, ret tt) s) →
  ∀ l s, ∃ codes,
    (length codes ≤ length l)%nat
    ∧ trace (for_each l body s).2 = exec_events (f <$> l) codes ++ trace s
    ∧ heap (for_each l body s).2 = heap s
    ∧ match (for_each l body s).1 with
      | Ok _ => length codes = length l ∧ Forall (λ code, code ∈ ok) codes
      | Raise e =>
          ∃ pre code c,
            codes = pre ++ [code] ∧ Forall (λ code, code ∈ ok) pre ∧ (code ∉ ok)
            ∧ (f <$> l) !! length pre = Some c
            ∧ e = ErrorReturnCode code (argv c)
      end.
Proof.
  intros Hbody l. induction l as [|x l IH]; intros s.
  - exists []. simpl. split_and!; try done.
  - simpl. unfold bind. rewrite Hbody. unfold bind.
    destruct (exec (f x) (world s)) as [[out code] w'] eqn:Ex.
    rewrite (sh_run_unfold _ _ _ _ _ _ Ex).
    case_bool_decide as Hc; simpl.
    + destruct (IH (after s (f x) code w')) as (codes & Hlen & Ht & Hh & Hr).
      exists (code :: codes). split_and!.
      * simpl. lia.
      * rewrite Ht. simpl. apply exec_events_cons.
      * by rewrite Hh.
      * destruct (for_each l body (after s (f x) code w')).1 as [[]|e].
        -- destruct Hr as [Hl Hf]. split; [simpl; lia | by constructor].
        -- destruct Hr as (pre & code' & c & -> & Hpre & Hcode & Hc' & ->).
           exists (code :: pre), code', c. split_and!; try done. by constructor.
    + exists [code]. split_and!.
      * simpl. lia.
      * unfold exec_events. clear IH. by destruct l.
      * done.
      * simpl. exists (@nil Z), code, (f x). split_and!; try done.
Qed.

Lemma for_each_ext {A} (f g : A → M W unit) (l : list A) (s : State W) :
  (∀ x s', f x s' = g x s') → for_each l f s = for_each l g s.
Proof.
  intros Hfg. revert s. induction l as [|x l IH]; intros s; simpl; [done|].
  unfold bind. rewrite Hfg. destruct (g x s) as [[[]|e] s1]; [apply IH | done].
Qed.

Lemma run_command_on_all_unfold command args ok (s : State W) :
  DockerComposeManager._run_command_on_all command args ok s
  = for_each (find_compose_files (world s))
      (λ fd, try_except
               (bind (sh_run (DockerComposeManager.compose fd.1 fd.2 command args) ok)
                     (λ _, ret tt))
               (λ e, match e with
                     | ErrorReturnCode _ _ => Some (raise e)
                     | _ => None
                     end)) s.
Proof.
  unfold DockerComposeManager._run_command_on_all, bind at 1.
  unfold DockerComposeManager._find_compose_files.
  destruct (find_compose_files (world s)) as [|fd files] eqn:E; [done|].
  apply for_each_ext. by intros [f d] s'.
Qed.

Lemma reraise_unfold {A} (m : M W A) (s : State W) :
  try_except m (λ e, match e with
                     | ErrorReturnCode _ _ => Some (raise e)
                     | _ => None
                     end) s = m s.
Proof. unfold try_except. by destruct (m s) as [[a|[]] s']. Qed.

Lemma run_command_on_all_spec command args ok (s : State W) :
  let cmds := compose_commands command args (find_compose_files (world s)) in
  let r := DockerComposeManager._run_command_on_all command args ok s in
  ∃ codes,
    (length codes ≤ length cmds)%nat
    ∧ trace r.2 = exec_events cmds codes ++ trace s
    ∧ heap r.2 = heap s
    ∧ match r.1 with
      | Ok _ => length codes = length cmds ∧ Forall (λ code, code ∈ ok) codes
      | Raise e =>
          ∃ pre code c,
            codes = pre ++ [code] ∧ Forall (λ code, code ∈ ok) pre ∧ (code ∉ ok)
            ∧ cmds !! length pre = Some c
            ∧ e = ErrorReturnCode code (argv c)
      end.
Proof.
  intros cmds r. unfold r. rewrite run_command_on_all_unfold.
  unfold cmds, compose_commands.
  pose proof (for_each_sh_run_spec
    (λ fd : string * string, DockerComposeManager.compose fd.1 fd.2 command args) ok
    (λ fd, try_except
             (bind (sh_run (DockerComposeManager.compose fd.1 fd.2 command args) ok)
                   (λ _, ret tt))
             (λ e, match e with
                   | ErrorReturnCode _ _ => Some (raise e)
                   | _ => None
                   end))) as Hs.
  destruct (Hs (λ x s', reraise_unfold _ s') (find_compose_files (world s)) s)
    as (codes & Hlen & Ht & Hh & Hr).
  exists codes. rewrite length_fmap. split_and!; done.
Qed.

(** X9. [_run_command_on_all] runs the compose command once per compose
    file, in the order of the scan, and stops at the first process whose exit
    code is not accepted: the processes that ran are those of a prefix of the
    files, all but the last ended with an accepted code, the call returns
    exactly when every file was served and raises the failure of the last
    process otherwise.  Without compose files nothing runs and the call
    returns. *)
Theorem run_command_on_all_fail_fast command args ok (s : State W) :
  let cmds := compose_commands command args (find_compose_files (world s)) in
  let r := DockerComposeManager._run_command_on_all command args ok s in
  (∃ codes,
     (length codes ≤ length cmds)%nat
     ∧ trace r.2 = exec_events cmds codes ++ trace s
     ∧ match r.1 with
       | Ok _ => length codes = length cmds ∧ Forall (λ code, code ∈ ok) codes
       | Raise e =>
           ∃ pre code c,
             codes = pre ++ [code] ∧ Forall (λ code, code ∈ ok) pre ∧ (code ∉ ok)
             ∧ cmds !! length pre = Some c
             ∧ e = ErrorReturnCode code (argv c)
       end)
  ∧ (find_compose_files (world s) = [] → r = (Ok tt, s)).
Proof.
  intros cmds r. split.
  - destruct (run_command_on_all_spec command args ok s)
      as (codes & Hlen & Ht & _ & Hr).
    exists codes. split_and!; done.
  - intros E. unfold r. rewrite run_command_on_all_unfold, E. done.
Qed.

Lemma marked_run_unfold method command args ok (s : State W) :
  (call_marker method [] ;;; DockerComposeManager._run_command_on_all command args ok) s
  = DockerComposeManager._run_command_on_all command args ok
      (mkState (world s) (heap s) (EvCall method [] :: trace s)).
Proof. done. Qed.

Lemma run_command_on_all_raises command args ok (s s' : State W) e :
  DockerComposeManager._run_command_on_all command args ok s = (Raise e, s') →
  ∃ code cmd, e = ErrorReturnCode code cmd ∧ code ∉ ok.
Proof.
  intros E. destruct (run_command_on_all_spec command args ok s)
    as (codes & _ & _ & _ & Hr).
  rewrite E in Hr. simpl in Hr. destruct Hr as (pre & code & c & _ & _ & Hc & _ & ->).
  by exists code, (argv c).
Qed.

Lemma run_command_on_all_first command args ok (s : State W) f d rest out code w' :
  find_compose_files (world s) = (f, d) :: rest →
  exec (DockerComposeManager.compose f d command args) (world s) = (out, code, w') →
  code ∉ ok →
  DockerComposeManager._run_command_on_all command args ok s
  = (Raise (ErrorReturnCode code
              (argv (DockerComposeManager.compose f d command args))),
     after s (DockerComposeManager.compose f d command args) code w').
Proof.
  intros Hf Ex Hc. rewrite run_command_on_all_unfold, Hf. simpl.
  unfold bind. rewrite reraise_unfold. unfold bind.
  rewrite (sh_run_unfold _ _ _ _ _ _ Ex). by rewrite bool_decide_eq_false_2.
Qed.

Lemma run_command_on_all_single command args ok (s : State W) f d out code w' :
  find_compose_files (world s) = [(f, d)] →
  exec (DockerComposeManager.compose f d command args) (world s) = (out, code, w') →
  code ∈ ok →
  DockerComposeManager._run_command_on_all command args ok s
  = (Ok tt, after s (DockerComposeManager.compose f d command args) code w').
Proof.
  intros Hf Ex Hc. rewrite run_command_on_all_unfold, Hf. simpl.
  unfold bind. rewrite reraise_unfold. unfold bind.
  rewrite (sh_run_unfold _ _ _ _ _ _ Ex). by rewrite bool_decide_eq_true_2.
Qed.

(** X10. Starting and restarting the services accept exit code 1 of a
    compose process, the other commands accept only 0: [start_all] and
    [restart_all] raise only for a process that ended with a code other than
    0 and 1, while [stop_all], [up_all], [down_all] and [pull_all] raise for
    any non-zero code.  With one compose file whose process ends with code 1,
    [restart_all] returns and [stop_all] raises. *)
Theorem restart_accepts_exit_code_one (s : State W) :
  (∀ e s',
     DockerComposeManager.start_all s = (Raise e, s')
     ∨ DockerComposeManager.restart_all s = (Raise e, s') →
     ∃ code cmd, e = ErrorReturnCode code cmd ∧ code ≠ 0 ∧ code ≠ 1)
  ∧ (∀ e s',
       DockerComposeManager.stop_all s = (Raise e, s')
       ∨ DockerComposeManager.up_all s = (Raise e, s')
       ∨ DockerComposeManager.down_all s = (Raise e, s')
       ∨ DockerComposeManager.pull_all s = (Raise e, s') →
       ∃ code cmd, e = ErrorReturnCode code cmd ∧ code ≠ 0)
  ∧ (∀ f d out w',
       find_compose_files (world s) = [(f, d)] →
       exec (DockerComposeManager.compose f d "restart" []) (world s) = (out, 1, w') →
       (DockerComposeManager.restart_all s).1 = Ok tt)
  ∧ (∀ f d out w',
       find_compose_files (world s) = [(f, d)] →
       exec (DockerComposeManager.compose f d "stop" []) (world s) = (out, 1, w') →
       (DockerComposeManager.stop_all s).1
       = Raise (ErrorReturnCode 1 (argv (DockerComposeManager.compose f d "stop" [])))).
Proof.
  split_and!.
  - intros e s' [E|E];
      apply run_command_on_all_raises in E as (code & cmd & -> & Hc);
      exists code, cmd; (split; [done | set_solver]).
  - intros e s' [E|[E|[E|E]]];
      apply run_command_on_all_raises in E as (code & cmd & -> & Hc);
      exists code, cmd; (split; [done | set_solver]).
  - intros f d out w' Hf Ex.
    unfold DockerComposeManager.restart_all. rewrite marked_run_unfold.
    rewrite (run_command_on_all_single "restart" [] [0; 1]
               (mkState (world s) (heap s) (EvCall "restart_all" [] :: trace s))
               f d out 1 w' Hf Ex);
      [done | set_solver].
  - intros f d out w' Hf Ex.
    unfold DockerComposeManager.stop_all. rewrite marked_run_unfold.
    rewrite (run_command_on_all_first "stop" [] [0]
               (mkState (world s) (heap s) (EvCall "stop_all" [] :: trace s))
               f d [] out 1 w' Hf Ex);
      [done | set_solver].
Qed.

Lemma perform_maintenance_unfold (s : State W) :
  SystemManager.perform_maintenance true s
  = for_each SystemManager.maintenance_steps
      (λ command, bind (sh_run (SystemManager.apt_command command) [0]) (λ _, ret tt)) s.
Proof.
  unfold SystemManager.perform_maintenance, try_except.
  destruct (for_each _ _ s) as [[a|[]] s']; done.
Qed.

(** X11. The maintenance routine.  In the foreground (the default) it runs
    [apt-get update], [upgrade -y], [autoremove -y] and [autoclean] in this
    order, each only after the one before it ended with exit code 0; it
    returns when all four did, and raises the failure of the first one that
    did not, the later steps being skipped.  With [foreground] false only
    [apt-get update] runs: if it ends with exit code 0 the routine raises the
    [AttributeError] of reading [stdout] from its result, and otherwise the
    failure of the command, or the [UnicodeDecodeError] of the call that logs
    its error output when that does not decode. *)
Theorem perform_maintenance_fail_fast foreground (s : State W) :
  let update := mkCommand ["sudo"; "apt-get"; "update"] None None in
  let cmds := [update;
               mkCommand ["sudo"; "apt-get"; "upgrade"; "-y"] None None;
               mkCommand ["sudo"; "apt-get"; "autoremove"; "-y"] None None;
               mkCommand ["sudo"; "apt-get"; "autoclean"] None None] in
  let r := SystemManager.perform_maintenance foreground s in
  (foreground = true →
   ∃ codes,
     trace r.2 = exec_events cmds codes ++ trace s
     ∧ match r.1 with
       | Ok _ => codes = [0; 0; 0; 0]
       | Raise e =>
           ∃ pre code c,
             codes = pre ++ [code] ∧ Forall (λ code, code = 0) pre ∧ code ≠ 0
             ∧ cmds !! length pre = Some c
             ∧ e = ErrorReturnCode code (argv c)
       end)
  ∧ (foreground = false →
     let code := (exec update (world s)).1.2 in
     let w' := (exec update (world s)).2 in
     r.2 = after s update code w'
     ∧ r.1 = if bool_decide (code = 0)
             then Raise (AttributeError "'str' object has no attribute 'stdout'")
             else if stderr_decodes update w'
                  then Raise (ErrorReturnCode code (argv update))
                  else Raise UnicodeDecodeError).
Proof.
  intros update cmds r. split.
  - intros ->. unfold r. rewrite perform_maintenance_unfold.
    destruct (for_each_sh_run_spec SystemManager.apt_command [0]
                (λ command, bind (sh_run (SystemManager.apt_command command) [0])
                                 (λ _, ret tt))
                (λ x s', eq_refl) SystemManager.maintenance_steps s)
      as (codes & Hlen & Ht & _ & Hr).
    exists codes. split; [exact Ht|].
    destruct (for_each _ _ s).1 as [[]|e].
    + destruct Hr as [Hl Hf]. simpl in Hl.
      destruct codes as [|c1 [|c2 [|c3 [|c4 [|? ?]]]]]; try done.
      repeat match goal with
             | Hx : Forall _ (_ :: _) |- _ =>
                 apply Forall_cons in Hx; destruct Hx as [? Hx]
             end.
      repeat match goal with
             | Hx : _ ∈ [0] |- _ => apply list_elem_of_singleton in Hx; subst
             end.
      done.
    + destruct Hr as (pre & code & c & -> & Hpre & Hc & Hlk & ->).
      exists pre, code, c. split_and!; try done.
      * eapply Forall_impl; [exact Hpre|]. intros x Hx. set_solver.
      * set_solver.
  - intros -> code w'.
    assert (∃ out, exec update (world s) = (out, code, w')) as [out E].
    { unfold code, w'. destruct (exec update (world s)) as [[? ?] ?]. by eexists. }
    clearbody code w'. unfold r, SystemManager.perform_maintenance, try_except.
    simpl. unfold bind.
    change (SystemManager.apt_command "update") with update.
    rewrite (sh_run_unfold _ _ _ _ _ _ E).
    case_bool_decide as Hc.
    + apply list_elem_of_singleton in Hc as ->. by rewrite bool_decide_eq_true_2.
    + rewrite bool_decide_eq_false_2 by (intros ->; apply Hc; set_solver).
      unfold decode_stderr. simpl.
      change {| argv := ["sudo"; "apt-get"; "update"]; cmd_env := None;
                cmd_cwd := None |} with update.
      by destruct (stderr_decodes update w').
Qed.

End ProcessLoops.

(** ** The restart step of the backup pipeline *)

Section Restart.
Context {W : Type} `{Host W}.

Lemma count_app (p : event → bool) (t1 t2 : list event) :
  count p (t1 ++ t2) = (count p t1 + count p t2)%nat.
Proof. unfold count. by rewrite List.filter_app, length_app. Qed.

Lemma count_up_events args files codes :
  (length codes ≤ length files)%nat →
  count is_compose_up (exec_events (compose_commands "up" args files) codes)
  = length codes.
Proof.
  unfold exec_events, compose_commands. revert codes.
  induction files as [|[f d] files IH]; intros codes Hl.
  - destruct codes; [done | simpl in Hl; lia].
  - destruct codes as [|code codes]; [done|]. simpl in Hl.
    change (zip_with EvExec ((λ fd, DockerComposeManager.compose fd.1 fd.2 "up" args)
                               <$> (f, d) :: files) (code :: codes))
      with (EvExec (DockerComposeManager.compose f d "up" args) code
            :: zip_with EvExec
                 ((λ fd, DockerComposeManager.compose fd.1 fd.2 "up" args) <$> files)
                 codes).
    cbn [rev]. rewrite count_app, IH by lia.
    rewrite count_cons. simpl. unfold count. simpl. lia.
Qed.

(** What the restart step does: one [up -d --build] process per compose
    file, in the order of the scan, until one fails. *)
Lemma up_all_spec (s : State W) :
  let ups := compose_commands "up" ["-d"; "--build"] (find_compose_files (world s)) in
  ∃ codes,
    (length codes ≤ length ups)%nat
    ∧ trace (DockerComposeManager.up_all s).2
      = exec_events ups codes ++ EvCall "up_all" [] :: trace s
    ∧ match (DockerComposeManager.up_all s).1 with
      | Ok _ => length codes = length ups ∧ Forall (λ code, code = 0) codes
      | Raise e =>
          ∃ pre code c,
            codes = pre ++ [code] ∧ Forall (λ code, code = 0) pre ∧ code ≠ 0
            ∧ ups !! length pre = Some c
            ∧ e = ErrorReturnCode code (argv c)
      end.
Proof.
  intros ups. unfold DockerComposeManager.up_all. rewrite marked_run_unfold.
  destruct (run_command_on_all_spec "up" ["-d"; "--build"] [0]
              (mkState (world s) (heap s) (EvCall "up_all" [] :: trace s)))
    as (codes & Hlen & Ht & _ & Hr).
  exists codes. split_and!; [done | done |].
  destruct (DockerComposeManager._run_command_on_all _ _ _ _).1 as [[]|e].
  - destruct Hr as [Hl Hf]. split; [done|].
    eapply Forall_impl; [exact Hf|]. intros x Hx. set_solver.
  - destruct Hr as (pre & code & c & -> & Hpre & Hc & Hlk & ->).
    exists pre, code, c. split_and!; try done.
    + eapply Forall_impl; [exact Hpre|]. intros x Hx. set_solver.
    + set_solver.
Qed.

Lemma quiet_up_backup_all_steps self :
  quiet (W:=W) is_compose_up DockerComposeManager.stop_all
  ∧ (∀ tag dsn r, quiet (W:=W) is_compose_up (ZFSManager.create_snapshot self tag dsn r))
  ∧ (∀ tag dsn r, quiet (W:=W) is_compose_up (ZFSManager.destroy_snapshot self tag dsn r))
  ∧ (∀ o, quiet (W:=W) is_compose_up (BackupOrchestrator._orchestrate_dataset_backups o)).
Proof. split_and!; intros; quiet_methods. Qed.

(** C2 (as amended). In every run of [backup_all] whose stop step returned,
    whatever the snapshot step did (returned or raised): the restart step
    runs exactly once, on the state the snapshot step left.  It starts one
    [docker compose up -d --build] process per compose file, in the order of
    the scan, each after the one before it ended with exit code 0, and these
    are the only such processes of the run.  When the snapshot step raised,
    the run ends in the state the restart left, with the error of the
    snapshot step (or the restart's own error, if it failed too); when the
    restart fails after a snapshot was created, its error ends the run. *)
Theorem restart_runs_exactly_once self (s0 s1 : State W) r2 s2 :
  DockerComposeManager.stop_all s0 = (Ok tt, s1) →
  ZFSManager.create_snapshot (BackupOrchestrator.zfs_manager self)
    (Some (BackupOrchestrator.snapshot_tag self)) None true s1 = (r2, s2) →
  let ups := compose_commands "up" ["-d"; "--build"] (find_compose_files (world s2)) in
  let restart := DockerComposeManager.up_all s2 in
  let run := BackupOrchestrator.backup_all self s0 in
  (∃ codes,
     trace restart.2 = exec_events ups codes ++ EvCall "up_all" [] :: trace s2
     ∧ match restart.1 with
       | Ok _ => length codes = length ups ∧ Forall (λ code, code = 0) codes
       | Raise e =>
           ∃ pre code c,
             codes = pre ++ [code] ∧ Forall (λ code, code = 0) pre ∧ code ≠ 0
             ∧ ups !! length pre = Some c
             ∧ e = ErrorReturnCode code (argv c)
       end
     ∧ count is_compose_up (trace run.2)
       = (length codes + count is_compose_up (trace s0))%nat)
  ∧ count is_restart (trace run.2) = S (count is_restart (trace s0))
  ∧ (∀ e, r2 = Raise e →
       run = (Raise (match restart.1 with Ok _ => e | Raise e' => e' end), restart.2))
  ∧ (∀ n e, r2 = Ok n → restart.1 = Raise e →
       run = (Raise e, reported self restart.2)).
Proof.
  intros E1 E2 ups restart run.
  destruct (quiet_up_backup_all_steps (BackupOrchestrator.zfs_manager self))
    as (U1 & U2 & U5 & U4).
  pose proof (U1 s0) as V1. rewrite E1 in V1. simpl in V1.
  pose proof (U2 (Some (BackupOrchestrator.snapshot_tag self)) None true s1) as V2.
  rewrite E2 in V2. simpl in V2.
  pose proof (quiet_restart_stop_all s0) as Q1. rewrite E1 in Q1. simpl in Q1.
  pose proof (quiet_restart_create_snapshot (BackupOrchestrator.zfs_manager self)
                (Some (BackupOrchestrator.snapshot_tag self)) None true s1) as Q2.
  rewrite E2 in Q2. simpl in Q2.
  pose proof (up_all_counts_once s2) as Q3. fold restart in Q3.
  destruct (up_all_spec s2) as (codes & Hlen & Ht & Hr). fold ups restart in Hlen, Ht, Hr.
  assert (count is_compose_up (trace restart.2)
          = (length codes + count is_compose_up (trace s0))%nat) as V3.
  { rewrite Ht, count_app, count_cons. simpl.
    unfold ups, compose_commands in Hlen. rewrite length_fmap in Hlen.
    unfold ups. rewrite count_up_events by done. lia. }
  assert (run = BackupOrchestrator.backup_all self s0) as Hrun by done.
  destruct (DockerComposeManager.up_all s2) as [r3 s3] eqn:E3.
  unfold restart in *. simpl in Q3, Ht, Hr, V3 |- *.
  unfold BackupOrchestrator.backup_all, BackupOrchestrator.backup_all_try in Hrun.
  rewrite E1, E2 in Hrun.
  destruct r2 as [n|e2].
  - rewrite E3 in Hrun. destruct r3 as [[]|e3].
    + pose proof (U4 self s3) as V4.
      pose proof (quiet_restart_orchestrate self s3) as Q4.
      destruct (BackupOrchestrator._orchestrate_dataset_backups self s3)
        as [[[]|e4] s4] eqn:E4; simpl in V4, Q4.
      * pose proof (U5 (BackupOrchestrator.snapshot_tag self) None true s4) as V5.
        pose proof (quiet_restart_destroy_snapshot
                      (BackupOrchestrator.zfs_manager self)
                      (BackupOrchestrator.snapshot_tag self) None true s4) as Q5.
        destruct (ZFSManager.destroy_snapshot _ _ _ _ s4) as [[[]|e5] s5] eqn:E5;
          simpl in V5, Q5; rewrite Hrun; simpl; rewrite ?count_cons; simpl;
          (split; [exists codes; split; [done|]; split; [done | lia] |]);
          (split; [lia | by split]).
      * rewrite Hrun. simpl. rewrite ?count_cons. simpl.
        split; [exists codes; split; [done|]; split; [done | lia] |].
        split; [lia | by split].
    + rewrite Hrun. simpl. rewrite ?count_cons. simpl.
      split; [exists codes; split; [done|]; split; [done | lia] |].
      split; [lia|]. split; [done|]. by intros ? ? _ [= ->].
  - rewrite E3 in Hrun. rewrite Hrun.
    destruct r3 as [[]|e3]; simpl;
      (split; [exists codes; split; [done|]; split; [done | lia] |]);
      (split; [lia|]); (split; [by intros ? [= ->] | done]).
Qed.

End Restart.

(** ** The orchestrator: maintenance and storage operations *)

Ltac unfold_more :=
  unfold DockerComposeManager.down_all, DockerComposeManager.start_all,
    DockerComposeManager.pull_all, DockerComposeManager.restart_all,
    ZFSManager.dataset_exists, ZFSManager.create_dataset, ZFSManager.list_snapshots,
    BorgBackupRepoManager.export_recovery_key, BorgBackupRepoManager.unlink_logged,
    BorgBackupRepoManager.display_repository_info,
    BorgBackupRepoManager.delete_archive,
    SystemManager.perform_maintenance,
    MasterOrchestrator.system_maintenance, MasterOrchestrator.snapshot_all,
    MasterOrchestrator.snapshot_one, MasterOrchestrator.create_service_dataset,
    MasterOrchestrator.snapshot_destroy_all,
    MasterOrchestrator._get_borg_manager_for_service,
    MasterOrchestrator._get_borg_manager_for_dataset,
    MasterOrchestrator.check_repo, MasterOrchestrator.delete_archive,
    MasterOrchestrator.export_one_key, MasterOrchestrator.export_all_keys.

Ltac quiet_more :=
  repeat first [quiet_step | progress unfold_methods | progress unfold_more].

Section Orchestrator.
Context {W : Type} `{Host W}.

Lemma quiet_restart_down_all : quiet (W:=W) is_restart DockerComposeManager.down_all.
Proof. quiet_more. Qed.

Lemma quiet_restart_perform_maintenance foreground :
  quiet (W:=W) is_restart (SystemManager.perform_maintenance foreground).
Proof. quiet_more. Qed.

(** X12. [system_maintenance] has no clean-up step: when taking the
    services down fails nothing else runs; when a maintenance command fails
    after the services were taken down, the call ends with that failure in
    the state the command left and the services are not brought up again;
    only when both steps returned are the services brought up, once. *)
Theorem system_maintenance_restarts_only_on_success self (s : State W) :
  let down := DockerComposeManager.down_all s in
  let maintenance := SystemManager.perform_maintenance true down.2 in
  match down.1, maintenance.1 with
  | Raise e, _ => MasterOrchestrator.system_maintenance self s = (Raise e, down.2)
  | Ok _, Raise e =>
      MasterOrchestrator.system_maintenance self s = (Raise e, maintenance.2)
      ∧ count is_restart (trace maintenance.2) = count is_restart (trace s)
  | Ok _, Ok _ =>
      MasterOrchestrator.system_maintenance self s
      = DockerComposeManager.up_all maintenance.2
      ∧ count is_restart (trace (MasterOrchestrator.system_maintenance self s).2)
        = S (count is_restart (trace s))
  end.
Proof.
  intros down maintenance. unfold MasterOrchestrator.system_maintenance, bind.
  pose proof (quiet_restart_down_all s) as Q1. fold down in Q1.
  pose proof (quiet_restart_perform_maintenance true down.2) as Q2.
  fold maintenance in Q2.
  unfold maintenance in *. clear maintenance.
  unfold down in *. clear down.
  destruct (DockerComposeManager.down_all s) as [[[]|e1] s1]; simpl in *; [|done].
  destruct (SystemManager.perform_maintenance true s1) as [[[]|e2] s2]; simpl in *.
  - split; [done|]. rewrite up_all_counts_once. congruence.
  - split; [done|]. congruence.
Qed.

Lemma down_all_counts_once (s : State W) :
  count is_down (trace (DockerComposeManager.down_all s).2)
  = S (count is_down (trace s)).
Proof.
  unfold DockerComposeManager.down_all, call_marker.
  rewrite count_marked; [done|]. quiet_methods.
Qed.

Lemma after_down_all (op : M W unit) :
  quiet is_restart op → quiet is_down op →
  leaves_services_down (DockerComposeManager.down_all ;;; op).
Proof.
  intros Qr Qd s. unfold bind.
  pose proof (quiet_restart_down_all s) as Q1.
  pose proof (down_all_counts_once s) as Q2.
  destruct (DockerComposeManager.down_all s) as [[[]|e] s1]; simpl in *.
  - rewrite Qr, Qd. split_and!; done.
  - split_and!; [done | done | by intros ? ? [= <- <-]].
Qed.

(** X13. The storage operations of the orchestrator (a recursive snapshot
    of all services, a snapshot of one service, a new dataset for a service,
    the recursive destruction of a snapshot) take the services down exactly
    once, before any storage command, run nothing when that fails, and never
    bring the services up again, whether the operation returns or raises. *)
Theorem storage_operations_leave_services_down self :
  (∀ snapshot_name,
     leaves_services_down (W:=W) (MasterOrchestrator.snapshot_all self snapshot_name))
  ∧ (∀ service_name snapshot_name,
       leaves_services_down (W:=W)
         (MasterOrchestrator.snapshot_one self service_name snapshot_name))
  ∧ (∀ service_name,
       leaves_services_down (W:=W)
         (MasterOrchestrator.create_service_dataset self service_name))
  ∧ (∀ snapshot_name,
       leaves_services_down (W:=W)
         (MasterOrchestrator.snapshot_destroy_all self snapshot_name)).
Proof.
  split_and!; intros; apply after_down_all; quiet_more.
Qed.

End Orchestrator.

(** ** Datasets, and queries that fail *)

Section Datasets.
Context {W : Type} `{Host W}.

Lemma probe_outcome_error nf code c :
  code ≠ 0 → code ≠ nf →
  probe_outcome nf code c = Raise (ErrorReturnCode code (argv c)).
Proof.
  intros H0 Hnf. unfold probe_outcome.
  by rewrite (bool_decide_eq_false_2 _ H0), (bool_decide_eq_false_2 _ Hnf).
Qed.

Lemma storage_probe_outcome_error decodes code c :
  code ≠ 0 → code ≠ 1 →
  storage_probe_outcome decodes code c
  = if decodes then Raise (ErrorReturnCode code (argv c)) else Raise UnicodeDecodeError.
Proof.
  intros H0 H1. unfold storage_probe_outcome.
  by rewrite (bool_decide_eq_false_2 _ H0), (bool_decide_eq_false_2 _ H1).
Qed.

(** X14. [create_dataset] is idempotent on a dataset that the query reports
    present: only the query runs.  When the query reports it absent, the
    create command runs (with [-p] when parents are to be created).  If that
    fails the call raises without a second query: the failure of the command
    when its captured output decodes, and the [UnicodeDecodeError] of the
    calls that log that output otherwise.  After its success the query is
    repeated, and the call returns if the dataset is now reported present
    and raises the verification error if it is still reported absent. *)
Theorem create_dataset_contract self dataset_name create_parents
    (s : State W) o1 c1 w1 :
  let full := ZFSManager.parent_dataset self +:+ "/" +:+ dataset_name in
  let q := dataset_query self (Some dataset_name) in
  let c := create_command create_parents full in
  exec q (world s) = (o1, c1, w1) →
  (c1 = 0 →
     ZFSManager.create_dataset self dataset_name create_parents s
     = (Ok tt, after s q 0 w1))
  ∧ (c1 = 1 → ∀ o2 c2 w2,
       exec c w1 = (o2, c2, w2) →
       (c2 ≠ 0 →
          ZFSManager.create_dataset self dataset_name create_parents s
          = (if stdout_decodes c w2 && stderr_decodes c w2
             then Raise (ErrorReturnCode c2 (argv c))
             else Raise UnicodeDecodeError,
             after (after s q 1 w1) c c2 w2))
       ∧ (c2 = 0 → ∀ o3 c3 w3,
            exec q w2 = (o3, c3, w3) →
            let s3 := after (after (after s q 1 w1) c 0 w2) q c3 w3 in
            (c3 = 0 →
               ZFSManager.create_dataset self dataset_name create_parents s
               = (Ok tt, s3))
            ∧ (c3 = 1 →
                 ZFSManager.create_dataset self dataset_name create_parents s
                 = (Raise (RuntimeError (dataset_not_found_msg full)), s3)))).
Proof.
  intros full q c E1.
  assert (∀ o2 c2 w2, exec c w1 = (o2, c2, w2) →
            ZFSManager._execute_command
              (["create"] ++ (if create_parents then ["-p"] else []) ++ [full])
              (after s q 1 w1)
            = (command_outcome o2 (stdout_decodes c w2 && stderr_decodes c w2) c2 c,
               after (after s q 1 w1) c c2 w2)) as Hx.
  { intros o2 c2 w2 E2.
    exact (zfs_execute_command_unfold _ (after s q 1 w1) o2 c2 w2 E2). }
  split.
  - intros ->. unfold ZFSManager.create_dataset, bind.
    by rewrite (dataset_exists_unfold _ _ _ _ _ _ E1).
  - intros -> o2 c2 w2 E2. split.
    + intros Hc2. unfold ZFSManager.create_dataset, bind.
      rewrite (dataset_exists_unfold _ _ _ _ _ _ E1).
      change (storage_probe_outcome _ 1 _) with (Ok false (A:=bool)).
      cbv iota beta. fold full q. rewrite (Hx _ _ _ E2).
      unfold command_outcome. rewrite (bool_decide_eq_false_2 _ Hc2).
      by destruct (stdout_decodes c w2 && stderr_decodes c w2).
    + intros -> o3 c3 w3 E3 s3.
      assert (ZFSManager.create_dataset self dataset_name create_parents s
              = (match storage_probe_outcome (stderr_decodes q w3) c3 q with
                 | Ok true => Ok tt
                 | Ok false => Raise (RuntimeError (dataset_not_found_msg full))
                 | Raise e => Raise e
                 end, s3)) as Hd.
      { unfold ZFSManager.create_dataset, bind.
        rewrite (dataset_exists_unfold _ _ _ _ _ _ E1).
        change (storage_probe_outcome _ 1 _) with (Ok false (A:=bool)).
        cbv iota beta. fold full q. rewrite (Hx _ _ _ E2).
        change (command_outcome o2 _ 0 c) with (Ok o2).
        cbv iota beta.
        rewrite (dataset_exists_unfold self (Some dataset_name)
                   (after (after s q 1 w1) c 0 w2) _ _ _ E3).
        fold q s3. by destruct (storage_probe_outcome _ c3 q) as [[]|]. }
      split; intros ->; exact Hd.
Qed.

(** X15. A query that fails for another reason than "not found" stops the
    operation before it changes anything: [create_snapshot],
    [destroy_snapshot], [create_dataset] and [initialize_if_needed] raise
    after their first query, and that query is the only process they ran.
    [initialize_if_needed] raises the failure of the query; the operations
    of the storage manager raise it when the error output of the query
    decodes, and the [UnicodeDecodeError] of the call that logs that output
    otherwise. *)
Theorem failed_query_stops_the_operation (s : State W) :
  (∀ self tag dsn recursive out code w',
     tag ≠ "" →
     let q := snapshot_query (ZFSManager.full_snapshot_name self tag dsn) in
     let e := if stderr_decodes q w' then ErrorReturnCode code (argv q)
              else UnicodeDecodeError in
     exec q (world s) = (out, code, w') → code ≠ 0 → code ≠ 1 →
     ZFSManager.create_snapshot self (Some tag) dsn recursive s
     = (Raise e, after s q code w')
     ∧ ZFSManager.destroy_snapshot self tag dsn recursive s
       = (Raise e, after s q code w'))
  ∧ (∀ self dataset_name create_parents out code w',
       let q := dataset_query self (Some dataset_name) in
       let e := if stderr_decodes q w' then ErrorReturnCode code (argv q)
                else UnicodeDecodeError in
       exec q (world s) = (out, code, w') → code ≠ 0 → code ≠ 1 →
       ZFSManager.create_dataset self dataset_name create_parents s
       = (Raise e, after s q code w'))
  ∧ (∀ self out code w',
       let q := repository_query (env_of self s) in
       exec q (world s) = (out, code, w') → code ≠ 0 → code ≠ 2 →
       BorgBackupRepoManager.initialize_if_needed self s
       = (Raise (ErrorReturnCode code (argv q)), after s q code w')).
Proof.
  split_and!.
  - intros self tag dsn recursive out code w' Ht q e E H0 H1. split.
    + rewrite create_snapshot_explicit_tag by done. unfold bind.
      rewrite (snapshot_exists_unfold _ _ _ _ _ E).
      rewrite storage_probe_outcome_error by done. fold q. unfold e.
      by destruct (stderr_decodes q w').
    + unfold ZFSManager.destroy_snapshot, bind.
      rewrite (snapshot_exists_unfold _ _ _ _ _ E).
      rewrite storage_probe_outcome_error by done. fold q. unfold e.
      by destruct (stderr_decodes q w').
  - intros self dn cp out code w' q e E H0 H1.
    unfold ZFSManager.create_dataset, bind.
    rewrite (dataset_exists_unfold _ _ _ _ _ _ E).
    rewrite storage_probe_outcome_error by done. fold q. unfold e.
    by destruct (stderr_decodes q w').
  - intros self out code w' q E H0 H2.
    unfold BorgBackupRepoManager.initialize_if_needed, bind.
    rewrite reraise_unfold.
    rewrite (repository_exists_unfold _ _ _ _ _ E).
    by rewrite probe_outcome_error.
Qed.

End Datasets.

(** ** Archives: pruning, repository status, the keep-alive option *)

Section Archives.
Context {W : Type} `{Host W}.

Lemma balanced_quiet {A} (m : M W A) :
  quiet is_borg_prune m → quiet is_created m → prunes_what_it_created m.
Proof. intros Q1 Q2 s. by rewrite Q1, Q2. Qed.

Lemma balanced_bind {A B} (m : M W A) (k : A → M W B) :
  prunes_what_it_created m → (∀ a, prunes_what_it_created (k a)) →
  prunes_what_it_created (bind m k).
Proof.
  intros Hm Hk s. unfold bind. specialize (Hm s).
  destruct (m s) as [[a|e] s']; simpl in *; [|done].
  specialize (Hk a s'). lia.
Qed.

Lemma balanced_for_each {A} (l : list A) (body : A → M W unit) :
  (∀ x, prunes_what_it_created (body x)) → prunes_what_it_created (for_each l body).
Proof.
  intros Hb. induction l as [|x l IH]; simpl.
  - by intros s.
  - apply balanced_bind; auto.
Qed.

Lemma balanced_create_then_prune self name src comp excl policy :
  prunes_what_it_created (W:=W)
    (BorgBackupRepoManager.create_archive self name src comp excl ;;;
     BorgBackupRepoManager.prune_archives self policy).
Proof.
  intros s. unfold bind, BorgBackupRepoManager.create_archive,
    BorgBackupRepoManager.prune_archives, bind.
  rewrite borg_execute_command_fg_unfold.
  set (cc := BorgBackupRepoManager.borg_with (env_of self s)
               ["create"; "--verbose"; "--stats"; "--progress";
                "--compression=" +:+ comp; "--exclude-from=" +:+ excl;
                "::" +:+ name; src]).
  destruct (exec cc (world s)) as [[o1 c1] w1] eqn:E1.
  rewrite (sh_run_unfold _ _ _ _ _ _ E1).
  case_bool_decide as Hc1; simpl.
  - apply list_elem_of_singleton in Hc1 as ->.
    rewrite borg_execute_command_fg_unfold.
    change (env_of self (after s cc 0 w1)) with (env_of self s).
    set (cp := BorgBackupRepoManager.borg_with (env_of self s)
                 (["prune"; "--verbose"; "--list"; "--show-rc"; "--progress"]
                  ++ policy)).
    destruct (exec cp w1) as [[o2 c2] w2] eqn:E2.
    rewrite (sh_run_unfold cp _ (after s cc 0 w1) _ _ _ E2).
    case_bool_decide; simpl; rewrite !count_cons; unfold count; simpl; lia.
  - rewrite !count_cons. unfold count. simpl.
    rewrite bool_decide_eq_false_2 by set_solver. simpl. lia.
Qed.

Lemma balanced_backup_single_dataset self d :
  prunes_what_it_created (W:=W) (BackupOrchestrator._backup_single_dataset self d).
Proof.
  unfold BackupOrchestrator._backup_single_dataset.
  apply balanced_bind; [apply balanced_quiet; quiet_methods|]. intros _.
  apply balanced_bind; [apply balanced_quiet; quiet_methods|]. intros archive_name.
  intros s. unfold try_except.
  assert (prunes_what_it_created (W:=W)
            (BackupOrchestrator._backup_single_snapshot self
               (BackupOrchestrator._get_repo_path self d) archive_name
               (BackupOrchestrator._get_snapshot_path self d))) as Hb.
  { unfold BackupOrchestrator._backup_single_snapshot.
    apply balanced_bind; [apply balanced_quiet; quiet_methods|]. intros manager.
    apply balanced_bind; [apply balanced_quiet; quiet_methods|]. intros _.
    apply balanced_create_then_prune. }
  specialize (Hb s).
  by destruct (BackupOrchestrator._backup_single_snapshot _ _ _ _ s) as [[[]|e] s'].
Qed.

Lemma balanced_orchestrate self :
  prunes_what_it_created (W:=W) (BackupOrchestrator._orchestrate_dataset_backups self).
Proof.
  unfold BackupOrchestrator._orchestrate_dataset_backups.
  apply balanced_bind; [apply balanced_quiet; quiet_methods|]. intros [|d ds].
  - by intros s.
  - apply balanced_bind.
    + apply balanced_for_each, balanced_backup_single_dataset.
    + intros _. apply balanced_quiet; quiet_methods.
Qed.

(** X16. In every run of [backup_all], on every host, the number of prune
    commands issued equals the number of create commands that ended with
    exit code 0: a repository is pruned right after an archive was created
    in it, whatever the outcome of the pruning, and is never pruned after a
    creation that failed. *)
Theorem prune_follows_successful_create self (s : State W) :
  let s' := (BackupOrchestrator.backup_all self s).2 in
  (count is_borg_prune (trace s') + count is_created (trace s)
   = count is_borg_prune (trace s) + count is_created (trace s'))%nat.
Proof.
  intros s'. unfold s'. clear s'.
  destruct (BackupOrchestrator.backup_all self s) as [r s'] eqn:E.
  apply backup_all_run in E. simpl.
  assert (∀ p, (p = is_borg_prune ∨ p = is_created) →
            quiet (W:=W) p DockerComposeManager.stop_all
            ∧ quiet (W:=W) p DockerComposeManager.up_all
            ∧ (∀ tag dsn r, quiet (W:=W) p
                 (ZFSManager.create_snapshot (BackupOrchestrator.zfs_manager self) tag dsn r))
            ∧ (∀ tag dsn r, quiet (W:=W) p
                 (ZFSManager.destroy_snapshot (BackupOrchestrator.zfs_manager self) tag dsn r)))
    as Q.
  { intros p [-> | ->]; split_and!; intros; quiet_methods. }
  destruct (Q is_borg_prune (or_introl eq_refl)) as (P1 & P2 & P3 & P4).
  destruct (Q is_created (or_intror eq_refl)) as (C1 & C2 & C3 & C4).
  destruct E as [e s1 E1 | s1 e s2 r s3 E1 E2 E3 | s1 n s2 e s3 E1 E2 E3
                | s1 n s2 s3 e s4 E1 E2 E3 E4 | s1 n s2 s3 s4 e s5 E1 E2 E3 E4 E5
                | s1 n s2 s3 s4 s5 E1 E2 E3 E4 E5].
  all: pose proof (P1 s) as X1; pose proof (C1 s) as Y1;
    rewrite E1 in X1, Y1; simpl in X1, Y1.
  all: try (pose proof (P3 (Some (BackupOrchestrator.snapshot_tag self)) None true s1) as X2;
            pose proof (C3 (Some (BackupOrchestrator.snapshot_tag self)) None true s1) as Y2;
            rewrite E2 in X2, Y2; simpl in X2, Y2;
            pose proof (P2 s2) as X3; pose proof (C2 s2) as Y3;
            rewrite E3 in X3, Y3; simpl in X3, Y3).
  all: try (pose proof (balanced_orchestrate self s3) as X4;
            rewrite E4 in X4; simpl in X4).
  all: try (pose proof (P4 (BackupOrchestrator.snapshot_tag self) None true s4) as X5;
            pose proof (C4 (BackupOrchestrator.snapshot_tag self) None true s4) as Y5;
            rewrite E5 in X5, Y5; simpl in X5, Y5).
  all: unfold reported; simpl; rewrite ?count_cons; unfold count in *; simpl; lia.
Qed.

(** X17. [display_repository_info] never raises: it runs [borg info] and,
    only when that ended with exit code 0, [borg list]; a failure of either
    process ends the method normally, and after a failed [borg info] no
    other process runs. *)
Theorem display_repository_info_never_raises self (s : State W) :
  let info := BorgBackupRepoManager.borg_with (env_of self s) ["info"] in
  let list := BorgBackupRepoManager.borg_with (env_of self s) ["list"] in
  let code1 := (exec info (world s)).1.2 in
  let w1 := (exec info (world s)).2 in
  let code2 := (exec list w1).1.2 in
  let w2 := (exec list w1).2 in
  BorgBackupRepoManager.display_repository_info self s
  = (Ok tt,
     if bool_decide (code1 = 0)
     then after (after s info 0 w1) list code2 w2
     else after s info code1 w1).
Proof.
  intros info list code1 w1 code2 w2. subst code2 w2 code1 w1.
  destruct (exec info (world s)) as [[o1 c1] w1'] eqn:E1. simpl.
  destruct (exec list w1') as [[o2 c2] w2'] eqn:E2. simpl.
  unfold BorgBackupRepoManager.display_repository_info, bind at 1.
  unfold try_except at 1. unfold bind at 1.
  rewrite borg_execute_command_fg_unfold. fold info.
  rewrite (sh_run_unfold _ _ _ _ _ _ E1).
  case_bool_decide as Hc1.
  - apply list_elem_of_singleton in Hc1 as ->. simpl.
    unfold try_except, bind. rewrite borg_execute_command_fg_unfold.
    change (env_of self (after s info 0 w1')) with (env_of self s). fold list.
    rewrite (sh_run_unfold list _ (after s info 0 w1') _ _ _ E2).
    by case_bool_decide.
  - simpl. rewrite bool_decide_eq_false_2 by set_solver. done.
Qed.

(** *** The keep-alive option *)

Lemma prefix_nil (s : string) : String.prefix "" s = true.
Proof. by destruct s. Qed.

Lemma prefix_app_short (p a b : string) :
  (String.length p ≤ String.length a)%nat →
  String.prefix p (a +:+ b) = String.prefix p a.
Proof.
  revert a. induction p as [|x p IH]; intros a Hl; [by rewrite !prefix_nil|].
  destruct a as [|y a]; simpl in Hl; [lia|].
  rewrite string_app_cons. simpl. destruct (ascii_dec x y); [|done].
  apply IH. lia.
Qed.

Lemma contains_cons (sub : string) (x : ascii) (s : string) :
  Py.contains sub (String x s) = String.prefix sub (String x s) || Py.contains sub s.
Proof. done. Qed.

Lemma replace_go_cons old new (n : nat) (c : ascii) (s : string) :
  Py.replace_go old new (Some (S n)) 0 (String c s)
  = if String.prefix old (String c s)
    then new +:+ Py.replace_go old new (Some n) (Nat.pred (String.length old)) s
    else String c (Py.replace_go old new (Some (S n)) 0 s).
Proof. done. Qed.

Lemma replace_go_exhausted old new (s : string) :
  Py.replace_go old new (Some 0%nat) 0 s = s.
Proof. by destruct s. Qed.

(** [replace] with count 1 rewrites the first occurrence of ["ssh "] and
    nothing after it. *)
Lemma replace_first_ssh new (pre rest : string) :
  Py.contains "ssh " (pre +:+ "ssh") = false →
  Py.replace "ssh " new (Some 1%nat) (pre +:+ "ssh " +:+ rest) = pre +:+ new +:+ rest.
Proof.
  unfold Py.replace. induction pre as [|c pre IH]; intros Hc.
  - rewrite !string_app_nil.
    change ("ssh " +:+ rest) with (String "s" (String "s" (String "h" (String " " rest)))).
    simpl. by rewrite prefix_nil, replace_go_exhausted.
  - rewrite string_app_cons, contains_cons in Hc.
    apply orb_false_iff in Hc as [Hp Hc].
    rewrite (string_app_cons c pre).
    assert (String.prefix "ssh " (String c (pre +:+ "ssh " +:+ rest)) = false) as Hp'.
    { etrans; [|exact Hp].
      change (String c (pre +:+ "ssh " +:+ rest))
        with (String c pre +:+ ("ssh " +:+ rest)).
      change ("ssh " +:+ rest) with ("ssh" +:+ (" " +:+ rest)).
      rewrite <- string_app_assoc.
      rewrite string_app_cons. apply prefix_app_short.
      rewrite <- string_app_cons, string_app_length. simpl. lia. }
    by rewrite replace_go_cons, Hp', IH.
Qed.

Lemma contains_app_r (sub a b : string) :
  Py.contains sub b = true → Py.contains sub (a +:+ b) = true.
Proof.
  intros Hb. induction a as [|x a IH]; [done|].
  rewrite string_app_cons, contains_cons, IH. apply orb_true_r.
Qed.

(** The process that [check_repository] starts. *)
Lemma check_repository_process self verify_data (s : State W) d :
  heap s !! BorgBackupRepoManager.borg_env self = Some d →
  ∃ code,
    trace (BorgBackupRepoManager.check_repository self verify_data s).2
    = EvExec (BorgBackupRepoManager.borg_with (check_env d) (check_args verify_data))
             code :: trace s.
Proof.
  intros Hd.
  set (c := BorgBackupRepoManager.borg_with (check_env d) (check_args verify_data)).
  destruct (exec c (world s)) as [[out code] w'] eqn:Ex.
  exists code.
  unfold BorgBackupRepoManager.check_repository, bind, dict_copy, dict_get.
  simpl. rewrite Hd. simpl. rewrite lookup_insert_eq. simpl.
  unfold check_env in c. unfold c, check_args in Ex. simpl in Ex.
  destruct (Py.contains "ssh " (default "" (d !! "BORG_RSH"))).
  - unfold dict_set, try_except, bind, deref, sh_run. simpl.
    rewrite !lookup_insert_eq. simpl. rewrite Ex.
    by case_bool_decide.
  - unfold ret, try_except, bind, deref, sh_run. simpl.
    rewrite !lookup_insert_eq. simpl. rewrite Ex.
    by case_bool_decide.
Qed.

(** X18. The integrity check puts the keep-alive option after the first
    ["ssh "] of [BORG_RSH] and nowhere else: when the value is
    [pre ++ "ssh " ++ rest] and that is its first occurrence, the check
    process is started with [pre ++ "ssh -o ServerAliveInterval=60 " ++ rest]
    and all other variables as the manager has them; when the value does not
    contain ["ssh "] the process is started with the manager's environment
    unchanged. *)
Theorem check_adds_keep_alive_once self verify_data (s : State W) d :
  heap s !! BorgBackupRepoManager.borg_env self = Some d →
  let s' := (BorgBackupRepoManager.check_repository self verify_data s).2 in
  (∀ pre rest,
     d !! "BORG_RSH" = Some (pre +:+ "ssh " +:+ rest) →
     Py.contains "ssh " (pre +:+ "ssh") = false →
     ∃ code,
       trace s'
       = EvExec (BorgBackupRepoManager.borg_with
                   (<["BORG_RSH" := pre +:+ "ssh -o ServerAliveInterval=60 " +:+ rest]> d)
                   (check_args verify_data)) code :: trace s)
  ∧ (Py.contains "ssh " (default "" (d !! "BORG_RSH")) = false →
     ∃ code,
       trace s'
       = EvExec (BorgBackupRepoManager.borg_with d (check_args verify_data)) code
         :: trace s).
Proof.
  intros Hd s'.
  destruct (check_repository_process self verify_data s d Hd) as [code Ht].
  fold s' in Ht. split.
  - intros pre rest Hr Hfirst. exists code. rewrite Ht. do 3 f_equal.
    unfold check_env. rewrite Hr. simpl.
    assert (Py.contains "ssh " (pre +:+ "ssh " +:+ rest) = true) as ->.
    { apply contains_app_r.
      change ("ssh " +:+ rest)
        with (String "s" (String "s" (String "h" (String " " rest)))).
      rewrite contains_cons. simpl. by rewrite prefix_nil. }
    by rewrite replace_first_ssh.
  - intros Hn. exists code. rewrite Ht. do 3 f_equal.
    unfold check_env. by rewrite Hn.
Qed.

End Archives.

(** ** Exporting all keys, and smaller checks *)

Section KeysFiles.
Context {W : Type} `{Host W}.

Lemma quiet_fs_mkdir p path : quiet (W:=W) p (BorgBackupRepoManager.fs_mkdir path).
Proof.
  intros s. unfold BorgBackupRepoManager.fs_mkdir.
  by destruct (mkdir_parents _ _) as [[?|] ?].
Qed.

Lemma quiet_fs_exists p path : quiet (W:=W) p (BorgBackupRepoManager.fs_exists path).
Proof. by intros s. Qed.

Lemma quiet_fs_unlink p path :
  (∀ ok, p (EvUnlink path ok) = false) →
  quiet (W:=W) p (BorgBackupRepoManager.fs_unlink path).
Proof.
  intros Hp s. unfold BorgBackupRepoManager.fs_unlink.
  destruct (unlink _ _) as [[?|] ?]; simpl; by rewrite count_cons, Hp.
Qed.

End KeysFiles.

Ltac quiet_keys :=
  repeat first
    [ quiet_step
    | apply quiet_fs_mkdir
    | apply quiet_fs_exists
    | apply quiet_fs_unlink; intros ?; reflexivity
    | progress unfold_methods
    | progress unfold_more ].

Section Keys.
Context {W : Type} `{Host W}.

Lemma quiet_secured_export_recovery_key self key :
  quiet (W:=W) is_key_secured (BorgBackupRepoManager.export_recovery_key self key).
Proof. quiet_keys. Qed.

(** The export of one key never raises, and it reports success exactly when
    its last step, the [chmod], ended with exit code 0. *)
Lemma export_one_key_spec self d (s : State W) :
  ∃ exported s',
    MasterOrchestrator.export_one_key self d s = (Ok exported, s')
    ∧ count is_key_secured (trace s')
      = ((if exported : bool then 1 else 0) + count is_key_secured (trace s))%nat.
Proof.
  unfold MasterOrchestrator.export_one_key, try_except, bind.
  assert (quiet (W:=W) is_key_secured
            (MasterOrchestrator._get_borg_manager_for_dataset self (name d))) as Q1
    by quiet_keys.
  specialize (Q1 s).
  destruct (MasterOrchestrator._get_borg_manager_for_dataset self (name d) s)
    as [[manager|e1] s1]; simpl in Q1; [|by exists false, s1].
  pose proof (quiet_secured_export_recovery_key manager
                (MasterOrchestrator.key_export_path self d) s1) as Q2.
  destruct (BorgBackupRepoManager.export_recovery_key manager _ s1)
    as [[[]|e2] s2]; simpl in Q2; [|exists false, s2; split; [done | simpl; lia]].
  set (chown := MasterOrchestrator.sudo
                  ["chown"; MasterOrchestrator.owner self;
                   MasterOrchestrator.key_export_path self d]).
  set (chmod := MasterOrchestrator.sudo
                  ["chmod"; "600"; MasterOrchestrator.key_export_path self d]).
  destruct (exec chown (world s2)) as [[o3 c3] w3] eqn:E3.
  rewrite (sh_run_unfold _ _ _ _ _ _ E3).
  case_bool_decide as Hc3; simpl.
  2: { eexists false, _. split; [done|]. subst chown. unfold count in *. simpl. lia. }
  destruct (exec chmod w3) as [[o4 c4] w4] eqn:E4.
  rewrite (sh_run_unfold chmod _ (after s2 chown c3 w3) _ _ _ E4).
  case_bool_decide as Hc4; simpl.
  - apply list_elem_of_singleton in Hc4 as ->.
    eexists true, _. split; [done|]. subst chown chmod. unfold count in *. simpl. lia.
  - eexists false, _. split; [done|]. subst chown chmod. unfold count in *. simpl.
    rewrite bool_decide_eq_false_2 by set_solver. simpl. lia.
Qed.

(** X19. The loop of [export_all_keys] never raises and handles every
    dataset once: it returns the two counters, which together grew by the
    number of datasets, and the counter of successes grew by the number of
    keys whose last step, restricting the permissions of the key file, ended
    with exit code 0. *)
Theorem export_keys_loop_counts self datasets success_count fail_count
    (s : State W) :
  ∃ success_count' fail_count' s',
    MasterOrchestrator.export_keys_loop self datasets success_count fail_count s
    = (Ok (success_count', fail_count'), s')
    ∧ (success_count' + fail_count'
       = success_count + fail_count + length datasets)%nat
    ∧ (success_count' + count is_key_secured (trace s)
       = success_count + count is_key_secured (trace s'))%nat.
Proof.
  revert success_count fail_count s.
  induction datasets as [|d ds IH]; intros a b s; simpl.
  - exists a, b, s. split_and!; [done | lia | lia].
  - unfold bind. destruct (export_one_key_spec self d s) as (exported & s1 & E & C).
    rewrite E. destruct exported.
    + destruct (IH (S a) b s1) as (a' & b' & s' & E' & Hsum & Hc).
      exists a', b', s'. split_and!; [done | lia | lia].
    + destruct (IH a (S b) s1) as (a' & b' & s' & E' & Hsum & Hc).
      exists a', b', s'. split_and!; [done | lia | lia].
Qed.

(** X20. [export_all_keys] gives up before listing any dataset when the
    keys directory cannot be prepared: if [mkdir -p] fails, or [chown] after
    it, the method returns normally, nothing was exported, and the failed
    command is the last process that ran. *)
Theorem export_all_keys_needs_its_directory self (s : State W) o1 c1 w1 :
  let mkdir := MasterOrchestrator.sudo
                 ["mkdir"; "-p"; MasterOrchestrator.borg_keys_dir
                                   (MasterOrchestrator.config self)] in
  let chown := MasterOrchestrator.sudo
                 ["chown"; MasterOrchestrator.owner self;
                  MasterOrchestrator.borg_keys_dir (MasterOrchestrator.config self)] in
  exec mkdir (world s) = (o1, c1, w1) →
  (c1 ≠ 0 →
     MasterOrchestrator.export_all_keys self s = (Ok None, after s mkdir c1 w1))
  ∧ (c1 = 0 → ∀ o2 c2 w2,
       exec chown w1 = (o2, c2, w2) → c2 ≠ 0 →
       MasterOrchestrator.export_all_keys self s
       = (Ok None, after (after s mkdir 0 w1) chown c2 w2)).
Proof.
  intros mkdir chown E1. split.
  - intros Hc1. unfold MasterOrchestrator.export_all_keys, bind at 1.
    unfold try_except, bind at 1. fold mkdir.
    by rewrite (sh_run_nonzero _ _ _ _ _ E1 Hc1).
  - intros -> o2 c2 w2 E2 Hc2.
    unfold MasterOrchestrator.export_all_keys, bind at 1.
    unfold try_except, bind at 1. fold mkdir.
    rewrite (sh_run_zero _ _ _ _ E1). unfold bind at 1. fold chown.
    by rewrite (sh_run_nonzero chown (after s mkdir 0 w1) _ _ _ E2 Hc2).
Qed.

(** X21. The existence checks of the storage set-up run one [getent] query
    and never raise; they answer true when the query ends with exit code 0
    and also when it ends with exit code 2, and false for every other
    code. *)
Theorem getent_checks_accept_exit_code_two (s : State W) :
  (∀ username,
     let q := StorageManager.getent "passwd" username in
     StorageManager._user_exists username s
     = (Ok (bool_decide ((exec q (world s)).1.2 ∈ [0; 2])),
        after s q (exec q (world s)).1.2 (exec q (world s)).2))
  ∧ (∀ groupname,
       let q := StorageManager.getent "group" groupname in
       StorageManager._group_exists groupname s
       = (Ok (bool_decide ((exec q (world s)).1.2 ∈ [0; 2])),
          after s q (exec q (world s)).1.2 (exec q (world s)).2)).
Proof.
  split; intros n q; destruct (exec q (world s)) as [[out code] w'] eqn:E; simpl.
  - unfold StorageManager._user_exists, try_except, bind. fold q.
    rewrite (sh_run_unfold _ _ _ _ _ _ E). by case_bool_decide.
  - unfold StorageManager._group_exists, try_except, bind. fold q.
    rewrite (sh_run_unfold _ _ _ _ _ _ E). by case_bool_decide.
Qed.

Lemma prefix_drop (p s : string) :
  String.prefix p s = true → s = p +:+ Py.drop (String.length p) s.
Proof.
  revert s. induction p as [|x p IH]; intros s; [by destruct s|].
  destruct s as [|y s]; simpl; [done|].
  destruct (ascii_dec x y) as [->|]; [|done].
  intros Hp. rewrite string_app_cons. f_equal. by apply IH.
Qed.

Lemma lstrip_char_spec ch (s : string) :
  String.prefix (String ch "") (Py.lstrip_char ch s) = false
  ∧ ∃ pre, s = pre +:+ Py.lstrip_char ch s.
Proof.
  induction s as [|x s [IH1 [pre IH2]]]; simpl.
  - split; [done | by exists ""].
  - destruct (Ascii.eqb x ch) eqn:Ex.
    + split; [done|]. exists (String x pre). by rewrite string_app_cons, <- IH2.
    + split; [|by exists ""]. simpl.
      destruct (ascii_dec ch x) as [->|]; [|done].
      by rewrite Ascii.eqb_refl in Ex.
Qed.

(** X22. [_clean_remote_path] removes one leading ["/./"], ["/~/"] or
    ["~/"], and otherwise all leading ["/"]: the result is the path without
    a prefix, and in the last case it does not start with ["/"].  After a
    removed ["/./"] the result can still be an absolute path. *)
Theorem clean_remote_path_spec (path : string) :
  (∃ pre, path = pre +:+ BorgBackupRepoManager._clean_remote_path path)
  ∧ (∀ rest, path = "/./" +:+ rest →
       BorgBackupRepoManager._clean_remote_path path = rest)
  ∧ (∀ rest, path = "/~/" +:+ rest →
       BorgBackupRepoManager._clean_remote_path path = rest)
  ∧ (∀ rest, path = "~/" +:+ rest →
       BorgBackupRepoManager._clean_remote_path path = rest)
  ∧ (String.prefix "/./" path = false → String.prefix "/~/" path = false →
     String.prefix "~/" path = false →
     String.prefix "/" (BorgBackupRepoManager._clean_remote_path path) = false)
  ∧ BorgBackupRepoManager._clean_remote_path "/.//etc/passwd" = "/etc/passwd".
Proof.
  unfold BorgBackupRepoManager._clean_remote_path. split_and!.
  - destruct (String.prefix "/./" path) eqn:E1;
      [eexists; by apply (prefix_drop "/./")|].
    destruct (String.prefix "/~/" path) eqn:E2;
      [eexists; by apply (prefix_drop "/~/")|].
    destruct (String.prefix "~/" path) eqn:E3;
      [eexists; by apply (prefix_drop "~/")|].
    apply lstrip_char_spec.
  - intros rest ->. simpl. by rewrite prefix_nil.
  - intros rest ->. simpl. by rewrite prefix_nil.
  - intros rest ->. simpl. by rewrite prefix_nil.
  - intros -> -> ->. apply lstrip_char_spec.
  - reflexivity.
Qed.

End Keys.

(** ** Empty inputs *)

Section EmptyInputs.
Context {W : Type} `{Host W}.

Lemma quiet_borg_get_datasets self :
  quiet (W:=W) is_borg (ZFSManager.get_datasets self).
Proof. quiet_methods. Qed.

(** X23. A parent dataset without any mounted dataset fails the backup:
    when the listing gives no dataset, [_orchestrate_dataset_backups] raises
    the "0 mounted datasets" error without starting an archive process; in
    a run of [backup_all] that got this far the error is the outcome, the
    run snapshot is reported as left behind and is not destroyed. *)
Theorem no_mounted_dataset_fails_the_run self (s3 s4 : State W) :
  ZFSManager.get_datasets (BackupOrchestrator.zfs_manager self) s3 = (Ok [], s4) →
  BackupOrchestrator._orchestrate_dataset_backups self s3
  = (Raise (RuntimeError (BackupOrchestrator.no_datasets_msg self)), s4)
  ∧ count is_borg (trace s4) = count is_borg (trace s3)
  ∧ (∀ s0 s1 n s2,
       DockerComposeManager.stop_all s0 = (Ok tt, s1) →
       ZFSManager.create_snapshot (BackupOrchestrator.zfs_manager self)
         (Some (BackupOrchestrator.snapshot_tag self)) None true s1 = (Ok n, s2) →
       DockerComposeManager.up_all s2 = (Ok tt, s3) →
       BackupOrchestrator.backup_all self s0
       = (Raise (RuntimeError (BackupOrchestrator.no_datasets_msg self)),
          reported self s4)
       ∧ count is_zfs_destroy (trace (reported self s4))
         = count is_zfs_destroy (trace s0)
       ∧ count is_borg (trace (reported self s4)) = count is_borg (trace s0)).
Proof.
  intros Eg.
  assert (BackupOrchestrator._orchestrate_dataset_backups self s3
          = (Raise (RuntimeError (BackupOrchestrator.no_datasets_msg self)), s4)) as Eo.
  { unfold BackupOrchestrator._orchestrate_dataset_backups, bind. by rewrite Eg. }
  pose proof (quiet_borg_get_datasets (BackupOrchestrator.zfs_manager self) s3) as Qg.
  rewrite Eg in Qg. simpl in Qg.
  split_and!; [done | done |].
  intros s0 s1 n s2 E1 E2 E3.
  assert (∀ p, (p = is_zfs_destroy ∨ p = is_borg) →
            count p (trace s3) = count p (trace s0)) as Hq.
  { intros p Hp.
    assert (quiet (W:=W) p DockerComposeManager.stop_all
            ∧ quiet (W:=W) p DockerComposeManager.up_all
            ∧ quiet (W:=W) p
                (ZFSManager.create_snapshot (BackupOrchestrator.zfs_manager self)
                   (Some (BackupOrchestrator.snapshot_tag self)) None true))
      as (Q1 & Q3 & Q2)
      by (destruct Hp as [-> | ->]; split_and!; quiet_methods).
    specialize (Q1 s0). specialize (Q2 s1). specialize (Q3 s2).
    rewrite E1 in Q1. rewrite E2 in Q2. rewrite E3 in Q3. simpl in *. congruence. }
  split_and!.
  - unfold BackupOrchestrator.backup_all, BackupOrchestrator.backup_all_try.
    rewrite E1, E2, E3, Eo. done.
  - unfold reported. simpl. rewrite count_cons. simpl.
    pose proof (quiet_destroy_orchestrate self s3) as Qo. rewrite Eo in Qo.
    simpl in Qo. rewrite Qo. by apply Hq; left.
  - unfold reported. simpl. rewrite count_cons. simpl.
    rewrite Qg. by apply Hq; right.
Qed.

(** X24. An empty string given as tag or as dataset name counts as not
    given: [create_snapshot] with an empty tag, like with none, uses the
    generated tag ["auto-"] followed by the current time, and an empty
    dataset name addresses the parent dataset itself, so [create_dataset]
    with an empty name queries the parent and does nothing when it
    exists. *)
Theorem empty_names_count_as_absent self (s : State W) :
  (∀ dsn recursive,
     ZFSManager.create_snapshot self (Some "") dsn recursive s
     = ZFSManager.create_snapshot self None dsn recursive s
     ∧ ZFSManager.create_snapshot self None dsn recursive s
       = ZFSManager.create_snapshot self
           (Some ("auto-" +:+ strftime_now (world s))) dsn recursive s)
  ∧ (∀ tag,
       ZFSManager.full_snapshot_name self tag (Some "")
       = ZFSManager.parent_dataset self +:+ "@" +:+ tag)
  ∧ ZFSManager.dataset_exists self (Some "") s = ZFSManager.dataset_exists self None s
  ∧ (∀ create_parents out w',
       exec (dataset_query self None) (world s) = (out, 0, w') →
       ZFSManager.create_dataset self "" create_parents s
       = (Ok tt, after s (dataset_query self None) 0 w')).
Proof.
  split_and!.
  - intros dsn recursive. split; [done|].
    unfold ZFSManager.create_snapshot, bind at 1 3. simpl. unfold ZFSManager.now.
    done.
  - done.
  - done.
  - intros cp out w' E. unfold ZFSManager.create_dataset, bind.
    change (ZFSManager.dataset_exists self (Some "") s)
      with (ZFSManager.dataset_exists self None s).
    by rewrite (dataset_exists_unfold _ _ _ _ _ _ E).
Qed.

End EmptyInputs.

(** ** The passphrase reaches every archive process *)

Section Passphrase.
Context {W : Type} `{Host W}.
Variable pass : string.
Let p := lacks_passphrase pass.

Lemma safe_of {A} h (m : M W A) : frames h m → quiet p m → safe h p m.
Proof. intros F Q s Hs. split; [by apply F | apply Q]. Qed.

Lemma safe_bind {A B} h (m : M W A) (k : A → M W B) :
  safe h p m → (∀ a, safe h p (k a)) → safe h p (bind m k).
Proof.
  intros Hm Hk s Hs. unfold bind. destruct (Hm s Hs) as [F C].
  destruct (m s) as [[a|e] s']; simpl in *; [|done].
  destruct (Hk a s' F) as [F' C']. split; [done | congruence].
Qed.

Lemma safe_try_except {A} h (m : M W A) (hd : exn → option (M W A)) :
  safe h p m → (∀ e k, hd e = Some k → safe h p k) → safe h p (try_except m hd).
Proof.
  intros Hm Hh s Hs. unfold try_except. destruct (Hm s Hs) as [F C].
  destruct (m s) as [[a|e] s']; simpl in *; [done|].
  destruct (hd e) as [k|] eqn:E; [|done].
  destruct (Hh _ _ E s' F) as [F' C']. split; [done | congruence].
Qed.

Lemma safe_for_each {A} h (l : list A) (body : A → M W unit) :
  (∀ x, safe h p (body x)) → safe h p (for_each l body).
Proof.
  intros Hb. induction l as [|x l IH]; simpl.
  - by intros s Hs.
  - apply safe_bind; auto.
Qed.

(** A process of a manager whose dict has the passphrase. *)
Lemma safe_borg h self dm args :
  h !! BorgBackupRepoManager.borg_env self = Some dm →
  dm !! "BORG_PASSPHRASE" = Some pass →
  safe (W:=W) h p (BorgBackupRepoManager.borg self args).
Proof.
  intros Hl Hp s Hs. rewrite borg_unfold.
  assert (env_of self s = dm) as ->.
  { unfold env_of. by rewrite (lookup_weaken _ _ _ _ Hl Hs). }
  destruct (exec (BorgBackupRepoManager.borg_with dm args) (world s))
    as [[out code] w'] eqn:E.
  rewrite (sh_run_unfold _ _ _ _ _ _ E). split; [by case_bool_decide|].
  simpl. rewrite count_cons. unfold p. simpl. rewrite Hp.
  by rewrite bool_decide_eq_true_2.
Qed.

Lemma safe_execute_command h self dm args :
  h !! BorgBackupRepoManager.borg_env self = Some dm →
  dm !! "BORG_PASSPHRASE" = Some pass →
  safe (W:=W) h p (BorgBackupRepoManager._execute_command self args).
Proof.
  intros Hl Hp s Hs.
  assert (env_of self s = dm) as He.
  { unfold env_of. by rewrite (lookup_weaken _ _ _ _ Hl Hs). }
  destruct (exec (BorgBackupRepoManager.borg_with (env_of self s) args) (world s))
    as [[out code] w'] eqn:E.
  rewrite (borg_execute_command_unfold _ _ _ _ _ _ E). split; [done|].
  simpl. rewrite count_cons, He. unfold p. simpl. rewrite Hp.
  by rewrite bool_decide_eq_true_2.
Qed.

Lemma check_env_passphrase (d : dict) :
  check_env d !! "BORG_PASSPHRASE" = d !! "BORG_PASSPHRASE".
Proof.
  unfold check_env. destruct (Py.contains _ _); [|done].
  by rewrite lookup_insert_ne.
Qed.

Lemma safe_check_repository h self dm verify_data :
  h !! BorgBackupRepoManager.borg_env self = Some dm →
  dm !! "BORG_PASSPHRASE" = Some pass →
  safe (W:=W) h p (BorgBackupRepoManager.check_repository self verify_data).
Proof.
  intros Hl Hp s Hs. split; [by apply frames_check_repository|].
  destruct (check_repository_process self verify_data s dm
              (lookup_weaken _ _ _ _ Hl Hs)) as [code ->].
  rewrite count_cons. unfold p. simpl. rewrite check_env_passphrase, Hp.
  by rewrite bool_decide_eq_true_2.
Qed.

(** A manager built from a base dict with the passphrase: what follows
    runs with the manager's own dict in the heap. *)
Lemma safe_init {B} h repo base d (k : BorgBackupRepoManager.t → M W B) :
  h !! base = Some d →
  (∀ manager,
     h !! BorgBackupRepoManager.borg_env manager = None →
     safe (<[BorgBackupRepoManager.borg_env manager := <["BORG_REPO" := repo]> d]> h)
          p (k manager)) →
  safe h p (bind (BorgBackupRepoManager.__init__ repo base) k).
Proof.
  intros Hb Hk s Hs. unfold bind. rewrite borg_init_cases.
  rewrite (lookup_weaken _ _ _ _ Hb Hs). simpl.
  destruct (_ && _); [|done].
  assert (h !! fresh_loc (heap s) = None) as Hf.
  { destruct (h !! fresh_loc (heap s)) as [x|] eqn:E; [|done].
    apply (lookup_weaken _ _ _ _ E) in Hs. by rewrite fresh_loc_is_fresh in Hs. }
  destruct (Hk (BorgBackupRepoManager.mk repo (fresh_loc (heap s))) Hf
              (mkState (world s)
                 (<[fresh_loc (heap s) := <["BORG_REPO" := repo]> d]> (heap s))
                 (trace s))) as [F C].
  { simpl. by apply insert_mono. }
  split; [|exact C].
  etrans; [|exact F]. by apply insert_subseteq.
Qed.

Lemma safe_borg_own h self repo d args :
  d !! "BORG_PASSPHRASE" = Some pass →
  safe (W:=W) (<[BorgBackupRepoManager.borg_env self := <["BORG_REPO" := repo]> d]> h) p
    (BorgBackupRepoManager.borg self args).
Proof.
  intros Hp. eapply safe_borg; [apply lookup_insert_eq|].
  by rewrite lookup_insert_ne.
Qed.

Lemma safe_execute_command_own h self repo d args :
  d !! "BORG_PASSPHRASE" = Some pass →
  safe (W:=W) (<[BorgBackupRepoManager.borg_env self := <["BORG_REPO" := repo]> d]> h) p
    (BorgBackupRepoManager._execute_command self args).
Proof.
  intros Hp. eapply safe_execute_command; [apply lookup_insert_eq|].
  by rewrite lookup_insert_ne.
Qed.

Lemma safe_check_own h self repo d verify_data :
  d !! "BORG_PASSPHRASE" = Some pass →
  safe (W:=W) (<[BorgBackupRepoManager.borg_env self := <["BORG_REPO" := repo]> d]> h) p
    (BorgBackupRepoManager.check_repository self verify_data).
Proof.
  intros Hp. eapply safe_check_repository; [apply lookup_insert_eq|].
  by rewrite lookup_insert_ne.
Qed.

Ltac safe_step :=
  lazymatch goal with
  | |- safe _ _ (bind (BorgBackupRepoManager.__init__ _ _) _) =>
      eapply safe_init; [eassumption | intros ? ?]
  | |- safe _ _ (bind _ _) => apply safe_bind; [|intros ?]
  | |- safe _ _ (try_except _ _) =>
      apply safe_try_except;
      [|let e := fresh "e" in let k := fresh "k" in let E := fresh "E" in
        intros e k E; destruct e; simplify_eq/=]
  | |- safe _ _ (for_each _ _) => apply safe_for_each; intros ?
  | |- safe _ _ (BorgBackupRepoManager.borg _ _) => apply safe_borg_own; assumption
  | |- safe _ _ (BorgBackupRepoManager._execute_command _ _) =>
      apply safe_execute_command_own; assumption
  | |- safe _ _ (BorgBackupRepoManager.check_repository _ _) =>
      apply safe_check_own; assumption
  | |- safe _ _ (if ?b then _ else _) => destruct b
  | |- safe _ _ (match ?x with _ => _ end) => destruct x
  end.

Ltac safe_methods :=
  repeat first
    [ safe_step
    | solve [apply safe_of; [frames_methods | quiet_methods]]
    | progress unfold BackupOrchestrator._orchestrate_dataset_backups,
        BackupOrchestrator.archive_loop, BackupOrchestrator.check_loop,
        BackupOrchestrator._backup_single_dataset,
        BackupOrchestrator._backup_single_snapshot,
        BackupOrchestrator._check_single_repository,
        BorgBackupRepoManager.initialize_if_needed,
        BorgBackupRepoManager._repository_exists,
        BorgBackupRepoManager._initialize_repository,
        BorgBackupRepoManager.create_archive, BorgBackupRepoManager.prune_archives,
        BorgBackupRepoManager._execute_command_fg ].

Lemma safe_orchestrate h self d :
  h !! Config.base_borg_env (BackupOrchestrator.config self) = Some d →
  d !! "BORG_PASSPHRASE" = Some pass →
  safe (W:=W) h p (BackupOrchestrator._orchestrate_dataset_backups self).
Proof. intros Hb Hp. safe_methods. Qed.

Lemma safe_backup_all h self d :
  h !! Config.base_borg_env (BackupOrchestrator.config self) = Some d →
  d !! "BORG_PASSPHRASE" = Some pass →
  safe (W:=W) h p (BackupOrchestrator.backup_all self).
Proof.
  intros Hb Hp s0 Hs.
  split; [by apply frames_backup_all|].
  destruct (BackupOrchestrator.backup_all self s0) as [r s'] eqn:E.
  apply backup_all_run in E. simpl.
  assert (quiet (W:=W) p DockerComposeManager.stop_all) as Q1 by quiet_methods.
  assert (quiet (W:=W) p DockerComposeManager.up_all) as Q3 by quiet_methods.
  assert (quiet (W:=W) p
            (ZFSManager.create_snapshot (BackupOrchestrator.zfs_manager self)
               (Some (BackupOrchestrator.snapshot_tag self)) None true)) as Q2
    by quiet_methods.
  assert (quiet (W:=W) p
            (ZFSManager.destroy_snapshot (BackupOrchestrator.zfs_manager self)
               (BackupOrchestrator.snapshot_tag self) None true)) as Q5
    by quiet_methods.
  destruct E as [e s1 E1 | s1 e s2 r s3 E1 E2 E3 | s1 n s2 e s3 E1 E2 E3
                | s1 n s2 s3 e s4 E1 E2 E3 E4 | s1 n s2 s3 s4 e s5 E1 E2 E3 E4 E5
                | s1 n s2 s3 s4 s5 E1 E2 E3 E4 E5].
  all: pose proof (Q1 s0) as C1; pose proof (frames_stop_all h s0 Hs) as F1;
    rewrite E1 in C1, F1; simpl in C1, F1.
  all: try (pose proof (Q2 s1) as C2;
            pose proof (frames_create_snapshot h (BackupOrchestrator.zfs_manager self)
                          (Some (BackupOrchestrator.snapshot_tag self)) None true s1 F1)
              as F2;
            rewrite E2 in C2, F2; simpl in C2, F2;
            pose proof (Q3 s2) as C3; pose proof (frames_up_all h s2 F2) as F3;
            rewrite E3 in C3, F3; simpl in C3, F3).
  all: try (destruct (safe_orchestrate h self d Hb Hp s3 F3) as [F4 C4];
            rewrite E4 in C4, F4; simpl in C4, F4).
  all: try (pose proof (Q5 s4) as C5; rewrite E5 in C5; simpl in C5).
  all: unfold reported; simpl; rewrite ?count_cons; simpl; congruence.
Qed.

(** X25. In a run of the backup program, every [borg] process is started
    with the configured passphrase in [BORG_PASSPHRASE]: the base
    environment built by the configuration has it, every manager copies that
    environment, and nothing on the way to a process removes or changes the
    variable.  This holds on every host and for every outcome of the run. *)
Theorem every_archive_process_has_the_passphrase
    repo_base_path rsh archive_prefix prune_policy zfs_parent_dataset
    compression excludes_file (s : State W) :
  count (lacks_passphrase pass)
    (trace (main repo_base_path pass rsh archive_prefix prune_policy
              zfs_parent_dataset compression excludes_file s).2)
  = count (lacks_passphrase pass) (trace s).
Proof.
  unfold main, bind at 1. unfold Config.make.
  set (d := <["BORG_RSH" := rsh]>
              (<["BORG_PASSPHRASE" := pass]> (os_environ (world s)))).
  set (l := fresh_loc (heap s)).
  set (cfg := Config.mk repo_base_path pass rsh archive_prefix prune_policy
                zfs_parent_dataset compression excludes_file l).
  set (s1 := mkState (world s) (<[l := d]> (heap s)) (trace s)).
  unfold bind, BackupOrchestrator.__init__, bind, ZFSManager.__init__.
  simpl. destruct (String.eqb zfs_parent_dataset ""); [done|]. simpl.
  destruct (safe_backup_all {[ l := d ]}
              (BackupOrchestrator.mk cfg (ZFSManager.mk zfs_parent_dataset)
                 ("auto-backup_" +:+ strftime_now (world s))) d) with (s := s1)
    as [_ C].
  - simpl. apply lookup_singleton_eq.
  - unfold d. by rewrite lookup_insert_ne, lookup_insert_eq.
  - simpl. apply map_singleton_subseteq_l. apply lookup_insert_eq.
  - exact C.
Qed.

End Passphrase.

(** ** The properties on concrete runs *)

Import Example.

(** C8 at a failing input: the query of the storage tool ends with exit code
    2 and its error output is not valid UTF-8; both probes of the storage tool
    raise [UnicodeDecodeError] where the failure of the query was to be
    raised.  With error output that decodes the failure of the query is
    raised, and a snapshot that is not there is reported absent. *)
Lemma existence_probes_witness :
  (ZFSManager.dataset_exists (ZFSManager.mk "pool/svcs") (Some "a")
     (garbled_with [Some 2])).1 = Raise UnicodeDecodeError
  ∧ (ZFSManager._snapshot_exists snapshot (garbled_with [Some 2])).1
    = Raise UnicodeDecodeError
  ∧ (ZFSManager._snapshot_exists snapshot (start_with [Some 2])).1
    = Raise (ErrorReturnCode 2 (argv (snapshot_query snapshot)))
  ∧ (ZFSManager._snapshot_exists snapshot start).1 = Ok false.
Proof.
  split_and!.
  - destruct (existence_probes_are_tri_state (garbled_with [Some 2])) as (Hd & _).
    rewrite Hd. vm_compute. reflexivity.
  - destruct (existence_probes_are_tri_state (garbled_with [Some 2])) as (_ & Hs & _).
    rewrite Hs. vm_compute. reflexivity.
  - destruct (existence_probes_are_tri_state (start_with [Some 2])) as (_ & Hs & _).
    rewrite Hs. vm_compute. reflexivity.
  - destruct (existence_probes_are_tri_state start) as (_ & Hs & _).
    rewrite Hs. vm_compute. reflexivity.
Defined.

(** C5 on the simulated host: destroying the snapshot of a run that was
    never created only queries the storage tool. *)
Lemma destroy_snapshot_contract_witness :
  exec (snapshot_query snapshot) (world start) = ([], 1, Sim.tick pool)
  ∧ ZFSManager.destroy_snapshot (ZFSManager.mk "pool/svcs") tag None true start
    = (Ok tt, after start (snapshot_query snapshot) 1 (Sim.tick pool)).
Proof.
  split; [reflexivity|].
  apply (destroy_snapshot_contract (ZFSManager.mk "pool/svcs") tag None true start
           [] 1 (Sim.tick pool)); reflexivity.
Defined.

(** C4 on the simulated host: the first creation runs the query, the
    snapshot command and the verifying query and succeeds; the second raises
    after its query. *)
Lemma create_snapshot_witness :
  tag ≠ "" ∧ sim_snapshot_present snapshot (world start) = false
  ∧ ∃ s1 s2,
      ZFSManager.create_snapshot (ZFSManager.mk "pool/svcs") (Some tag) None true start
        = (Ok snapshot, s1)
      ∧ trace s1 = [EvExec (snapshot_query snapshot) 0;
                    EvExec (snapshot_command true snapshot) 0;
                    EvExec (snapshot_query snapshot) 1]
      ∧ ZFSManager.create_snapshot (ZFSManager.mk "pool/svcs") (Some tag) None true s1
        = (Raise (FileExistsError (ZFSManager.already_exists_msg snapshot)), s2)
      ∧ trace s2 = EvExec (snapshot_query snapshot) 0 :: trace s1.
Proof.
  assert (tag ≠ "") as Ht by done.
  split_and!; [done | reflexivity |].
  destruct (create_snapshot_is_not_idempotent (ZFSManager.mk "pool/svcs") tag None
              true start Ht) as (_ & _ & Hc).
  destruct (Hc sim_snapshot_present sim_storage_ok eq_refl)
    as (o1 & w1 & o2 & w2 & o3 & w3 & o4 & w4 & _ & _ & _ & _ & E1 & _ & E2 & _).
  eexists _, _. split_and!; [exact E1 | reflexivity | exact E2 | reflexivity].
Defined.

(** C6 on the simulated host: two calls in a row on a repository that does
    not exist yet initialize it once. *)
Lemma initialize_if_needed_witness :
  is_Some (env_of manager (mkState pool {[ 0%nat := base_env; 1%nat := manager_env ]} [])
           !! "BORG_REPO")
  ∧ ∃ s1 s2,
      BorgBackupRepoManager.initialize_if_needed manager
        (mkState pool {[ 0%nat := base_env; 1%nat := manager_env ]} []) = (Ok tt, s1)
      ∧ BorgBackupRepoManager.initialize_if_needed manager s1 = (Ok tt, s2)
      ∧ (count is_borg_init (trace s2) ≤ 1)%nat.
Proof.
  assert (is_Some (env_of manager
                     (mkState pool {[ 0%nat := base_env; 1%nat := manager_env ]} [])
                   !! "BORG_REPO")) as Hr
    by (exists "/backups/pool_svcs_a"; vm_compute; reflexivity).
  split; [exact Hr|].
  destruct (initialize_if_needed_is_idempotent manager
              (mkState pool {[ 0%nat := base_env; 1%nat := manager_env ]} []))
    as (_ & _ & Hi).
  destruct (Hi sim_repo_present sim_archive_ok Hr) as (s1 & s2 & E1 & E2 & _ & L & _).
  exists s1, s2. split_and!; assumption.
Defined.

(** C10 on the simulated host: the check runs with the keep-alive option and
    the manager's dict is as before. *)
Lemma check_repository_witness :
  is_Some (heap (initialized []) !! BorgBackupRepoManager.borg_env manager)
  ∧ heap (BorgBackupRepoManager.check_repository manager false (initialized [])).2
      !! BorgBackupRepoManager.borg_env manager
    = Some manager_env
  ∧ check_env manager_env !! "BORG_RSH"
    = Some "ssh -o ServerAliveInterval=60 -i /root/.ssh/id_ed25519".
Proof.
  assert (is_Some (heap (initialized []) !! BorgBackupRepoManager.borg_env manager))
    as Hs by (exists manager_env; vm_compute; reflexivity).
  split; [exact Hs|].
  destruct (check_repository_keeps_credentials manager false (initialized []) Hs)
    as (Hh & _).
  split; [rewrite Hh|]; vm_compute; reflexivity.
Defined.

(** C2 (as amended) on a run whose snapshot command fails: the one compose
    file is brought up once and the failure of the snapshot command is the
    outcome. *)
Lemma restart_witness :
  DockerComposeManager.stop_all (start_with snapshot_fails)
    = (Ok tt, (DockerComposeManager.stop_all (start_with snapshot_fails)).2)
  ∧ count is_restart
      (trace (BackupOrchestrator.backup_all orchestrator (start_with snapshot_fails)).2)
    = 1%nat
  ∧ count is_compose_up
      (trace (BackupOrchestrator.backup_all orchestrator (start_with snapshot_fails)).2)
    = 1%nat
  ∧ (BackupOrchestrator.backup_all orchestrator (start_with snapshot_fails)).1
    = Raise (ErrorReturnCode 1 (argv (snapshot_command true snapshot))).
Proof.
  assert (DockerComposeManager.stop_all (start_with snapshot_fails)
          = (Ok tt, (DockerComposeManager.stop_all (start_with snapshot_fails)).2))
    as E1 by (vm_compute; reflexivity).
  split; [exact E1|].
  destruct (restart_runs_exactly_once orchestrator _ _ _ _ E1
              (surjective_pairing _)) as (_ & Hc & _).
  split; [rewrite Hc|]; [|split]; vm_compute; reflexivity.
Defined.

(** C2 as stated fails: when stopping the services fails, the run ends
    there; neither the snapshot step nor the restart step runs. *)
Lemma stop_failure_skips_restart :
  BackupOrchestrator.backup_all orchestrator (start_with [Some 1])
  = (Raise (ErrorReturnCode 1
              ["sudo"; "docker"; "compose"; "-f"; "/srv/web/docker-compose.yml"; "stop"]),
     mkState (Faulty.mk [] pool) {[ 0%nat := base_env ]}
       [EvExec (DockerComposeManager.compose "/srv/web/docker-compose.yml" "/srv/web"
                  "stop" []) 1;
        EvCall "stop_all" []])
  ∧ count is_restart
      (trace (BackupOrchestrator.backup_all orchestrator (start_with [Some 1])).2)
    = 0%nat
  ∧ count is_compose_up
      (trace (BackupOrchestrator.backup_all orchestrator (start_with [Some 1])).2)
    = 0%nat.
Proof. split_and!; vm_compute; reflexivity. Qed.

(** C1 (as amended) on the run in which archiving the second dataset fails:
    the failure is the outcome, no destroy command was issued and the
    snapshot is still there. *)
Lemma snapshot_kept_witness :
  BackupOrchestrator.backup_all orchestrator (start_with second_archive_fails)
    = ((BackupOrchestrator.backup_all orchestrator (start_with second_archive_fails)).1,
       (BackupOrchestrator.backup_all orchestrator (start_with second_archive_fails)).2)
  ∧ (∃ cmd, (BackupOrchestrator.backup_all orchestrator
               (start_with second_archive_fails)).1
            = Raise (ErrorReturnCode 2 cmd))
  ∧ count is_zfs_destroy
      (trace (BackupOrchestrator.backup_all orchestrator
                (start_with second_archive_fails)).2) = 0%nat
  ∧ sim_snapshot_present snapshot
      (Faulty.inner (world (BackupOrchestrator.backup_all orchestrator
                              (start_with second_archive_fails)).2)) = true.
Proof.
  assert (BackupOrchestrator.backup_all orchestrator (start_with second_archive_fails)
    = ((BackupOrchestrator.backup_all orchestrator (start_with second_archive_fails)).1,
       (BackupOrchestrator.backup_all orchestrator (start_with second_archive_fails)).2))
    as E by (vm_compute; reflexivity).
  split; [exact E|].
  destruct (snapshot_destroyed_only_after_success orchestrator _ _ _ E)
    as (_ & _ & Hf).
  set (s1 := (DockerComposeManager.stop_all (start_with second_archive_fails)).2).
  set (s2 := (ZFSManager.create_snapshot (ZFSManager.mk "pool/svcs") (Some tag) None
                true s1).2).
  set (s3 := (DockerComposeManager.up_all s2).2).
  destruct (Hf s1 snapshot s2) as [_ Hb];
    [vm_compute; reflexivity | vm_compute; reflexivity |].
  destruct (Hb s3
              (ErrorReturnCode 2
                 ["sudo"; "-E"; "borg"; "create"; "--verbose"; "--stats"; "--progress";
                  "--compression=zstd,10"; "--exclude-from=/etc/borg/excludes";
                  "::homelab_auto-backup_2025-01-01_00-00-00_2025-01-01_00-00-11";
                  "/pool/svcs/b/.zfs/snapshot/auto-backup_2025-01-01_00-00-00"])
              (BackupOrchestrator._orchestrate_dataset_backups orchestrator s3).2)
    as (Hr & _ & Hd);
    [vm_compute; reflexivity | vm_compute; reflexivity |].
  split; [by eexists|]. split; [rewrite Hd; reflexivity|]. vm_compute. reflexivity.
Defined.

Lemma faulty_unlink_ok (p : string) (w w' : Faulty.world Sim.world) :
  unlink p w = (None, w') → path_exists p w' = false.
Proof.
  simpl. destruct (Sim.sim_unlink p (Faulty.inner w)) as [r w1] eqn:E.
  intros [= -> <-]. simpl. by apply (sim_unlink_ok p (Faulty.inner w)).
Qed.

(** C7 on the run in which archiving the second of three datasets fails: the
    loop ends with that failure, the first repository has its archive and
    there is no repository for the third dataset. *)
Lemma archive_loop_witness :
  BackupOrchestrator.archive_loop orchestrator [a] (listed second_archive_fails)
    = (Ok tt, (BackupOrchestrator.archive_loop orchestrator [a]
                 (listed second_archive_fails)).2)
  ∧ BackupOrchestrator._backup_single_dataset orchestrator b
      (BackupOrchestrator.archive_loop orchestrator [a] (listed second_archive_fails)).2
    = (Raise (ErrorReturnCode 2
                ["sudo"; "-E"; "borg"; "create"; "--verbose"; "--stats"; "--progress";
                 "--compression=zstd,10"; "--exclude-from=/etc/borg/excludes";
                 "::homelab_auto-backup_2025-01-01_00-00-00_2025-01-01_00-00-11";
                 "/pool/svcs/b/.zfs/snapshot/auto-backup_2025-01-01_00-00-00"]),
       (BackupOrchestrator.archive_loop orchestrator [a; b]
          (listed second_archive_fails)).2)
  ∧ BackupOrchestrator.archive_loop orchestrator ([a] ++ b :: [c])
      (listed second_archive_fails)
    = BackupOrchestrator.archive_loop orchestrator ([a] ++ [b])
        (listed second_archive_fails)
  ∧ Sim.repos (Faulty.inner (world (BackupOrchestrator.archive_loop orchestrator
                                      [a; b; c] (listed second_archive_fails)).2))
    = {[ "/backups/pool_svcs_a"
           := ["homelab_auto-backup_2025-01-01_00-00-00_2025-01-01_00-00-06"];
         "/backups/pool_svcs_b" := [] ]}.
Proof.
  assert (BackupOrchestrator.archive_loop orchestrator [a] (listed second_archive_fails)
    = (Ok tt, (BackupOrchestrator.archive_loop orchestrator [a]
                 (listed second_archive_fails)).2)) as E1
    by (vm_compute; reflexivity).
  assert (BackupOrchestrator._backup_single_dataset orchestrator b
      (BackupOrchestrator.archive_loop orchestrator [a] (listed second_archive_fails)).2
    = (Raise (ErrorReturnCode 2
                ["sudo"; "-E"; "borg"; "create"; "--verbose"; "--stats"; "--progress";
                 "--compression=zstd,10"; "--exclude-from=/etc/borg/excludes";
                 "::homelab_auto-backup_2025-01-01_00-00-00_2025-01-01_00-00-11";
                 "/pool/svcs/b/.zfs/snapshot/auto-backup_2025-01-01_00-00-00"]),
       (BackupOrchestrator.archive_loop orchestrator [a; b]
          (listed second_archive_fails)).2)) as E2
    by (vm_compute; reflexivity).
  split; [exact E1|]. split; [exact E2|].
  destruct (archive_loop_fails_fast orchestrator [a] b [c] _ _ _ _ E1 E2)
    as (_ & Hsame & _).
  split; [exact Hsame|]. vm_compute. reflexivity.
Defined.

Lemma faulty_listing_keeps_files key (env : dict) (w : Faulty.world Sim.world)
    out code w' :
  exec (verify_command env key) w = (out, code, w') →
  path_exists key w' = path_exists key w.
Proof.
  simpl. unfold Faulty.faulty_exec. simpl. unfold Sim.sim_exec, Sim.run. simpl.
  unfold Sim.borg. rewrite lookup_insert_eq.
  destruct (Faulty.plan w) as [|[c|] rest]; repeat case_match; simplify_eq/=;
    by intros [= <- <- <-].
Qed.

(** C3 (as amended) on a call whose verification fails, with a key file that
    can be deleted: the error of the verification is raised and no file is
    left. *)
Lemma export_recovery_key_witness :
  mkdir_parents (path_parent other_key_file) (world (initialized verification_fails))
    = (None, world (initialized verification_fails))
  ∧ stderr_decodes (verify_command manager_env other_key_file)
      (Faulty.mk [] (Sim.tick (Sim.set_files
         (λ F, <[other_key_file := Sim.key_of "/backups/pool_svcs_a"]> F)
         (Sim.set_repos (λ R, <["/backups/pool_svcs_a" := []]> R) pool)))) = true
  ∧ (BorgBackupRepoManager.export_recovery_key manager other_key_file
       (initialized verification_fails)).1
    = Raise (ErrorReturnCode 2 (argv (verify_command manager_env other_key_file)))
  ∧ path_exists other_key_file
      (world (BorgBackupRepoManager.export_recovery_key manager other_key_file
                (initialized verification_fails)).2) = false.
Proof.
  assert (mkdir_parents (path_parent other_key_file)
            (world (initialized verification_fails))
          = (None, world (initialized verification_fails))) as Em by reflexivity.
  split; [exact Em|]. split; [reflexivity|].
  destruct (export_recovery_key_contract manager other_key_file
              (initialized verification_fails) None
              (world (initialized verification_fails)) faulty_unlink_ok) as [_ Hc];
    [ intros out w' E; vm_compute in E; injection E as <- <-; vm_compute; reflexivity
    | apply faulty_listing_keeps_files
    | exact Em |].
  destruct (Hc eq_refl [] 0 _ eq_refl) as (_ & Hv & _).
  destruct (Hv eq_refl [] 2 _ eq_refl) as [_ Hfail].
  destruct Hfail as (Hr & _ & Hclean); [lia | reflexivity |].
  split; [exact Hr|]. apply Hclean. vm_compute. reflexivity.
Defined.

(** C3 as stated fails: with a key file that cannot be deleted
    (the archive tool, run through sudo, wrote it where the caller may not
    remove files), a failed verification leaves the file, which was not
    there before the call, on disk. *)
Lemma unverified_key_left_on_disk :
  path_exists key_file (world (initialized verification_fails)) = false
  ∧ (BorgBackupRepoManager.export_recovery_key manager key_file
       (initialized verification_fails)).1
    = Raise (ErrorReturnCode 2 (argv (verify_command manager_env key_file)))
  ∧ head (trace (BorgBackupRepoManager.export_recovery_key manager key_file
                   (initialized verification_fails)).2)
    = Some (EvUnlink key_file false)
  ∧ path_exists key_file
      (world (BorgBackupRepoManager.export_recovery_key manager key_file
                (initialized verification_fails)).2) = true.
Proof. split_and!; vm_compute; reflexivity. Qed.

(** C1 as stated fails: in this run the snapshot was created and
    verified, the destroy command ran and removed it, and the query that
    verifies the destruction was killed; the run raises, reports the snapshot
    as left behind, and the snapshot is gone. *)
Lemma snapshot_destroyed_despite_failure :
  (BackupOrchestrator.backup_all_try orchestrator (start_with last_query_killed)).1.2
    = true
  ∧ (BackupOrchestrator.backup_all orchestrator (start_with last_query_killed)).1
    = Raise (ErrorReturnCode (-9) (argv (snapshot_query snapshot)))
  ∧ count is_zfs_destroy
      (trace (BackupOrchestrator.backup_all orchestrator
                (start_with last_query_killed)).2) = 1%nat
  ∧ sim_snapshot_present snapshot
      (Faulty.inner (world (BackupOrchestrator.backup_all orchestrator
                              (start_with last_query_killed)).2)) = false
  ∧ head (trace (BackupOrchestrator.backup_all orchestrator
                   (start_with last_query_killed)).2)
    = Some (EvLog ERROR (BackupOrchestrator.snapshot_left_msg orchestrator)).
Proof. split_and!; vm_compute; reflexivity. Qed.

(** X26 on the pool with the two datasets: the program succeeds and leaves
    the two repositories with one archive each. *)
Lemma full_backup_witness :
  Sim.datasets two_volume_pool
    = [("pool/svcs", "-"); ("pool/svcs/a", "/pool/svcs/a");
       ("pool/svcs/b", "/pool/svcs/b")]
  ∧ (∀ x, Sim.retain two_volume_pool ["--keep-daily=7"] [x] = [x])
  ∧ ∃ s' Ta Tb,
      program (mkState two_volume_pool ∅ []) = (Ok tt, s')
      ∧ Sim.repos (world s')
        = <["/backups/pool_svcs_b" :=
              ["homelab_auto-backup_2025-01-01_00-00-00_" +:+ Tb]]>
            (<["/backups/pool_svcs_a" :=
                 ["homelab_auto-backup_2025-01-01_00-00-00_" +:+ Ta]]> ∅).
Proof.
  assert (∀ x : string, Sim.retain two_volume_pool ["--keep-daily=7"] [x] = [x])
    as Hret by reflexivity.
  split; [reflexivity|]. split; [exact Hret|].
  destruct (full_backup_of_two_volumes two_volume_pool eq_refl
              "/backups" "secret" "ssh -i /root/.ssh/id_ed25519" "homelab"
              ["--keep-daily=7"] "zstd,10" "/etc/borg/excludes" ∅ [])
    as (s' & Ta & Tb & E & HR & _);
    [done | done | apply not_elem_of_empty | reflexivity | reflexivity | exact Hret |].
  exists s', Ta, Tb. split; [exact E | exact HR].
Defined.

(** The same run computed: the archives are named at ticks 6 and 11. *)
Lemma full_backup_computed :
  (program (mkState two_volume_pool ∅ [])).1 = Ok tt
  ∧ Sim.repos (world (program (mkState two_volume_pool ∅ [])).2)
    = {[ "/backups/pool_svcs_a"
           := ["homelab_auto-backup_2025-01-01_00-00-00_2025-01-01_00-00-06"];
         "/backups/pool_svcs_b"
           := ["homelab_auto-backup_2025-01-01_00-00-00_2025-01-01_00-00-11"] ]}
  ∧ Sim.snapshots (world (program (mkState two_volume_pool ∅ [])).2) = ∅.
Proof. split_and!; vm_compute; reflexivity. Qed.

(** C9. The claim fails on the code when the parent dataset [pool/svcs] is
    itself mounted, as a dataset is unless its mount point is turned off: the
    listing of [get_datasets], which its documentation says yields the child
    datasets, includes the parent, so that a full backup over the mounted
    volumes [a] and [b] succeeds and leaves three repositories, one of them
    for the parent. *)
Lemma mounted_parent_is_backed_up_too :
  (program (mkState mounted_parent_pool ∅ [])).1 = Ok tt
  ∧ dom (Sim.repos (world (program (mkState mounted_parent_pool ∅ [])).2))
    = {[ "/backups/pool_svcs"; "/backups/pool_svcs_a"; "/backups/pool_svcs_b" ]}.
Proof. split; vm_compute; reflexivity. Qed.

(** ** The further properties on concrete runs *)

Import Scenario.

(** X6 on the pool of the examples: the manager that the orchestrator builds
    for dataset [a] owns the repository the backup writes for [a]. *)
Lemma managers_address_witness :
  MasterOrchestrator.borg_repo_base_path (MasterOrchestrator.config master)
  = Config.repo_base_path (BackupOrchestrator.config orchestrator)
  ∧ BorgBackupRepoManager.repo_path manager
    = BackupOrchestrator._get_repo_path orchestrator a.
Proof.
  split; [reflexivity|].
  destruct (managers_address_backup_repositories master orchestrator start eq_refl)
    as [Hd _].
  apply (Hd a manager
           (MasterOrchestrator._get_borg_manager_for_dataset master (name a) start).2).
  vm_compute. reflexivity.
Defined.

(** X14 on the simulated host: creating the dataset of [a], which exists,
    only queries the storage tool. *)
Lemma create_dataset_witness :
  exec (dataset_query (ZFSManager.mk "pool/svcs") (Some "a")) (world start)
  = ([], 0, Sim.tick pool)
  ∧ ZFSManager.create_dataset (ZFSManager.mk "pool/svcs") "a" true start
    = (Ok tt, after start (dataset_query (ZFSManager.mk "pool/svcs") (Some "a")) 0
                (Sim.tick pool)).
Proof.
  split; [reflexivity|].
  apply (create_dataset_contract (ZFSManager.mk "pool/svcs") "a" true start
           [] 0 (Sim.tick pool)); reflexivity.
Defined.

(** X18 on the manager of the examples: the check process gets the
    keep-alive option right after [ssh]. *)
Lemma keep_alive_witness :
  heap (initialized []) !! BorgBackupRepoManager.borg_env manager = Some manager_env
  ∧ ∃ code,
      trace (BorgBackupRepoManager.check_repository manager false (initialized [])).2
      = [EvExec (BorgBackupRepoManager.borg_with
                   (<["BORG_RSH" := "ssh -o ServerAliveInterval=60 -i /root/.ssh/id_ed25519"]>
                      manager_env)
                   (check_args false)) code].
Proof.
  assert (heap (initialized []) !! BorgBackupRepoManager.borg_env manager
          = Some manager_env) as Hd by (vm_compute; reflexivity).
  split; [exact Hd|].
  destruct (check_adds_keep_alive_once manager false (initialized []) manager_env Hd)
    as [Hk _].
  apply (Hk "" "-i /root/.ssh/id_ed25519"); vm_compute; reflexivity.
Defined.

(** X20 on a host where [mkdir] fails: no key is exported. *)
Lemma export_all_keys_witness :
  exec (MasterOrchestrator.sudo ["mkdir"; "-p"; "/keys"]) (world (start_with [Some 1]))
  = ([], 1, Faulty.mk [] pool)
  ∧ MasterOrchestrator.export_all_keys master (start_with [Some 1])
    = (Ok None,
       after (start_with [Some 1]) (MasterOrchestrator.sudo ["mkdir"; "-p"; "/keys"]) 1
         (Faulty.mk [] pool)).
Proof.
  assert (exec (MasterOrchestrator.sudo ["mkdir"; "-p"; "/keys"])
            (world (start_with [Some 1])) = ([], 1, Faulty.mk [] pool)) as E
    by reflexivity.
  split; [exact E|].
  destruct (export_all_keys_needs_its_directory master (start_with [Some 1])
              [] 1 (Faulty.mk [] pool) E) as [Hm _].
  apply Hm. lia.
Defined.

(** X23 on a pool without mounted datasets. *)
Lemma no_mounted_dataset_witness :
  ZFSManager.get_datasets (BackupOrchestrator.zfs_manager orchestrator) unmounted
  = (Ok [], (ZFSManager.get_datasets (BackupOrchestrator.zfs_manager orchestrator)
               unmounted).2)
  ∧ (BackupOrchestrator._orchestrate_dataset_backups orchestrator unmounted).1
    = Raise (RuntimeError "Found 0 mounted datasets to back up under 'pool/svcs'.").
Proof.
  assert (ZFSManager.get_datasets (BackupOrchestrator.zfs_manager orchestrator) unmounted
          = (Ok [], (ZFSManager.get_datasets (BackupOrchestrator.zfs_manager orchestrator)
                       unmounted).2)) as E by (vm_compute; reflexivity).
  split; [exact E|].
  destruct (no_mounted_dataset_fails_the_run orchestrator _ _ E) as [Ho _].
  rewrite Ho. reflexivity.
Defined.

(** X10 on a host whose compose process ends with exit code 1: restarting
    the services returns, stopping them raises. *)
Lemma restart_accepts_witness :
  (DockerComposeManager.restart_all (start_with [Some 1])).1 = Ok tt
  ∧ (DockerComposeManager.stop_all (start_with [Some 1])).1
    = Raise (ErrorReturnCode 1
               ["sudo"; "docker"; "compose"; "-f"; "/srv/web/docker-compose.yml"; "stop"]).
Proof.
  destruct (restart_accepts_exit_code_one (start_with [Some 1])) as (_ & _ & Hr & Hs).
  split.
  - apply (Hr "/srv/web/docker-compose.yml" "/srv/web" [] (Faulty.mk [] pool));
      reflexivity.
  - apply (Hs "/srv/web/docker-compose.yml" "/srv/web" [] (Faulty.mk [] pool));
      reflexivity.
Defined.

(** X15 on a host where the first query is killed: the snapshot is neither
    created nor destroyed, and the failure of the query is raised. *)
Lemma failed_query_witness :
  ZFSManager.create_snapshot (ZFSManager.mk "pool/svcs") (Some tag) None true
    (start_with [Some (-9)])
  = (Raise (ErrorReturnCode (-9) (argv (snapshot_query snapshot))),
     after (start_with [Some (-9)]) (snapshot_query snapshot) (-9) (Faulty.mk [] pool))
  ∧ ZFSManager.destroy_snapshot (ZFSManager.mk "pool/svcs") tag None true
      (start_with [Some (-9)])
    = (Raise (ErrorReturnCode (-9) (argv (snapshot_query snapshot))),
       after (start_with [Some (-9)]) (snapshot_query snapshot) (-9) (Faulty.mk [] pool)).
Proof.
  destruct (failed_query_stops_the_operation (start_with [Some (-9)])) as (Hs & _).
  apply (Hs (ZFSManager.mk "pool/svcs") tag None true [] (-9) (Faulty.mk [] pool));
    [done | reflexivity | lia | lia].
Defined.

(** X11 with output captured, on a host where [apt-get update] succeeds: the
    routine raises right after it, and the three other commands do not
    run. *)
Lemma perform_maintenance_witness :
  SystemManager.perform_maintenance false (start_with [Some 0])
  = (Raise (AttributeError "'str' object has no attribute 'stdout'"),
     mkState (Faulty.mk [] pool) {[ 0%nat := base_env ]}
       [EvExec (mkCommand ["sudo"; "apt-get"; "update"] None None) 0]).
Proof.
  destruct (perform_maintenance_fail_fast false (start_with [Some 0])) as [_ Hb].
  destruct (Hb eq_refl) as [Hs Hr].
  rewrite (surjective_pairing (SystemManager.perform_maintenance false _)).
  rewrite Hs, Hr. reflexivity.
Defined.
